(** * Follow-up email sender: a shallow embedding of
      [reports/emailer/send_followup_emails_smart.py]

    Python strings are sequences of Unicode code points; they are modelled
    as lists of [N].  Console input, console output, the file system and
    the SMTP relay are modelled by an explicit trace of events produced by
    a small error/trace monad that threads the remaining standard input. *)

From Stdlib Require Import Ascii String.
From Stdlib Require Import List NArith ZArith Bool Lia Arith.
Import ListNotations.

Set Implicit Arguments.

(* ===================================================================== *)
(** * Part I: definitions                                                 *)
(* ===================================================================== *)

(** ** Python [str] *)

Definition codepoint := N.
Definition pstr := list codepoint.

(** ASCII literals of the source, as code points. *)
Definition u (s : string) : pstr := List.map N_of_ascii (list_ascii_of_string s).
Arguments u : simpl never.

Fixpoint pstr_eqb (a b : pstr) : bool :=
  match a, b with
  | [], [] => true
  | x :: a', y :: b' => N.eqb x y && pstr_eqb a' b'
  | _, _ => false
  end.

Definition in_range (lo hi c : N) : bool := N.leb lo c && N.leb c hi.

(** [str.isspace] on one code point: the white-space set used by
    [str.strip()] and [str.split()] when called without argument. *)
Definition isspace (c : codepoint) : bool :=
  in_range 0x09 0x0D c || in_range 0x1C 0x1F c || N.eqb c 0x20
  || N.eqb c 0x85 || N.eqb c 0xA0 || N.eqb c 0x1680
  || in_range 0x2000 0x200A c || N.eqb c 0x2028 || N.eqb c 0x2029
  || N.eqb c 0x202F || N.eqb c 0x205F || N.eqb c 0x3000.

Fixpoint lstrip (s : pstr) : pstr :=
  match s with
  | [] => []
  | c :: r => if isspace c then lstrip r else s
  end.

Definition rstrip (s : pstr) : pstr := rev (lstrip (rev s)).

(** [s.strip()] *)
Definition strip (s : pstr) : pstr := rstrip (lstrip s).

Definition newline : codepoint := 10%N.

(** [s.split(sep)] for a one-character separator: k occurrences of the
    separator give k+1 pieces, the empty string gives one empty piece. *)
Fixpoint split_on (sep : codepoint) (s : pstr) : list pstr :=
  match s with
  | [] => [[]]
  | c :: r =>
      if N.eqb c sep then [] :: split_on sep r
      else match split_on sep r with
           | [] => [[c]]
           | w :: ws => (c :: w) :: ws
           end
  end.

(** [sep.join(pieces)] *)
Fixpoint join (sep : pstr) (pieces : list pstr) : pstr :=
  match pieces with
  | [] => []
  | [p] => p
  | p :: ps => p ++ sep ++ join sep ps
  end.

(** [s.split()]: maximal runs of non-white-space characters.  [cur] is the
    token being read, reversed. *)
Fixpoint split_ws_from (cur : pstr) (s : pstr) : list pstr :=
  match s with
  | [] => match cur with [] => [] | _ => [rev cur] end
  | c :: r =>
      if isspace c
      then match cur with
           | [] => split_ws_from [] r
           | _ => rev cur :: split_ws_from [] r
           end
      else split_ws_from (c :: cur) r
  end.

Definition split_ws (s : pstr) : list pstr := split_ws_from [] s.

Fixpoint is_prefix (p s : pstr) : bool :=
  match p, s with
  | [], _ => true
  | x :: p', y :: s' => N.eqb x y && is_prefix p' s'
  | _ :: _, [] => false
  end.

(** Left-to-right replacement of the non-overlapping occurrences of a
    non-empty [old]; [skip] counts the characters of the occurrence just
    replaced that are still to be dropped. *)
Fixpoint replace_from (old new : pstr) (skip : nat) (s : pstr) : pstr :=
  match s with
  | [] => []
  | c :: r =>
      match skip with
      | S k => replace_from old new k r
      | O => if is_prefix old s
             then new ++ replace_from old new (pred (length old)) r
             else c :: replace_from old new 0 r
      end
  end.

(** [s.replace(old, new)]; with an empty [old] Python inserts [new] before
    every character and at the end. *)
Definition replace (old new s : pstr) : pstr :=
  match old with
  | [] => new ++ flat_map (fun c => c :: new) s
  | _ => replace_from old new 0 s
  end.

(** ** Regular expressions of the [re] module *)

Inductive regex : Type :=
| Void
| Eps
| Class (p : codepoint -> bool)
| Seq (r1 r2 : regex)
| Alt (r1 r2 : regex)
| Star (r : regex).

Fixpoint nullable (r : regex) : bool :=
  match r with
  | Void => false
  | Eps => true
  | Class _ => false
  | Seq r1 r2 => nullable r1 && nullable r2
  | Alt r1 r2 => nullable r1 || nullable r2
  | Star _ => true
  end.

Fixpoint deriv (c : codepoint) (r : regex) : regex :=
  match r with
  | Void => Void
  | Eps => Void
  | Class p => if p c then Eps else Void
  | Seq r1 r2 =>
      if nullable r1
      then Alt (Seq (deriv c r1) r2) (deriv c r2)
      else Seq (deriv c r1) r2
  | Alt r1 r2 => Alt (deriv c r1) (deriv c r2)
  | Star r1 => Seq (deriv c r1) (Star r1)
  end.

Fixpoint accepts (r : regex) (s : pstr) : bool :=
  match s with
  | [] => nullable r
  | c :: s' => accepts (deriv c r) s'
  end.

(** The words of a regular expression. *)
Inductive lang : regex -> pstr -> Prop :=
| lang_eps : lang Eps []
| lang_class p c : p c = true -> lang (Class p) [c]
| lang_seq r1 r2 s1 s2 : lang r1 s1 -> lang r2 s2 -> lang (Seq r1 r2) (s1 ++ s2)
| lang_alt_l r1 r2 s : lang r1 s -> lang (Alt r1 r2) s
| lang_alt_r r1 r2 s : lang r2 s -> lang (Alt r1 r2) s
| lang_star_nil r : lang (Star r) []
| lang_star_cons r s1 s2 : lang r s1 -> lang (Star r) s2 -> lang (Star r) (s1 ++ s2).

(** [r+] and [r{2,}] *)
Definition Plus (r : regex) : regex := Seq r (Star r).
Definition AtLeast2 (r : regex) : regex := Seq r (Seq r (Star r)).
(** [r{4}] *)
Definition Exactly4 (r : regex) : regex := Seq r (Seq r (Seq r r)).

Definition ends_with_newline (s : pstr) : bool :=
  match rev s with
  | c :: _ => N.eqb c newline
  | [] => false
  end.

(** [re.match('^' r '$', s)] is not None: without the MULTILINE flag [$]
    matches at the end of the string and just before a newline that is the
    last character. *)
Definition re_match_anchored (r : regex) (s : pstr) : bool :=
  accepts r s || (ends_with_newline s && accepts r (removelast s)).

Definition is_char (a : string) (c : codepoint) : bool :=
  match u a with
  | [x] => N.eqb c x
  | _ => false
  end.

Definition ascii_lower_letter (c : codepoint) : bool := in_range 97 122 c.
Definition ascii_upper_letter (c : codepoint) : bool := in_range 65 90 c.
Definition ascii_digit (c : codepoint) : bool := in_range 48 57 c.
Definition ascii_letter (c : codepoint) : bool :=
  ascii_lower_letter c || ascii_upper_letter c.

(** [[a-zA-Z0-9._%+-]] *)
Definition local_class (c : codepoint) : bool :=
  ascii_letter c || ascii_digit c || is_char "." c || is_char "_" c
  || is_char "%" c || is_char "+" c || is_char "-" c.

(** [[a-zA-Z0-9.-]] *)
Definition domain_class (c : codepoint) : bool :=
  ascii_letter c || ascii_digit c || is_char "." c || is_char "-" c.

(** [^[a-zA-Z0-9._%+-]+@[a-zA-Z0-9.-]+\.[a-zA-Z]{2,}$] *)
Definition EMAIL_RE : regex :=
  Seq (Plus (Class local_class))
      (Seq (Class (is_char "@"))
           (Seq (Plus (Class domain_class))
                (Seq (Class (is_char "."))
                     (AtLeast2 (Class ascii_letter))))).

(** ** Unicode tables of the interpreter

    [str.lower], [str.title] and the decimal-digit property (the class [\d]
    of [re] on [str] patterns, and the digits [int] accepts) are given by
    the interpreter's Unicode database, which is not part of the
    repository: the development is parametric in them. *)
Record unicode_db : Type := {
  str_lower : pstr -> pstr;
  str_title : pstr -> pstr;
  decimal_value : codepoint -> option N
}.

(** The restriction of the three tables to ASCII, used to run the model on
    concrete ASCII inputs. *)
Definition ascii_lower_cp (c : codepoint) : codepoint :=
  if ascii_upper_letter c then (c + 32)%N else c.
Definition ascii_upper_cp (c : codepoint) : codepoint :=
  if ascii_lower_letter c then (c - 32)%N else c.

Fixpoint ascii_title_from (prev_cased : bool) (s : pstr) : pstr :=
  match s with
  | [] => []
  | c :: r =>
      (if prev_cased then ascii_lower_cp c else ascii_upper_cp c)
        :: ascii_title_from (ascii_letter c) r
  end.

Definition ascii_db : unicode_db := {|
  str_lower := List.map ascii_lower_cp;
  str_title := ascii_title_from false;
  decimal_value := fun c => if ascii_digit c then Some (c - 48)%N else None
|}.

(** ** Data of the script *)

(** A recipient dictionary [{'name': ..., 'email': ...}]. *)
Record recipient : Type := { name : pstr; email : pstr }.

(** A [MIMEText(payload, subtype, charset)] part. *)
Record mime_part : Type := {
  content_subtype : pstr;
  charset : pstr;
  payload : pstr
}.

(** A [MIMEMultipart(subtype)] container with its headers, in the order
    they were set, and its attached parts, in the order of attachment. *)
Record message : Type := {
  multipart_subtype : pstr;
  headers : list (pstr * pstr);
  parts : list mime_part
}.

(** *** Configuration constants *)

Definition SMTP_SERVER : pstr := u "smtp.gmail.com".
Definition SMTP_PORT : nat := 587.
Definition SENDER_EMAIL : pstr := u "about.last.night.game@gmail.com".
Definition SENDER_NAME : pstr := u "Max & Shuai".
Definition REPLY_TO_EMAIL : pstr := u "about.last.night@gmail.com".
Definition CASE_FILE_BASE : pstr := u "https://aboutlastnightgame.com/reports/".
Definition FEEDBACK_BASE : pstr := u "https://aboutlastnightgame.com/feedback.html".
Definition TEMPLATE_FILE : pstr := u "about_last_night_followup_template.html".
Definition DELAY_BETWEEN_EMAILS : nat := 1.
Definition SAVE_CSV : bool := true.

(** ** Exceptions, console texts and events *)

Inductive value_error : Type :=
| OddLineCount (nlines : nat)   (* raised by [parse_booking_data] *)
| InvalidLiteral (s : pstr).    (* raised by [int] *)

(** The exceptions the modelled run can raise; all derive from
    [Exception]. *)
Inductive exn : Type :=
| EOFError
| ValueError (v : value_error)
| IndexError
| FileNotFoundError
| OSError (e : pstr)
| SMTPAuthenticationError
| SMTPException (e : pstr).

Inductive outcome (A : Type) : Type :=
| Ret (a : A)
| Raise (e : exn).
Arguments Ret {A} a.
Arguments Raise {A} e.

(** The [input(...)] calls of the script. *)
Inductive prompt : Type :=
| AskDate          (* "Enter session date (MMDD format, ...): " *)
| AskSessionNum    (* "Enter session number [1]: " *)
| PasteLine        (* [input()] of the paste loop *)
| AskLooksCorrect  (* "Does this look correct? (yes/no): " *)
| AskSendForReal.  (* "Send for real? (yes/no): " *)

(** The [print(...)] calls of the script, one constructor per call site
    (a heading of three consecutive prints counts as one), carrying the
    values interpolated in the text. *)
Inductive text : Type :=
| Heading (title : pstr)
| BadFormat                     (* "Please use MMDD format (4 digits)" *)
| BadMonth                      (* "Invalid month (must be 01-12)" *)
| BadDay                        (* "Invalid day (must be 01-31)" *)
| SessionMenu (session_date : pstr)
| BadSessionNum                 (* "Please enter 1, 2, or 3" *)
| SessionSummary (session_date report_id : pstr)
| PasteInstructions
| Parsed (n : nat)              (* "Parsed {n} recipients" *)
| ParseError (e : value_error)  (* "Error parsing data: {e}" and the hint *)
| WarnEmail (email : pstr)      (* "Warning: '{email}' doesn't look like ..." *)
| DryRunLine (name email : pstr)  (* "[DRY RUN] Would send to: ..." *)
| SentLine (name email : pstr)    (* "Sent to: {name} <{email}>" *)
| FailedLine (email err : pstr)   (* "Failed to send to {email}: {e}" *)
| SavedTo (filename : pstr)
| Preview (session_date report_id : pstr) (recipients : list recipient)
| TemplateMissing
| Rule                          (* "\n" + "="*60 *)
| Cancelled
| TemplateLoaded
| DryRunHeading                 (* "=== DRY RUN (no emails will be sent) ===" *)
| ReadyToSend (n : nat)
| SendingHeading                (* "=== SENDING EMAILS ===" *)
| Authenticating
| Connected
| Progress (i n : nat)          (* "[{i}/{n}]" *)
| Summary (success_count n : nat)  (* "Successfully sent {k}/{n} emails" *)
| AuthFailedHelp
| ErrorLine (e : exn) (success_count n : nat)
| UnexpectedError (e : exn).

Inductive event : Type :=
| Print (t : text)
| Input (p : prompt) (answer : pstr)   (* [input] returned [answer] *)
| InputEOF (p : prompt)                (* [input] met the end of input *)
| CsvWritten (filename : pstr) (header : list pstr) (rows : list (list pstr))
| TemplateRead                         (* [open(TEMPLATE_FILE).read()] *)
| SmtpConnect                          (* [smtplib.SMTP(SMTP_SERVER, SMTP_PORT)] *)
| SmtpStartTls
| SmtpLogin
| SmtpSend (m : message) (ok : bool)   (* [server.send_message(m)] *)
| SmtpQuit                             (* leaving the [with] block *)
| Sleep (seconds : nat).               (* [time.sleep(seconds)] *)

(** ** The environment of one run *)

(** How the set-up of the SMTP session ends. *)
Inductive smtp_setup : Type :=
| ConnectError (e : pstr)     (* [smtplib.SMTP(...)] raises *)
| StartTlsError (e : pstr)    (* [server.starttls()] raises *)
| LoginRefused                (* [server.login] raises SMTPAuthenticationError *)
| LoginError (e : pstr)       (* [server.login] raises another error *)
| SessionOk.

Record world : Type := {
  (** the template file, if it exists (unchanged during the run) *)
  w_template : option pstr;
  (** the error [open(filename, 'w')] raises, if any *)
  w_csv_error : option pstr;
  w_smtp : smtp_setup;
  (** [w_send i m]: the error text of the exception raised by the
      [send_message(m)] call of iteration [i], [None] when it succeeds *)
  w_send : nat -> message -> option pstr
}.

(** ** Two small monads

    [W]: code that prints and may raise.  [M]: code that, besides, reads
    lines from standard input, given as the list of the lines to come. *)

Definition W (A : Type) : Type := list event * outcome A.

Definition retW {A} (a : A) : W A := ([], Ret a).
Definition raiseW {A} (e : exn) : W A := ([], Raise e).
Definition bindW {A B} (m : W A) (k : A -> W B) : W B :=
  match m with
  | (evs, Ret a) => let (evs', r) := k a in (evs ++ evs', r)
  | (evs, Raise e) => (evs, Raise e)
  end.
Definition emit (e : event) : W unit := ([e], Ret tt).
Definition say (t : text) : W unit := emit (Print t).

Record run (A : Type) : Type := Run {
  out : list event;     (* the events, in order *)
  rest : list pstr;     (* the input lines not read *)
  res : outcome A
}.
Arguments Run {A} out rest res.

Definition M (A : Type) : Type := list pstr -> run A.

Definition retM {A} (a : A) : M A := fun i => Run [] i (Ret a).
Definition bindM {A B} (m : M A) (k : A -> M B) : M B :=
  fun i =>
    match m i with
    | Run evs i' (Ret a) =>
        match k a i' with
        | Run evs' i'' r => Run (evs ++ evs') i'' r
        end
    | Run evs i' (Raise e) => Run evs i' (Raise e)
    end.
Definition lift {A} (m : W A) : M A := fun i => Run (fst m) i (snd m).

(** [input(p)] *)
Definition input (p : prompt) : M pstr :=
  fun i =>
    match i with
    | [] => Run [InputEOF p] [] (Raise EOFError)
    | x :: i' => Run [Input p x] i' (Ret x)
    end.

Declare Scope W_scope.
Delimit Scope W_scope with W.
Notation "x <- m ;; k" := (bindW m (fun x => k))
  (at level 61, m at next level, right associativity) : W_scope.
Notation "m ;; k" := (bindW m (fun _ => k))
  (at level 61, right associativity) : W_scope.

Declare Scope M_scope.
Delimit Scope M_scope with M.
Notation "x <- m ;; k" := (bindM m (fun x => k))
  (at level 61, m at next level, right associativity) : M_scope.
Notation "m ;; k" := (bindM m (fun _ => k))
  (at level 61, right associativity) : M_scope.

(** [while True: x = input(p); body] for a body that prints and then
    either goes on with a new state ([inl], the end of the body or
    [continue]) or leaves the loop with a value ([inr], [break]). *)
Fixpoint input_loop {St A} (p : prompt) (body : St -> pstr -> W (St + A))
    (st : St) (i : list pstr) : run A :=
  match i with
  | [] => Run [InputEOF p] [] (Raise EOFError)
  | x :: i' =>
      match body st x with
      | (evs, Ret (inr a)) => Run (Input p x :: evs) i' (Ret a)
      | (evs, Ret (inl st')) =>
          match input_loop p body st' i' with
          | Run evs' i'' r => Run (Input p x :: evs ++ evs') i'' r
          end
      | (evs, Raise e) => Run (Input p x :: evs) i' (Raise e)
      end
  end.

(** [for x in l: body], with the loop variables in [acc]. *)
Fixpoint for_each {X Acc} (body : Acc -> X -> W Acc) (l : list X) (acc : Acc)
    : W Acc :=
  match l with
  | [] => retW acc
  | x :: l' => bindW (body acc x) (fun acc' => for_each body l' acc')
  end.

Definition is_empty {X} (l : list X) : bool :=
  match l with [] => true | _ => false end.

(** [range(0, n, 2)] *)
Definition range_by_2 (n : nat) : list nat :=
  List.map (fun k => 2 * k) (seq 0 (Nat.div2 (S n))).

(** [l[i]] *)
Definition index {X} (l : list X) (i : nat) : W X :=
  match nth_error l i with
  | Some x => retW x
  | None => raiseW IndexError
  end.

(** ** The script *)

Section Script.

Variable U : unicode_db.

(** [\d] *)
Definition is_decimal (c : codepoint) : bool :=
  match decimal_value U c with Some _ => true | None => false end.

Fixpoint digits_value (acc : N) (s : pstr) : option N :=
  match s with
  | [] => Some acc
  | c :: r =>
      match decimal_value U c with
      | Some d => digits_value (10 * acc + d) r
      | None => None
      end
  end.

(** [int(s)] on a string of decimal digits, surrounding white space
    allowed; signs and underscores are not modelled (the script applies
    [int] to characters matched by [\d] only) and count as invalid. *)
Definition py_int (s : pstr) : W Z :=
  match strip s with
  | [] => raiseW (ValueError (InvalidLiteral s))
  | t => match digits_value 0 t with
         | Some v => retW (Z.of_N v)
         | None => raiseW (ValueError (InvalidLiteral s))
         end
  end.

(** The validation regex of [parse_booking_data]. *)
Definition email_looks_valid (email : pstr) : bool :=
  re_match_anchored EMAIL_RE email.

(** The list comprehension at the head of [parse_booking_data]. *)
Definition booking_lines (raw_text : pstr) : list pstr :=
  List.map strip
    (List.filter (fun line => negb (is_empty (strip line)))
       (split_on newline (strip raw_text))).

Definition parse_booking_data (raw_text : pstr) : W (list recipient) :=
  (let lines := booking_lines raw_text in
   if negb (Nat.eqb (Nat.modulo (length lines) 2) 0)
   then raiseW (ValueError (OddLineCount (length lines)))
   else
     for_each
       (fun recipients i =>
          name <- index lines i ;;
          email <- index lines (i + 1) ;;
          (if negb (email_looks_valid email)
           then say (WarnEmail email) else retW tt) ;;
          retW (recipients ++
                  [{| name := str_title U name; email := str_lower U email |}]))
       (range_by_2 (length lines)) [])%W.

(** *** [get_session_info] *)

Definition DATE_RE : regex := Exactly4 (Class is_decimal).

(** Body of the first loop, after [session_date = input(...).strip()]. *)
Definition session_date_body (_ : unit) (answer : pstr) : W (unit + pstr) :=
  (let session_date := strip answer in
   if negb (re_match_anchored DATE_RE session_date)
   then say BadFormat ;; retW (inl tt)
   else
     month <- py_int (firstn 2 session_date) ;;
     if (month <? 1)%Z || (month >? 12)%Z
     then say BadMonth ;; retW (inl tt)
     else
       day <- py_int (skipn 2 session_date) ;;
       if (day <? 1)%Z || (day >? 31)%Z
       then say BadDay ;; retW (inl tt)
       else retW (inr session_date))%W.

(** Body of the second loop, after
    [session_num = input(...).strip() or "1"]. *)
Definition session_num_body (_ : unit) (answer : pstr) : W (unit + pstr) :=
  (let session_num := if is_empty (strip answer) then u "1" else strip answer in
   if existsb (pstr_eqb session_num) [u "1"; u "2"; u "3"]
   then retW (inr session_num)
   else say BadSessionNum ;; retW (inl tt))%W.

Definition get_session_info : M (pstr * pstr) :=
  (lift (say (Heading (u "SESSION INFORMATION"))) ;;
   session_date <- input_loop AskDate session_date_body tt ;;
   lift (say (SessionMenu session_date)) ;;
   session_num <- input_loop AskSessionNum session_num_body tt ;;
   let report_id :=
     if pstr_eqb session_num (u "1") then session_date
     else session_date ++ session_num in
   lift (say (SessionSummary session_date report_id)) ;;
   retM (session_date, report_id))%M.

(** *** [get_booking_data] *)

Definition paste_body (lines : list pstr) (line : pstr)
    : W (list pstr + list pstr) :=
  if is_empty (strip line) && negb (is_empty lines) then retW (inr lines)
  else if negb (is_empty (strip line)) then retW (inl (lines ++ [line]))
  else retW (inl lines).

Definition get_booking_data : M (list recipient) :=
  (lift (say PasteInstructions) ;;
   lines <- input_loop PasteLine paste_body [] ;;
   let raw_text := join [newline] lines in
   lift (match parse_booking_data raw_text with
         | (evs, Ret recipients) =>
             (evs ++ [Print (Parsed (length recipients))], Ret recipients)
         | (evs, Raise (ValueError e)) =>
             (evs ++ [Print (ParseError e)], Ret [])
         | (evs, Raise e) => (evs, Raise e)
         end))%M.

(** *** Templates and messages *)

(** [Path(TEMPLATE_FILE).exists()] *)
Definition path_exists_template (w : world) : bool :=
  match w_template w with Some _ => true | None => false end.

Definition load_template (w : world) : W pstr :=
  match w_template w with
  | None => raiseW FileNotFoundError
  | Some t => (emit TemplateRead ;; retW t)%W
  end.

(** [recipient['name'].split()[0]] *)
Definition first_name (r : recipient) : W pstr := index (split_ws (name r)) 0.

Definition case_file_url (report_id : pstr) : pstr :=
  CASE_FILE_BASE ++ u "report" ++ report_id ++ u ".html".

Definition feedback_url (session_date : pstr) : pstr :=
  FEEDBACK_BASE ++ u "?date=" ++ session_date.

Definition personalize_email (template : pstr) (r : recipient)
    (session_date report_id : pstr) : W pstr :=
  (let email := template in
   first <- first_name r ;;
   let email := replace (u "{{PLAYER_NAME}}") first email in
   let email := replace (u "{{CASE_FILE_URL}}") (case_file_url report_id) email in
   let email :=
     replace (u "{{FEEDBACK_FORM_URL}}") (feedback_url session_date) email in
   retW email)%W.

Definition nl : pstr := [newline].

(** The f-string of the plain-text version, before [.strip()]. *)
Definition text_content (first : pstr) : pstr :=
  nl ++ u "Hey " ++ first ++ u "," ++ nl ++ nl
  ++ u "First of all, thank you." ++ nl ++ nl
  ++ u "I hope it gave you something worth remembering." ++ nl ++ nl
  ++ u "And speaking of memories " ++ [0x2014%N]
  ++ u " Detective Anondono's case file is ready." ++ nl ++ nl
  ++ u "Visit aboutlastnightgame.com to view your personalized case file and leave feedback."
  ++ nl ++ nl
  ++ u "If you want to share anything from the night " ++ [0x2014%N]
  ++ u " photos, theories, hot takes " ++ [0x2014%N]
  ++ u " we'd love to see it. " ++ nl
  ++ u "Tag @storypunkstudio on Instagram or StoryPunk on Facebook." ++ nl ++ nl
  ++ u "We'd love to have you come back and play again and bring your crew through. "
  ++ nl
  ++ u "Use promo code EarlyAccessWelcomeBack for a 33% discount." ++ nl ++ nl
  ++ u "Thanks again for being part of this." ++ nl ++ nl
  ++ u "Max & Shuai" ++ nl
  ++ u "StoryPunk / Patchwork Adventures" ++ nl ++ u "    ".

Definition create_email_message (r : recipient) (html_content : pstr)
    : W message :=
  (first <- first_name r ;;
   let part1 := {| content_subtype := u "plain"; charset := u "utf-8";
                   payload := strip (text_content first) |} in
   let part2 := {| content_subtype := u "html"; charset := u "utf-8";
                   payload := html_content |} in
   retW {| multipart_subtype := u "alternative";
           headers :=
             [ (u "From", SENDER_NAME ++ u " <" ++ SENDER_EMAIL ++ u ">");
               (u "To", email r);
               (u "Reply-To", REPLY_TO_EMAIL);
               (u "Subject", u "Thank you for playing About Last Night") ];
           parts := [part1; part2] |})%W.

(** [send_email(recipient, msg, server, dry_run)]; [server] is [None] or
    the behaviour of its [send_message]. *)
Definition send_email (r : recipient) (msg : message)
    (server : option (message -> option pstr)) (dry_run : bool) : W bool :=
  (if dry_run
   then say (DryRunLine (name r) (email r)) ;; retW true
   else
     match server with
     | None =>
         say (FailedLine (email r)
                (u "'NoneType' object has no attribute 'send_message'")) ;;
         retW false
     | Some send_message =>
         match send_message msg with
         | None =>
             emit (SmtpSend msg true) ;;
             say (SentLine (name r) (email r)) ;; retW true
         | Some e =>
             emit (SmtpSend msg false) ;;
             say (FailedLine (email r) e) ;; retW false
         end
     end)%W.

Definition save_to_csv (w : world) (recipients : list recipient)
    (session_date report_id filename : pstr) : W unit :=
  match w_csv_error w with
  | Some e => raiseW (OSError e)
  | None =>
      (emit (CsvWritten filename
               [u "name"; u "email"; u "session_date"; u "report_id"]
               (List.map
                  (fun r => [name r; email r; session_date; report_id])
                  recipients)) ;;
       say (SavedTo filename))%W
  end.

Definition preview_recipients (recipients : list recipient)
    (session_date report_id : pstr) : W unit :=
  say (Preview session_date report_id recipients).

(** *** [main] *)

(** [for x in l: body], where the loop variables in [acc] are read by an
    exception handler outside the loop: their value at the raise is kept. *)
Fixpoint for_each_keep {X Acc} (body : Acc -> X -> W Acc) (l : list X)
    (acc : Acc) : list event * Acc * outcome unit :=
  match l with
  | [] => ([], acc, Ret tt)
  | x :: l' =>
      match body acc x with
      | (evs, Ret acc') =>
          match for_each_keep body l' acc' with
          | (evs', a, r) => (evs ++ evs', a, r)
          end
      | (evs, Raise e) => (evs, acc, Raise e)
      end
  end.

(** [enumerate(l, 1)] *)
Definition enumerate1 {X} (l : list X) : list (nat * X) :=
  combine (seq 1 (length l)) l.

(** Step 7: the dry run. *)
Definition dry_run_pass (template : pstr) (recipients : list recipient)
    (session_date report_id : pstr) : W unit :=
  for_each
    (fun _ recipient =>
       (personalized <-
          personalize_email template recipient session_date report_id ;;
        msg <- create_email_message recipient personalized ;;
        _ <- send_email recipient msg None true ;;
        retW tt)%W)
    recipients tt.

(** Body of the loop of step 9. *)
Definition send_body (w : world) (template session_date report_id : pstr)
    (total : nat) (success_count : nat) (ir : nat * recipient) : W nat :=
  (let (i, recipient) := ir in
   say (Progress i total) ;;
   personalized <-
     personalize_email template recipient session_date report_id ;;
   msg <- create_email_message recipient personalized ;;
   sent <- send_email recipient msg (Some (w_send w i)) false ;;
   let success_count := if sent then success_count + 1 else success_count in
   (if Nat.ltb i total then emit (Sleep DELAY_BETWEEN_EMAILS) else retW tt) ;;
   retW success_count)%W.

(** Step 9: the [try] block with its two handlers. *)
Definition real_send_pass (w : world) (template : pstr)
    (recipients : list recipient) (session_date report_id : pstr) : W unit :=
  let total := length recipients in
  let '(evs, success_count, r) :=
    match w_smtp w with
    | ConnectError e => ([], 0, Raise (OSError e))
    | StartTlsError e => ([SmtpConnect; SmtpQuit], 0, Raise (SMTPException e))
    | LoginRefused =>
        ([SmtpConnect; SmtpStartTls; Print Authenticating; SmtpQuit], 0,
         Raise SMTPAuthenticationError)
    | LoginError e =>
        ([SmtpConnect; SmtpStartTls; Print Authenticating; SmtpQuit], 0,
         Raise (SMTPException e))
    | SessionOk =>
        match for_each_keep
                (send_body w template session_date report_id total)
                (enumerate1 recipients) 0 with
        | (evs, k, r) =>
            ([SmtpConnect; SmtpStartTls; Print Authenticating; SmtpLogin;
              Print Connected] ++ evs ++ [SmtpQuit], k, r)
        end
    end in
  match r with
  | Ret _ => (evs ++ [Print (Summary success_count total)], Ret tt)
  | Raise SMTPAuthenticationError => (evs ++ [Print AuthFailedHelp], Ret tt)
  | Raise e => (evs ++ [Print (ErrorLine e success_count total)], Ret tt)
  end.

(** [input(...).strip().lower()] compared with ['yes']. *)
Definition answered_yes (answer : pstr) : bool :=
  pstr_eqb (str_lower U (strip answer)) (u "yes").

Definition csv_filename (session_date report_id : pstr) : pstr :=
  u "recipients_" ++ session_date ++ u "_" ++ report_id ++ u ".csv".

Definition main (w : world) : M unit :=
  (lift (say (Heading (u "ABOUT LAST NIGHT - EMAIL SENDER"))) ;;
   if negb (path_exists_template w)
   then lift (say TemplateMissing)
   else
     info <- get_session_info ;;
     let (session_date, report_id) := info : pstr * pstr in
     recipients <- get_booking_data ;;
     if is_empty recipients then retM tt
     else
       lift (preview_recipients recipients session_date report_id ;;
             say Rule)%W ;;
       response <- input AskLooksCorrect ;;
       if negb (answered_yes response) then lift (say Cancelled)
       else
         lift ((if SAVE_CSV
                then save_to_csv w recipients session_date report_id
                       (csv_filename session_date report_id)
                else retW tt) ;;
               say (Heading (u "PREPARING EMAILS")))%W ;;
         template <- lift (load_template w) ;;
         lift (say TemplateLoaded ;;
               say DryRunHeading ;;
               dry_run_pass template recipients session_date report_id ;;
               say Rule ;;
               say (ReadyToSend (length recipients)))%W ;;
         response <- input AskSendForReal ;;
         if negb (answered_yes response) then lift (say Cancelled)
         else
           lift (say SendingHeading ;;
                 real_send_pass w template recipients session_date
                   report_id)%W)%M.


End Script.

(** ** Sample runs *)

Definition demo_template : pstr :=
  u "Hi {{PLAYER_NAME}}: {{CASE_FILE_URL}} {{FEEDBACK_FORM_URL}}".

(** A world where the template exists, the CSV file can be written and
    the SMTP session is set up; [send] decides each send. *)
Definition demo_world (send : nat -> message -> option pstr) : world :=
  {| w_template := Some demo_template;
     w_csv_error := None;
     w_smtp := SessionOk;
     w_send := send |}.

(** Every send succeeds. *)
Definition send_ok : nat -> message -> option pstr := fun _ _ => None.

(** The first send fails, the others succeed. *)
Definition send_first_fails : nat -> message -> option pstr :=
  fun i _ => if Nat.eqb i 1 then Some (u "mailbox unavailable") else None.

(** One recipient, both confirmations answered yes. *)
Definition stdin_one : list pstr :=
  List.map u ["1204"; ""; "ann lee"; "Ann@Example.org"; ""; "yes"; " YES "]%string.

(** Two recipients, second session of the day, one rejected date. *)
Definition stdin_two : list pstr :=
  List.map u ["1304"; "1204"; "2"; "ann lee"; "ann@example.org";
              "bob"; "bob@example"; ""; "yes"; "yes"]%string.

(** The second confirmation is declined. *)
Definition stdin_declined : list pstr :=
  List.map u ["1204"; ""; "ann lee"; "ann@example.org"; ""; "yes"; "no"]%string.

(** Three pasted lines. *)
Definition stdin_odd : list pstr :=
  List.map u ["1204"; ""; "ann lee"; "ann@example.org"; "bob"; ""; "yes"]%string.

(** The pasted text of [stdin_two]. *)
Definition raw_two : pstr :=
  join [newline]
    (List.map u ["  ann lee "; ""; "Ann@Example.org"; "bob";
                 "bob@example"]%string).

Definition raw_odd : pstr :=
  join [newline] (List.map u ["ann lee"; "ann@example.org"; "bob"]%string).



(** The pasted lines of one pair. *)
Definition pasted_pair : list pstr := [u "ann lee"; u "Ann@Example.org"].

(** ** Vocabulary of the properties *)

Section Vocabulary.

Variable U : unicode_db.

(** The non-empty stripped lines of a pasted text. *)
Definition nonempty_stripped_lines (raw_text : pstr) : list pstr :=
  filter (fun line => negb (is_empty line))
    (List.map strip (split_on newline raw_text)).

(** The recipient built from the [i]-th name/email pair of [lines]. *)
Definition recipient_of_pair (lines : list pstr) (i : nat) : recipient :=
  {| name := str_title U (nth (2 * i) lines []);
     email := str_lower U (nth (2 * i + 1) lines []) |}.

(** What [parse_booking_data] prints for the [i]-th pair. *)
Definition warning_of_pair (lines : list pstr) (i : nat) : list event :=
  let email := nth (2 * i + 1) lines [] in
  if email_looks_valid email then [] else [Print (WarnEmail email)].

(** A well-formed MMDD date: exactly four decimal digits, the first two
    reading as a month between 1 and 12 and the last two as a day between
    1 and 31. *)
Definition valid_mmdd (s : pstr) : Prop :=
  exists c1 c2 c3 c4 d1 d2 d3 d4,
    s = [c1; c2; c3; c4] /\
    decimal_value U c1 = Some d1 /\ decimal_value U c2 = Some d2 /\
    decimal_value U c3 = Some d3 /\ decimal_value U c4 = Some d4 /\
    (1 <= 10 * d1 + d2 <= 12)%N /\ (1 <= 10 * d3 + d4 <= 31)%N.

(** The session number chosen by an answer to the second prompt. *)
Definition chosen_session_num (answer : pstr) : pstr :=
  if is_empty (strip answer) then u "1" else strip answer.

(** [recipient['name'].split()[0]] when the name has a token. *)
Definition first_name_of (r : recipient) : pstr := hd [] (split_ws (name r)).

Definition has_first_name (r : recipient) : bool :=
  negb (is_empty (split_ws (name r))).

(** The template after the three replacements, in the order of the code. *)
Definition html_for (template session_date report_id : pstr) (r : recipient)
    : pstr :=
  replace (u "{{FEEDBACK_FORM_URL}}") (feedback_url session_date)
    (replace (u "{{CASE_FILE_URL}}") (case_file_url report_id)
       (replace (u "{{PLAYER_NAME}}") (first_name_of r) template)).

(** The message built for a recipient from a given HTML body. *)
Definition message_with (r : recipient) (html_content : pstr) : message :=
  {| multipart_subtype := u "alternative";
     headers :=
       [ (u "From", SENDER_NAME ++ u " <" ++ SENDER_EMAIL ++ u ">");
         (u "To", email r);
         (u "Reply-To", REPLY_TO_EMAIL);
         (u "Subject", u "Thank you for playing About Last Night") ];
     parts :=
       [ {| content_subtype := u "plain"; charset := u "utf-8";
            payload := strip (text_content (first_name_of r)) |};
         {| content_subtype := u "html"; charset := u "utf-8";
            payload := html_content |} ] |}.

Definition message_for (template session_date report_id : pstr)
    (r : recipient) : message :=
  message_with r (html_for template session_date report_id r).

(** The plain-text body after [.strip()]. *)
Definition plain_text (first : pstr) : pstr :=
  u "Hey " ++ first ++ u "," ++ nl ++ nl
  ++ u "First of all, thank you." ++ nl ++ nl
  ++ u "I hope it gave you something worth remembering." ++ nl ++ nl
  ++ u "And speaking of memories " ++ [0x2014%N]
  ++ u " Detective Anondono's case file is ready." ++ nl ++ nl
  ++ u "Visit aboutlastnightgame.com to view your personalized case file and leave feedback."
  ++ nl ++ nl
  ++ u "If you want to share anything from the night " ++ [0x2014%N]
  ++ u " photos, theories, hot takes " ++ [0x2014%N]
  ++ u " we'd love to see it. " ++ nl
  ++ u "Tag @storypunkstudio on Instagram or StoryPunk on Facebook." ++ nl ++ nl
  ++ u "We'd love to have you come back and play again and bring your crew through. "
  ++ nl
  ++ u "Use promo code EarlyAccessWelcomeBack for a 33% discount." ++ nl ++ nl
  ++ u "Thanks again for being part of this." ++ nl ++ nl
  ++ u "Max & Shuai" ++ nl
  ++ u "StoryPunk / Patchwork Adventures".

(** The line of the dry run for one recipient. *)
Definition dry_line (r : recipient) : event :=
  Print (DryRunLine (name r) (email r)).

(** The events of one iteration of the real-send loop. *)
Definition send_events (w : world) (template session_date report_id : pstr)
    (total : nat) (ir : nat * recipient) : list event :=
  let (i, r) := ir in
  let m := message_for template session_date report_id r in
  [Print (Progress i total)]
  ++ match w_send w i m with
     | None => [SmtpSend m true; Print (SentLine (name r) (email r))]
     | Some e => [SmtpSend m false; Print (FailedLine (email r) e)]
     end
  ++ (if Nat.ltb i total then [Sleep DELAY_BETWEEN_EMAILS] else []).

Definition send_succeeds (w : world) (template session_date report_id : pstr)
    (ir : nat * recipient) : bool :=
  match w_send w (fst ir)
          (message_for template session_date report_id (snd ir)) with
  | None => true
  | Some _ => false
  end.

(** Classes of events. *)
Definition is_send (e : event) : bool :=
  match e with SmtpSend _ _ => true | _ => false end.

Definition is_successful_send (e : event) : bool :=
  match e with SmtpSend _ true => true | _ => false end.

Definition is_sleep (e : event) : bool :=
  match e with Sleep _ => true | _ => false end.

(** Events with an effect outside the console: files and mail. *)
Definition is_effect (e : event) : bool :=
  match e with
  | CsvWritten _ _ _ | TemplateRead | SmtpConnect | SmtpStartTls | SmtpLogin
  | SmtpSend _ _ | SmtpQuit | Sleep _ => true
  | Print (DryRunLine _ _) => true
  | _ => false
  end.

(** What [get_session_info] can produce. *)
Definition is_session_event (e : event) : bool :=
  match e with
  | Print (Heading _) | Print BadFormat | Print BadMonth | Print BadDay
  | Print (SessionMenu _) | Print BadSessionNum | Print (SessionSummary _ _)
  | Input AskDate _ | Input AskSessionNum _
  | InputEOF AskDate | InputEOF AskSessionNum => true
  | _ => false
  end.

(** What [get_booking_data] can produce. *)
Definition is_paste_event (e : event) : bool :=
  match e with
  | Print PasteInstructions | Print (WarnEmail _) | Print (Parsed _)
  | Print (ParseError _) | Input PasteLine _ | InputEOF PasteLine => true
  | _ => false
  end.

(** What the paste loop of [get_booking_data] can produce. *)
Definition is_paste_input (e : event) : bool :=
  match e with
  | Input PasteLine _ | InputEOF PasteLine => true
  | _ => false
  end.

(** What a failed set-up of the SMTP session can produce. *)
Definition is_setup_event (e : event) : bool :=
  match e with
  | SmtpConnect | SmtpStartTls | SmtpQuit | Print Authenticating
  | Print AuthFailedHelp | Print (ErrorLine _ _ _) => true
  | _ => false
  end.

(** What the real send can produce. *)
Definition is_send_pass_event (e : event) : bool :=
  match e with
  | SmtpConnect | SmtpStartTls | SmtpLogin | SmtpQuit | SmtpSend _ _
  | Sleep _ => true
  | Print Authenticating | Print Connected | Print (Progress _ _)
  | Print (SentLine _ _) | Print (FailedLine _ _) | Print (Summary _ _)
  | Print AuthFailedHelp | Print (ErrorLine _ _ _) => true
  | _ => false
  end.

(** A sleep of the fixed delay occurs somewhere after each send. *)
Definition sleeps_after_each_send (tr : list event) : Prop :=
  forall pre m ok post,
    tr = pre ++ SmtpSend m ok :: post ->
    exists mid post', post = mid ++ Sleep DELAY_BETWEEN_EMAILS :: post'.

(** *** The runs of [main] *)

Definition MAIN_HEADING : event :=
  Print (Heading (u "ABOUT LAST NIGHT - EMAIL SENDER")).

(** Steps 1 to 3, up to the preview, followed by [tail]. *)
Definition trace_to_preview (e1 e2 : list event) (sd rid : pstr)
    (rs : list recipient) (tail : list event) : list event :=
  MAIN_HEADING :: e1 ++ e2
    ++ Print (Preview sd rid rs) :: Print Rule :: tail.

(** Steps 5 to 7: the CSV file, the template and the lines [dry] of the
    dry run, followed by [tail]. *)
Definition trace_of_preparation (sd rid : pstr) (rs : list recipient)
    (dry tail : list event) : list event :=
  CsvWritten (csv_filename sd rid)
    [u "name"; u "email"; u "session_date"; u "report_id"]
    (List.map (fun r => [name r; email r; sd; rid]) rs)
  :: Print (SavedTo (csv_filename sd rid))
  :: Print (Heading (u "PREPARING EMAILS"))
  :: TemplateRead :: Print TemplateLoaded :: Print DryRunHeading
  :: dry ++ tail.

(** Steps 1 and 2 succeeded and gave recipients: the first confirmation
    is asked with [i2] left to read. *)
Definition reached_preview (w : world) (stdin : list pstr) (t : pstr)
    (e1 e2 : list event) (sd rid : pstr) (rs : list recipient)
    (i2 : list pstr) : Prop :=
  exists i1,
    w_template w = Some t /\
    get_session_info U stdin = Run e1 i1 (Ret (sd, rid)) /\
    get_booking_data U i1 = Run e2 i2 (Ret rs) /\
    rs <> [].

(** The trace of a run that reaches the loop of the real send, up to the
    loop. *)
Definition trace_before_sends (e1 e2 : list event) (sd rid : pstr)
    (rs : list recipient) (a1 a2 : pstr) : list event :=
  trace_to_preview e1 e2 sd rid rs
    (Input AskLooksCorrect a1
       :: trace_of_preparation sd rid rs (List.map dry_line rs)
            [Print Rule; Print (ReadyToSend (length rs));
             Input AskSendForReal a2; Print SendingHeading;
             SmtpConnect; SmtpStartTls; Print Authenticating; SmtpLogin;
             Print Connected]).

(** The ways [main] can run, with the trace and the outcome of each. *)
Inductive main_path (w : world) (stdin : list pstr)
    : list event -> outcome unit -> Prop :=
| path_no_template :
    w_template w = None ->
    main_path w stdin [MAIN_HEADING; Print TemplateMissing] (Ret tt)
| path_session_raises t e1 i1 ex :
    w_template w = Some t ->
    get_session_info U stdin = Run e1 i1 (Raise ex) ->
    main_path w stdin (MAIN_HEADING :: e1) (Raise ex)
| path_booking_raises t e1 i1 sd rid e2 i2 ex :
    w_template w = Some t ->
    get_session_info U stdin = Run e1 i1 (Ret (sd, rid)) ->
    get_booking_data U i1 = Run e2 i2 (Raise ex) ->
    main_path w stdin (MAIN_HEADING :: e1 ++ e2) (Raise ex)
| path_no_recipients t e1 i1 sd rid e2 i2 :
    w_template w = Some t ->
    get_session_info U stdin = Run e1 i1 (Ret (sd, rid)) ->
    get_booking_data U i1 = Run e2 i2 (Ret []) ->
    main_path w stdin (MAIN_HEADING :: e1 ++ e2) (Ret tt)
| path_eof_at_preview t e1 e2 sd rid rs :
    reached_preview w stdin t e1 e2 sd rid rs [] ->
    main_path w stdin
      (trace_to_preview e1 e2 sd rid rs [InputEOF AskLooksCorrect])
      (Raise EOFError)
| path_declined_preview t e1 e2 sd rid rs a1 i3 :
    reached_preview w stdin t e1 e2 sd rid rs (a1 :: i3) ->
    answered_yes U a1 = false ->
    main_path w stdin
      (trace_to_preview e1 e2 sd rid rs
         [Input AskLooksCorrect a1; Print Cancelled])
      (Ret tt)
| path_csv_fails t e1 e2 sd rid rs a1 i3 e :
    reached_preview w stdin t e1 e2 sd rid rs (a1 :: i3) ->
    answered_yes U a1 = true ->
    w_csv_error w = Some e ->
    main_path w stdin
      (trace_to_preview e1 e2 sd rid rs [Input AskLooksCorrect a1])
      (Raise (OSError e))
| path_dry_run_raises t e1 e2 sd rid rs a1 i3 k :
    reached_preview w stdin t e1 e2 sd rid rs (a1 :: i3) ->
    answered_yes U a1 = true ->
    w_csv_error w = None ->
    forallb has_first_name rs = false ->
    main_path w stdin
      (trace_to_preview e1 e2 sd rid rs
         (Input AskLooksCorrect a1
            :: trace_of_preparation sd rid rs
                 (List.map dry_line (firstn k rs)) []))
      (Raise IndexError)
| path_eof_at_send t e1 e2 sd rid rs a1 :
    reached_preview w stdin t e1 e2 sd rid rs [a1] ->
    answered_yes U a1 = true ->
    w_csv_error w = None ->
    forallb has_first_name rs = true ->
    main_path w stdin
      (trace_to_preview e1 e2 sd rid rs
         (Input AskLooksCorrect a1
            :: trace_of_preparation sd rid rs (List.map dry_line rs)
                 [Print Rule; Print (ReadyToSend (length rs));
                  InputEOF AskSendForReal]))
      (Raise EOFError)
| path_declined_send t e1 e2 sd rid rs a1 a2 i4 :
    reached_preview w stdin t e1 e2 sd rid rs (a1 :: a2 :: i4) ->
    answered_yes U a1 = true ->
    w_csv_error w = None ->
    forallb has_first_name rs = true ->
    answered_yes U a2 = false ->
    main_path w stdin
      (trace_to_preview e1 e2 sd rid rs
         (Input AskLooksCorrect a1
            :: trace_of_preparation sd rid rs (List.map dry_line rs)
                 [Print Rule; Print (ReadyToSend (length rs));
                  Input AskSendForReal a2; Print Cancelled]))
      (Ret tt)
| path_real_send t e1 e2 sd rid rs a1 a2 i4 :
    reached_preview w stdin t e1 e2 sd rid rs (a1 :: a2 :: i4) ->
    answered_yes U a1 = true ->
    w_csv_error w = None ->
    forallb has_first_name rs = true ->
    answered_yes U a2 = true ->
    main_path w stdin
      (trace_to_preview e1 e2 sd rid rs
         (Input AskLooksCorrect a1
            :: trace_of_preparation sd rid rs (List.map dry_line rs)
                 (Print Rule :: Print (ReadyToSend (length rs))
                    :: Input AskSendForReal a2 :: Print SendingHeading
                    :: fst (real_send_pass w t rs sd rid))))
      (Ret tt).

End Vocabulary.

(** ** Vocabulary of the further properties *)

(** A line with nothing but white space: [line.strip() == ""]. *)
Definition is_blank (line : pstr) : bool := is_empty (strip line).

Definition has_no_newline (line : pstr) : bool :=
  forallb (fun c => negb (N.eqb c newline)) line.

(** The events of the rejected answers [l] at the prompt [p], each with
    the complaint printed for it. *)
Definition rejections (p : prompt) (l : list (pstr * text)) : list event :=
  flat_map (fun xt => [Input p (fst xt); Print (snd xt)]) l.

(** The report identifier for a date and a chosen session number. *)
Definition report_id_of (session_date session_num : pstr) : pstr :=
  if pstr_eqb session_num (u "1") then session_date
  else session_date ++ session_num.

(** *** Templates as pieces *)

(** The three placeholders [personalize_email] replaces. *)
Inductive placeholder : Type :=
| PLAYER_NAME
| CASE_FILE_URL
| FEEDBACK_FORM_URL.

Definition placeholder_text (k : placeholder) : pstr :=
  match k with
  | PLAYER_NAME => u "{{PLAYER_NAME}}"
  | CASE_FILE_URL => u "{{CASE_FILE_URL}}"
  | FEEDBACK_FORM_URL => u "{{FEEDBACK_FORM_URL}}"
  end.

Definition placeholder_eqb (k k' : placeholder) : bool :=
  match k, k' with
  | PLAYER_NAME, PLAYER_NAME => true
  | CASE_FILE_URL, CASE_FILE_URL => true
  | FEEDBACK_FORM_URL, FEEDBACK_FORM_URL => true
  | _, _ => false
  end.

(** A template cut into literal text and placeholders. *)
Inductive piece : Type :=
| Lit (s : pstr)
| Hole (k : placeholder).

Definition piece_text (pc : piece) : pstr :=
  match pc with
  | Lit s => s
  | Hole k => placeholder_text k
  end.

(** The text of a template given by its pieces. *)
Definition render (pieces : list piece) : pstr :=
  concat (List.map piece_text pieces).

(** The pieces with the placeholder [k] replaced by the text [v]. *)
Definition fill (k : placeholder) (v : pstr) (pieces : list piece)
    : list piece :=
  List.map
    (fun pc =>
       match pc with
       | Hole k' => if placeholder_eqb k k' then Lit v else pc
       | Lit _ => pc
       end)
    pieces.

(** The text of the template with a value for each placeholder. *)
Definition fill_all (first case_url feedback : pstr) (pieces : list piece)
    : pstr :=
  concat
    (List.map
       (fun pc =>
          match pc with
          | Lit s => s
          | Hole PLAYER_NAME => first
          | Hole CASE_FILE_URL => case_url
          | Hole FEEDBACK_FORM_URL => feedback
          end)
       pieces).

Definition brace : codepoint := 123%N.

(** A text in which every opening brace is followed by a character that
    is not an opening brace: it has no [{{] and does not end with [{]. *)
Fixpoint lit_ok (s : pstr) : bool :=
  match s with
  | [] => true
  | c :: r =>
      (if N.eqb c brace
       then match r with
            | [] => false
            | c' :: _ => negb (N.eqb c' brace)
            end
       else true)
      && lit_ok r
  end.

Definition lits_ok (pieces : list piece) : bool :=
  forallb (fun pc => match pc with Lit s => lit_ok s | Hole _ => true end)
    pieces.

(** [demo_template] cut into its pieces. *)
Definition demo_pieces : list piece :=
  [Lit (u "Hi "); Hole PLAYER_NAME; Lit (u ": "); Hole CASE_FILE_URL;
   Lit (u " "); Hole FEEDBACK_FORM_URL].

(** *** More classes of events *)

Definition is_csv (e : event) : bool :=
  match e with CsvWritten _ _ _ => true | _ => false end.

(** The calls on the SMTP connection. *)
Definition is_smtp (e : event) : bool :=
  match e with
  | SmtpConnect | SmtpStartTls | SmtpLogin | SmtpSend _ _ | SmtpQuit => true
  | _ => false
  end.

Definition is_connect (e : event) : bool :=
  match e with SmtpConnect => true | _ => false end.

Definition is_quit (e : event) : bool :=
  match e with SmtpQuit => true | _ => false end.


(** The [To] headers of the messages handed to [send_message], in order. *)
Definition addressees (tr : list event) : list pstr :=
  flat_map
    (fun e =>
       match e with
       | SmtpSend m _ =>
           List.map snd
             (filter (fun h => pstr_eqb (fst h) (u "To")) (headers m))
       | _ => []
       end)
    tr.

(** The events of reading the lines [l] at the prompt [p]. *)
Definition inputs (p : prompt) (l : list pstr) : list event :=
  List.map (Input p) l.

(* ===================================================================== *)
(** * Part II: properties                                                 *)
(* ===================================================================== *)

Unset Implicit Arguments.

(** ** Strings *)

Lemma pstr_eqb_eq (a b : pstr) : pstr_eqb a b = true <-> a = b.
Proof.
  revert b; induction a as [|x a IH]; intros [|y b]; simpl;
    try (split; [discriminate | congruence]); try tauto.
  rewrite andb_true_iff, N.eqb_eq, IH. split.
  - intros [-> ->]; reflexivity.
  - intros E; inversion E; auto.
Qed.

Lemma pstr_eqb_refl (a : pstr) : pstr_eqb a a = true.
Proof. apply pstr_eqb_eq; reflexivity. Qed.

Lemma pstr_eqb_neq (a b : pstr) : pstr_eqb a b = false <-> a <> b.
Proof.
  rewrite <- pstr_eqb_eq. destruct (pstr_eqb a b); split; congruence.
Qed.

Lemma lstrip_head (s : pstr) c t : lstrip s = c :: t -> isspace c = false.
Proof.
  induction s as [|x s IH]; simpl; [discriminate|].
  destruct (isspace x) eqn:E; [exact IH|].
  intros H; inversion H; subst; exact E.
Qed.

Lemma lstrip_fixed (c : codepoint) (s : pstr) :
  isspace c = false -> lstrip (c :: s) = c :: s.
Proof. intros H; simpl; rewrite H; reflexivity. Qed.

Lemma rstrip_last (s t : pstr) c : rstrip s = t ++ [c] -> isspace c = false.
Proof.
  unfold rstrip; intros H.
  apply (f_equal (@rev _)) in H. rewrite rev_involutive, rev_app_distr in H.
  simpl in H. eapply lstrip_head; eassumption.
Qed.

(** The result of [strip] neither starts nor ends with white space. *)
Lemma strip_last (s t : pstr) c : strip s = t ++ [c] -> isspace c = false.
Proof. unfold strip; apply rstrip_last. Qed.

Lemma rstrip_snoc_fixed (s : pstr) c :
  isspace c = false -> rstrip (s ++ [c]) = s ++ [c].
Proof.
  intros H; unfold rstrip. rewrite rev_app_distr; simpl. rewrite H.
  simpl. rewrite rev_involutive; reflexivity.
Qed.

Lemma newline_isspace : isspace newline = true.
Proof. reflexivity. Qed.

Lemma strip_not_ends_with_newline (s : pstr) :
  ends_with_newline (strip s) = false.
Proof.
  unfold ends_with_newline.
  destruct (rev (strip s)) as [|c t] eqn:E; [reflexivity|].
  apply (f_equal (@rev _)) in E. rewrite rev_involutive in E; simpl in E.
  apply strip_last in E.
  destruct (N.eqb c newline) eqn:Ec; [|reflexivity].
  apply N.eqb_eq in Ec; subst c. rewrite newline_isspace in E; discriminate.
Qed.

Lemma re_match_anchored_strip (r : regex) (s : pstr) :
  re_match_anchored r (strip s) = accepts r (strip s).
Proof.
  unfold re_match_anchored. rewrite strip_not_ends_with_newline.
  simpl. apply orb_false_r.
Qed.

(** ** The derivative matcher decides the language of the expression *)

Lemma nullable_lang (r : regex) : nullable r = true <-> lang r [].
Proof.
  induction r; simpl.
  - split; [discriminate | intros H; inversion H].
  - split; [constructor | reflexivity].
  - split; [discriminate | intros H; inversion H].
  - rewrite andb_true_iff, IHr1, IHr2. split.
    + intros [H1 H2]. change (@nil codepoint) with (@nil codepoint ++ []).
      constructor; assumption.
    + intros H; inversion H; subst.
      match goal with
      | E : _ ++ _ = [] |- _ => apply app_eq_nil in E; destruct E; subst
      end.
      auto.
  - rewrite orb_true_iff, IHr1, IHr2. split.
    + intros [H|H]; [apply lang_alt_l | apply lang_alt_r]; assumption.
    + intros H; inversion H; subst; auto.
  - split; [constructor | reflexivity].
Qed.

Lemma lang_star_cons_inv (r : regex) c (s : pstr) :
  lang (Star r) (c :: s) ->
  exists s1 s2, s = s1 ++ s2 /\ lang r (c :: s1) /\ lang (Star r) s2.
Proof.
  intros H. remember (Star r) as r' eqn:Er. remember (c :: s) as w eqn:Ew.
  revert Er Ew.
  induction H as [| | | | | |r0 s1 s2 H1 _ H2 IH2]; intros Er Ew;
    try discriminate.
  inversion Er; subst r0.
  destruct s1 as [|x s1]; simpl in Ew.
  - apply IH2; auto.
  - inversion Ew; subst. exists s1, s2; auto.
Qed.

Lemma lang_seq_cons_inv (r1 r2 : regex) c (s : pstr) :
  lang (Seq r1 r2) (c :: s) ->
  (lang r1 [] /\ lang r2 (c :: s)) \/
  (exists s1 s2, s = s1 ++ s2 /\ lang r1 (c :: s1) /\ lang r2 s2).
Proof.
  intros H; inversion H as [| |? ? s1 s2 H1 H2 [E1 E2] E| | | |]; subst.
  destruct s1 as [|x s1]; simpl in E.
  - subst; left; auto.
  - inversion E; subst. right; exists s1, s2; auto.
Qed.

Lemma lang_seq_cons (r1 r2 : regex) c (s1 s2 : pstr) :
  lang r1 (c :: s1) -> lang r2 s2 -> lang (Seq r1 r2) (c :: s1 ++ s2).
Proof.
  intros H1 H2. change (c :: s1 ++ s2) with ((c :: s1) ++ s2).
  constructor; assumption.
Qed.

Lemma deriv_lang (r : regex) c (s : pstr) :
  lang (deriv c r) s <-> lang r (c :: s).
Proof.
  revert s; induction r; intros s; simpl.
  - split; intros H; inversion H.
  - split; intros H; inversion H.
  - destruct (p c) eqn:E; split; intros H; inversion H; subst.
    + constructor; assumption.
    + constructor.
    + congruence.
  - destruct (nullable r1) eqn:N1; split; intros H.
    + inversion H; subst.
      * match goal with
        | H1 : lang (Seq _ _) _ |- _ => inversion H1; subst
        end.
        apply lang_seq_cons; [apply IHr1|]; assumption.
      * change (c :: s) with ([] ++ c :: s).
        constructor; [apply nullable_lang | apply IHr2]; assumption.
    + apply lang_seq_cons_inv in H.
      destruct H as [[H1 H2] | (s1 & s2 & -> & H1 & H2)].
      * apply lang_alt_r, IHr2; assumption.
      * apply lang_alt_l. constructor; [apply IHr1|]; assumption.
    + inversion H; subst.
      apply lang_seq_cons; [apply IHr1|]; assumption.
    + apply lang_seq_cons_inv in H.
      destruct H as [[H1 H2] | (s1 & s2 & -> & H1 & H2)].
      * apply nullable_lang in H1; congruence.
      * constructor; [apply IHr1|]; assumption.
  - split; intros H; inversion H; subst.
    + apply lang_alt_l, IHr1; assumption.
    + apply lang_alt_r, IHr2; assumption.
    + apply lang_alt_l, IHr1; assumption.
    + apply lang_alt_r, IHr2; assumption.
  - split; intros H.
    + inversion H; subst.
      change (c :: s1 ++ s2) with ((c :: s1) ++ s2).
      constructor; [apply IHr|]; assumption.
    + apply lang_star_cons_inv in H. destruct H as (s1 & s2 & -> & H1 & H2).
      constructor; [apply IHr|]; assumption.
Qed.

Theorem accepts_lang (r : regex) (s : pstr) : accepts r s = true <-> lang r s.
Proof.
  revert r; induction s as [|c s IH]; intros r; simpl.
  - apply nullable_lang.
  - rewrite IH. apply deriv_lang.
Qed.

Lemma lang_class_inv (p : codepoint -> bool) (s : pstr) :
  lang (Class p) s -> exists c, s = [c] /\ p c = true.
Proof. intros H; inversion H; subst; eauto. Qed.

Lemma accepts_Exactly4 (p : codepoint -> bool) (s : pstr) :
  accepts (Exactly4 (Class p)) s = true <->
  exists c1 c2 c3 c4,
    s = [c1; c2; c3; c4] /\
    p c1 = true /\ p c2 = true /\ p c3 = true /\ p c4 = true.
Proof.
  rewrite accepts_lang. unfold Exactly4. split.
  - intros H.
    inversion H; subst; clear H.
    repeat match goal with
    | H : lang (Seq _ _) _ |- _ => inversion H; subst; clear H
    | H : lang (Class _) _ |- _ =>
        apply lang_class_inv in H; destruct H as (? & -> & ?)
    end.
    simpl; eauto 10.
  - intros (c1 & c2 & c3 & c4 & -> & H1 & H2 & H3 & H4).
    change [c1; c2; c3; c4] with ([c1] ++ [c2] ++ [c3] ++ [c4]).
    repeat constructor; assumption.
Qed.

(** ** Laws of the two monads *)

Lemma bindW_ret_l {A B} (a : A) (k : A -> W B) : bindW (retW a) k = k a.
Proof. unfold bindW, retW. destruct (k a); reflexivity. Qed.

Lemma bindW_nil_Ret {A B} (a : A) (k : A -> W B) : bindW ([], Ret a) k = k a.
Proof. apply bindW_ret_l. Qed.

Lemma bindW_Ret {A B} (evs : list event) (a : A) (k : A -> W B) :
  bindW (evs, Ret a) k = (evs ++ fst (k a), snd (k a)).
Proof. unfold bindW. destruct (k a); reflexivity. Qed.

Lemma bindW_Raise {A B} (evs : list event) e (k : A -> W B) :
  bindW (evs, Raise e) k = (evs, Raise e).
Proof. reflexivity. Qed.

Lemma bindW_emit {B} (e : event) (k : unit -> W B) :
  bindW (emit e) k = (e :: fst (k tt), snd (k tt)).
Proof. unfold emit. rewrite bindW_Ret. reflexivity. Qed.

Lemma bindW_say {B} (t : text) (k : unit -> W B) :
  bindW (say t) k = (Print t :: fst (k tt), snd (k tt)).
Proof. apply bindW_emit. Qed.

Lemma index_ok {X} (l : list X) (i : nat) (d : X) :
  i < length l -> index l i = retW (nth i l d).
Proof.
  intros H. unfold index. rewrite (nth_error_nth' l d H). reflexivity.
Qed.

(** ** White space at the ends *)

Lemma lstrip_app_space (ws s : pstr) :
  forallb isspace ws = true -> lstrip (ws ++ s) = lstrip s.
Proof.
  induction ws as [|c ws IH]; simpl; [reflexivity|].
  intros H. apply andb_true_iff in H. destruct H as [Hc Hws].
  rewrite Hc. auto.
Qed.

Lemma rstrip_app_space (s ws : pstr) :
  forallb isspace ws = true -> rstrip (s ++ ws) = rstrip s.
Proof.
  intros H. unfold rstrip. rewrite rev_app_distr.
  rewrite lstrip_app_space; [reflexivity|].
  rewrite forallb_forall in *. intros x Hx. apply H.
  apply in_rev. exact Hx.
Qed.

(** ** The lines of a pasted text

    The list comprehension of [parse_booking_data] strips the whole text
    before it splits it; this changes nothing: its result is the list of
    the non-empty stripped lines of the text. *)

Section Lines.

Lemma lstrip_decomp (s : pstr) :
  exists ws, forallb isspace ws = true /\ s = ws ++ lstrip s.
Proof.
  induction s as [|c s (ws & Hws & E)]; simpl.
  - exists []; auto.
  - destruct (isspace c) eqn:Ec.
    + exists (c :: ws). simpl. rewrite Ec, Hws. split; [reflexivity|].
      f_equal. exact E.
    + exists []. auto.
Qed.

Lemma rstrip_decomp (s : pstr) :
  exists ws, forallb isspace ws = true /\ s = rstrip s ++ ws.
Proof.
  destruct (lstrip_decomp (rev s)) as (ws & Hws & E).
  exists (rev ws). split.
  - rewrite forallb_forall in *. intros x Hx. apply Hws, in_rev, Hx.
  - unfold rstrip. rewrite <- rev_app_distr, <- E, rev_involutive.
    reflexivity.
Qed.

Lemma lstrip_snoc (l : pstr) (c : codepoint) :
  lstrip (l ++ [c])
  = match lstrip l with [] => lstrip [c] | _ => lstrip l ++ [c] end.
Proof.
  induction l as [|x l IH]; [reflexivity|].
  cbn [app lstrip]. destruct (isspace x); [exact IH | reflexivity].
Qed.

Lemma strip_snoc_space (l : pstr) (c : codepoint) :
  isspace c = true -> strip (l ++ [c]) = strip l.
Proof.
  intros Hc. unfold strip. rewrite lstrip_snoc.
  destruct (lstrip l) as [|y t] eqn:E.
  - simpl. rewrite Hc. reflexivity.
  - apply rstrip_app_space. simpl. rewrite Hc. reflexivity.
Qed.

Lemma strip_cons_space (l : pstr) (c : codepoint) :
  isspace c = true -> strip (c :: l) = strip l.
Proof. intros Hc. unfold strip. simpl. rewrite Hc. reflexivity. Qed.

Lemma split_on_decomp (sep : codepoint) (s : pstr) :
  exists init lst, split_on sep s = init ++ [lst].
Proof.
  induction s as [|c s (init & lst & E)]; simpl.
  - exists [], []. reflexivity.
  - destruct (N.eqb c sep).
    + exists ([] :: init), lst. rewrite E. reflexivity.
    + rewrite E. destruct init as [|w ws]; simpl.
      * exists [], (c :: lst). reflexivity.
      * exists ((c :: w) :: ws), lst. reflexivity.
Qed.

(** One more character at the end of the text: a separator opens a new,
    empty last line, any other character extends the last line. *)
Lemma split_on_snoc (sep c : codepoint) (s : pstr) : forall init lst,
  split_on sep s = init ++ [lst] ->
  split_on sep (s ++ [c])
  = if N.eqb c sep then init ++ [lst; []] else init ++ [lst ++ [c]].
Proof.
  induction s as [|x s IH]; intros init lst E; simpl in E |- *.
  - destruct init as [|w [|w' ws]]; simpl in E; inversion E; subst.
    destruct (N.eqb c sep); reflexivity.
  - destruct (split_on_decomp sep s) as (init' & lst' & E').
    specialize (IH init' lst' E'). rewrite E' in E.
    destruct (N.eqb x sep).
    + change ([] :: init' ++ [lst']) with (([] :: init') ++ [lst']) in E.
      apply app_inj_tail in E. destruct E as [<- <-].
      rewrite IH. destruct (N.eqb c sep); reflexivity.
    + rewrite IH. destruct init' as [|w ws]; simpl in E.
      * change [x :: lst'] with ([] ++ [x :: lst']) in E.
        apply app_inj_tail in E. destruct E as [<- <-].
        destruct (N.eqb c sep); reflexivity.
      * change ((x :: w) :: ws ++ [lst'])
          with (((x :: w) :: ws) ++ [lst']) in E.
        apply app_inj_tail in E. destruct E as [<- <-].
        destruct (N.eqb c sep); reflexivity.
Qed.

Lemma nonempty_stripped_lines_cons_space (c : codepoint) (s : pstr) :
  isspace c = true ->
  nonempty_stripped_lines (c :: s) = nonempty_stripped_lines s.
Proof.
  intros Hc. unfold nonempty_stripped_lines. cbn [split_on].
  destruct (N.eqb c newline).
  - reflexivity.
  - destruct (split_on_decomp newline s) as (init & lst & E). rewrite E.
    destruct init as [|w ws]; cbn [app List.map filter];
      rewrite (strip_cons_space _ c Hc); reflexivity.
Qed.

Lemma nonempty_stripped_lines_snoc_space (c : codepoint) (s : pstr) :
  isspace c = true ->
  nonempty_stripped_lines (s ++ [c]) = nonempty_stripped_lines s.
Proof.
  intros Hc. unfold nonempty_stripped_lines.
  destruct (split_on_decomp newline s) as (init & lst & E).
  rewrite (split_on_snoc newline c s init lst E), E.
  destruct (N.eqb c newline); rewrite !map_app, !filter_app.
  - reflexivity.
  - cbn [List.map filter]. rewrite (strip_snoc_space lst c Hc).
    reflexivity.
Qed.

Lemma nonempty_stripped_lines_prefix (ws s : pstr) :
  forallb isspace ws = true ->
  nonempty_stripped_lines (ws ++ s) = nonempty_stripped_lines s.
Proof.
  induction ws as [|c ws IH]; intros H; [reflexivity|].
  simpl in H. apply andb_true_iff in H. destruct H as [Hc Hws].
  cbn [app]. rewrite (nonempty_stripped_lines_cons_space c _ Hc). auto.
Qed.

Lemma nonempty_stripped_lines_suffix (ws : pstr) : forall s,
  forallb isspace ws = true ->
  nonempty_stripped_lines (s ++ ws) = nonempty_stripped_lines s.
Proof.
  induction ws as [|c ws IH]; intros s H.
  - rewrite app_nil_r. reflexivity.
  - simpl in H. apply andb_true_iff in H. destruct H as [Hc Hws].
    change (s ++ c :: ws) with (s ++ [c] ++ ws). rewrite app_assoc.
    rewrite (IH (s ++ [c]) Hws).
    apply nonempty_stripped_lines_snoc_space. exact Hc.
Qed.

Lemma nonempty_stripped_lines_strip (s : pstr) :
  nonempty_stripped_lines (strip s) = nonempty_stripped_lines s.
Proof.
  destruct (lstrip_decomp s) as (ws1 & H1 & E1).
  destruct (rstrip_decomp (lstrip s)) as (ws2 & H2 & E2).
  transitivity (nonempty_stripped_lines (lstrip s)).
  - unfold strip.
    rewrite <- (nonempty_stripped_lines_suffix ws2 (rstrip (lstrip s)) H2).
    rewrite <- E2. reflexivity.
  - rewrite <- (nonempty_stripped_lines_prefix ws1 (lstrip s) H1).
    rewrite <- E1. reflexivity.
Qed.

(** The [lines] of [parse_booking_data] are the non-empty stripped lines
    of the pasted text. *)
Lemma booking_lines_spec (raw_text : pstr) :
  booking_lines raw_text = nonempty_stripped_lines raw_text.
Proof.
  rewrite <- nonempty_stripped_lines_strip.
  unfold booking_lines, nonempty_stripped_lines.
  symmetry. apply filter_map_swap.
Qed.

End Lines.

(** ** [parse_booking_data] *)

Section Parsing.

Variable U : unicode_db.

Lemma even_length_mod (n : nat) : Nat.modulo (2 * n) 2 = 0.
Proof. rewrite Nat.mul_comm. apply Nat.Div0.mod_mul. Qed.

Lemma odd_length_mod (n : nat) : Nat.modulo (2 * n + 1) 2 = 1.
Proof.
  rewrite Nat.add_comm, Nat.mul_comm, Nat.Div0.mod_add. reflexivity.
Qed.

Lemma range_by_2_even (n : nat) :
  range_by_2 (2 * n) = List.map (fun k => 2 * k) (seq 0 n).
Proof. unfold range_by_2. rewrite Nat.div2_succ_double. reflexivity. Qed.

(** The loop of [parse_booking_data] from the pair [k] on. *)
Lemma parse_loop (lines : list pstr) (n : nat) :
  length lines = 2 * n ->
  forall m k acc, k + m = n ->
    for_each
      (fun recipients i =>
         (name <- index lines i ;;
          email <- index lines (i + 1) ;;
          (if negb (email_looks_valid email)
           then say (WarnEmail email) else retW tt) ;;
          retW (recipients ++
                  [{| name := str_title U name;
                      email := str_lower U email |}]))%W)
      (List.map (fun j => 2 * j) (seq k m)) acc
    = (flat_map (warning_of_pair lines) (seq k m),
       Ret (acc ++ List.map (recipient_of_pair U lines) (seq k m))).
Proof.
  intros Hlen m; induction m as [|m IH]; intros k acc Hk; simpl.
  - rewrite app_nil_r; reflexivity.
  - rewrite (index_ok lines _ []) by lia.
    rewrite bindW_ret_l.
    rewrite (index_ok lines _ []) by lia.
    rewrite bindW_ret_l.
    assert (Hbody :
      bindW (if negb (email_looks_valid (nth (k + (k + 0) + 1) lines []))
             then say (WarnEmail (nth (k + (k + 0) + 1) lines []))
             else retW tt)
        (fun _ => retW (acc ++ [recipient_of_pair U lines k]))
      = (warning_of_pair lines k, Ret (acc ++ [recipient_of_pair U lines k]))).
    { unfold warning_of_pair; simpl.
      destruct (email_looks_valid (nth (k + (k + 0) + 1) lines []));
        reflexivity. }
    unfold recipient_of_pair at 1 2 in Hbody; simpl in Hbody.
    rewrite Hbody, bindW_Ret, IH by lia. simpl.
    rewrite <- app_assoc. reflexivity.
Qed.

(** An even number of lines: one recipient per pair, in order, and one
    warning per email that does not look valid. *)
Lemma parse_booking_data_even (raw_text : pstr) (n : nat) :
  length (booking_lines raw_text) = 2 * n ->
  parse_booking_data U raw_text
  = (flat_map (warning_of_pair (booking_lines raw_text)) (seq 0 n),
     Ret (List.map (recipient_of_pair U (booking_lines raw_text)) (seq 0 n))).
Proof.
  intros H. unfold parse_booking_data.
  rewrite H, even_length_mod, range_by_2_even. simpl negb. cbv iota.
  rewrite (parse_loop (booking_lines raw_text) n H n 0 []) by lia.
  reflexivity.
Qed.

(** C1. If the pasted text has 2n non-empty stripped lines,
    [parse_booking_data] returns a list of exactly n recipients, in input
    order: the name of the i-th one is built (title-cased) from line 2i and
    its email (lower-cased) from line 2i+1. *)
Theorem parse_booking_data_pairs (raw_text : pstr) (n : nat) :
  length (nonempty_stripped_lines raw_text) = 2 * n ->
  exists recipients,
    snd (parse_booking_data U raw_text) = Ret recipients /\
    length recipients = n /\
    forall i, i < n ->
      nth_error recipients i =
        Some {| name :=
                  str_title U
                    (nth (2 * i) (nonempty_stripped_lines raw_text) []);
                email :=
                  str_lower U
                    (nth (2 * i + 1) (nonempty_stripped_lines raw_text) []) |}.
Proof.
  rewrite <- booking_lines_spec.
  intros H. rewrite (parse_booking_data_even raw_text n H).
  eexists; split; [reflexivity|]. split.
  - rewrite length_map, length_seq; reflexivity.
  - intros i Hi.
    rewrite nth_error_map, nth_error_seq.
    replace (i <? n) with true by (symmetry; apply Nat.ltb_lt; exact Hi).
    reflexivity.
Qed.

(** C2. If the number of non-empty stripped lines is odd,
    [parse_booking_data] raises ValueError, reporting that number, before
    anything is printed; no recipient list is returned. *)
Theorem parse_booking_data_odd (raw_text : pstr) (n : nat) :
  length (nonempty_stripped_lines raw_text) = 2 * n + 1 ->
  parse_booking_data U raw_text
  = ([], Raise (ValueError (OddLineCount (2 * n + 1)))).
Proof.
  rewrite <- booking_lines_spec.
  intros H. unfold parse_booking_data.
  rewrite H, odd_length_mod. reflexivity.
Qed.

(** C9. No name/email pair is rejected on account of the email: with an
    even number of lines every pair yields a recipient, whatever the
    validation regex says of its email; an email that fails the regex only
    adds a printed warning.  The email of each recipient is its line in
    lower case, the name its line in title case. *)
Theorem parse_booking_data_never_rejects_email (raw_text : pstr) (n : nat) :
  length (nonempty_stripped_lines raw_text) = 2 * n ->
  let lines := nonempty_stripped_lines raw_text in
  exists recipients,
    parse_booking_data U raw_text
    = (flat_map
         (fun i =>
            if email_looks_valid (nth (2 * i + 1) lines [])
            then []
            else [Print (WarnEmail (nth (2 * i + 1) lines []))])
         (seq 0 n),
       Ret recipients) /\
    length recipients = n /\
    forall i r, nth_error recipients i = Some r ->
      name r = str_title U (nth (2 * i) lines []) /\
      email r = str_lower U (nth (2 * i + 1) lines []).
Proof.
  rewrite <- booking_lines_spec.
  intros H lines. rewrite (parse_booking_data_even raw_text n H).
  eexists; split; [reflexivity|]. split.
  - rewrite length_map, length_seq; reflexivity.
  - intros i r Hr. rewrite nth_error_map, nth_error_seq in Hr.
    destruct (i <? n); simpl in Hr; [|discriminate].
    inversion Hr; subst r. split; reflexivity.
Qed.

End Parsing.

(** ** [get_session_info] *)

Section SessionInfo.

Variable U : unicode_db.

(** In the Unicode database no decimal digit is a white-space character. *)
Hypothesis decimal_not_space :
  forall c d, decimal_value U c = Some d -> isspace c = false.

Lemma strip_two_digits c1 c2 d1 d2 :
  decimal_value U c1 = Some d1 -> decimal_value U c2 = Some d2 ->
  strip [c1; c2] = [c1; c2].
Proof.
  intros H1 H2. apply decimal_not_space in H1, H2.
  unfold strip, rstrip; simpl. rewrite H1; simpl. rewrite H2; simpl.
  reflexivity.
Qed.

Lemma py_int_two_digits c1 c2 d1 d2 :
  decimal_value U c1 = Some d1 -> decimal_value U c2 = Some d2 ->
  py_int U [c1; c2] = retW (Z.of_N (10 * d1 + d2)).
Proof.
  intros H1 H2. unfold py_int.
  rewrite (strip_two_digits c1 c2 d1 d2 H1 H2). simpl.
  rewrite H1, H2. reflexivity.
Qed.

Lemma is_decimal_value c :
  is_decimal U c = true -> exists d, decimal_value U c = Some d.
Proof.
  unfold is_decimal. destruct (decimal_value U c); [eauto | discriminate].
Qed.

Lemma valid_mmdd_accepts (s : pstr) :
  valid_mmdd U s -> accepts (DATE_RE U) s = true.
Proof.
  intros (c1 & c2 & c3 & c4 & d1 & d2 & d3 & d4 & -> & H1 & H2 & H3 & H4 & _).
  apply accepts_Exactly4. exists c1, c2, c3, c4.
  unfold is_decimal. rewrite H1, H2, H3, H4. auto.
Qed.

(** One round of the first loop: a well-formed date leaves the loop, any
    other entry is answered by one of the three complaints and the loop
    goes on. *)
Lemma session_date_body_spec (answer : pstr) :
  (valid_mmdd U (strip answer) /\
   session_date_body U tt answer = ([], Ret (inr (strip answer)))) \/
  (~ valid_mmdd U (strip answer) /\
   exists t, In t [BadFormat; BadMonth; BadDay] /\
     session_date_body U tt answer = ([Print t], Ret (inl tt))).
Proof.
  unfold session_date_body. rewrite re_match_anchored_strip.
  destruct (accepts (DATE_RE U) (strip answer)) eqn:Eacc; simpl.
  2:{ right. split.
      - intros V. apply valid_mmdd_accepts in V. congruence.
      - exists BadFormat; simpl; auto. }
  apply accepts_Exactly4 in Eacc.
  destruct Eacc as (c1 & c2 & c3 & c4 & E & D1 & D2 & D3 & D4).
  apply is_decimal_value in D1, D2, D3, D4.
  destruct D1 as [d1 D1], D2 as [d2 D2], D3 as [d3 D3], D4 as [d4 D4].
  rewrite E. cbn [firstn skipn].
  rewrite (py_int_two_digits c1 c2 d1 d2 D1 D2), bindW_ret_l.
  destruct ((Z.of_N (10 * d1 + d2) <? 1)%Z || (Z.of_N (10 * d1 + d2) >? 12)%Z)
    eqn:Em.
  { right. split.
    - intros (a1 & a2 & a3 & a4 & b1 & b2 & b3 & b4 & Ea & B1 & B2 & B3 & B4
              & Hm & Hd).
      inversion Ea; subst a1 a2 a3 a4.
      rewrite D1 in B1; rewrite D2 in B2; inversion B1; inversion B2; subst.
      apply orb_true_iff in Em. destruct Em as [Em|Em].
      + apply Z.ltb_lt in Em. lia.
      + apply Z.gtb_lt in Em. lia.
    - exists BadMonth; simpl; auto. }
  rewrite (py_int_two_digits c3 c4 d3 d4 D3 D4), bindW_ret_l.
  destruct ((Z.of_N (10 * d3 + d4) <? 1)%Z || (Z.of_N (10 * d3 + d4) >? 31)%Z)
    eqn:Ed.
  { right. split.
    - intros (a1 & a2 & a3 & a4 & b1 & b2 & b3 & b4 & Ea & B1 & B2 & B3 & B4
              & Hm & Hd).
      inversion Ea; subst a1 a2 a3 a4.
      rewrite D3 in B3; rewrite D4 in B4; inversion B3; inversion B4; subst.
      apply orb_true_iff in Ed. destruct Ed as [Ed|Ed].
      + apply Z.ltb_lt in Ed. lia.
      + apply Z.gtb_lt in Ed. lia.
    - exists BadDay; simpl; auto. }
  left. split; [|reflexivity].
  apply orb_false_iff in Em, Ed. destruct Em as [Em1 Em2], Ed as [Ed1 Ed2].
  apply Z.ltb_ge in Em1, Ed1.
  rewrite Z.gtb_ltb in Em2, Ed2. apply Z.ltb_ge in Em2, Ed2.
  exists c1, c2, c3, c4, d1, d2, d3, d4.
  repeat split; try assumption; lia.
Qed.

Lemma session_date_loop_ret (i : list pstr) evs i' sd :
  input_loop AskDate (session_date_body U) tt i = Run evs i' (Ret sd) ->
  valid_mmdd U sd.
Proof.
  revert evs i'; induction i as [|x i IH]; intros evs i' H; simpl in H.
  - discriminate.
  - destruct (session_date_body_spec x) as [[V E] | [_ (t & _ & E)]];
      rewrite E in H.
    + inversion H; subst; exact V.
    + destruct (input_loop AskDate (session_date_body U) tt i)
        as [evs1 i1 r1] eqn:El.
      inversion H; subst. eapply IH; reflexivity.
Qed.

Lemma get_session_info_eq (i : list pstr) :
  get_session_info U i =
    match input_loop AskDate (session_date_body U) tt i with
    | Run e1 i1 (Raise ex) =>
        Run (Print (Heading (u "SESSION INFORMATION")) :: e1) i1 (Raise ex)
    | Run e1 i1 (Ret sd) =>
        match input_loop AskSessionNum session_num_body tt i1 with
        | Run e2 i2 (Raise ex) =>
            Run (Print (Heading (u "SESSION INFORMATION"))
                   :: e1 ++ Print (SessionMenu sd) :: e2) i2 (Raise ex)
        | Run e2 i2 (Ret num) =>
            let rid := if pstr_eqb num (u "1") then sd else sd ++ num in
            Run (Print (Heading (u "SESSION INFORMATION"))
                   :: e1 ++ Print (SessionMenu sd)
                   :: e2 ++ [Print (SessionSummary sd rid)]) i2 (Ret (sd, rid))
        end
    end.
Proof.
  unfold get_session_info, bindM, lift, retM, say, emit. cbn [fst snd].
  destruct (input_loop AskDate (session_date_body U) tt i) as [e1 i1 [sd|ex]];
    [|reflexivity].
  destruct (input_loop AskSessionNum session_num_body tt i1)
    as [e2 i2 [num|ex]]; cbn; reflexivity.
Qed.

(** A returned [session_date] is accepted by the format regex, whatever
    the digit table. *)
Lemma session_date_body_inr (answer : pstr) evs sd :
  session_date_body U tt answer = (evs, Ret (inr sd)) ->
  sd = strip answer /\ accepts (DATE_RE U) sd = true.
Proof.
  unfold session_date_body. rewrite re_match_anchored_strip.
  destruct (accepts (DATE_RE U) (strip answer)) eqn:Eacc; cbn [negb].
  2:{ cbv [bindW say emit retW]. intros H; inversion H. }
  destruct (py_int U (firstn 2 (strip answer))) as [em [month|ex]];
    [rewrite bindW_Ret | rewrite bindW_Raise; intros H; inversion H].
  destruct ((month <? 1)%Z || (month >? 12)%Z).
  { cbv [bindW say emit retW fst snd]. intros H; inversion H. }
  destruct (py_int U (skipn 2 (strip answer))) as [ed [day|ex]];
    [rewrite bindW_Ret | rewrite bindW_Raise; intros H; inversion H].
  destruct ((day <? 1)%Z || (day >? 31)%Z).
  { cbv [bindW say emit retW fst snd]. intros H; inversion H. }
  cbv [retW fst snd]. intros H; inversion H; subst. auto.
Qed.

Lemma session_date_loop_accepts (i : list pstr) evs i' sd :
  input_loop AskDate (session_date_body U) tt i = Run evs i' (Ret sd) ->
  accepts (DATE_RE U) sd = true.
Proof.
  revert evs i'; induction i as [|x i IH]; intros evs i' H; simpl in H.
  - discriminate.
  - destruct (session_date_body U tt x) as [ev [[[]|s]|ex]] eqn:Eb.
    + destruct (input_loop AskDate (session_date_body U) tt i)
        as [evs1 i1 r1] eqn:El.
      inversion H; subst. eapply IH; reflexivity.
    + inversion H; subst. apply session_date_body_inr in Eb. tauto.
    + discriminate.
Qed.

Lemma accepts_DATE_RE_length (sd : pstr) :
  accepts (DATE_RE U) sd = true -> length sd = 4.
Proof.
  intros H. apply accepts_Exactly4 in H.
  destruct H as (c1 & c2 & c3 & c4 & -> & _). reflexivity.
Qed.

Lemma session_num_body_spec (answer : pstr) :
  (In (chosen_session_num answer) [u "1"; u "2"; u "3"] /\
   session_num_body tt answer = ([], Ret (inr (chosen_session_num answer)))) \/
  (~ In (chosen_session_num answer) [u "1"; u "2"; u "3"] /\
   session_num_body tt answer = ([Print BadSessionNum], Ret (inl tt))).
Proof.
  unfold session_num_body. fold (chosen_session_num answer).
  destruct (existsb (pstr_eqb (chosen_session_num answer))
              [u "1"; u "2"; u "3"]) eqn:E.
  - left. split; [|reflexivity].
    apply existsb_exists in E. destruct E as (x & Hx & Ex).
    apply pstr_eqb_eq in Ex. rewrite Ex. exact Hx.
  - right. split; [|reflexivity].
    intros Hin.
    assert (existsb (pstr_eqb (chosen_session_num answer))
              [u "1"; u "2"; u "3"] = true) as E'.
    { apply existsb_exists. eexists; split; [exact Hin|].
      apply pstr_eqb_refl. }
    congruence.
Qed.

(** The second loop returns the session number chosen by the last answer
    it read. *)
Lemma session_num_loop_ret (i : list pstr) evs i' num :
  input_loop AskSessionNum session_num_body tt i = Run evs i' (Ret num) ->
  exists pre answer,
    evs = pre ++ [Input AskSessionNum answer] /\
    num = chosen_session_num answer /\
    In num [u "1"; u "2"; u "3"].
Proof.
  revert evs i'; induction i as [|x i IH]; intros evs i' H; simpl in H.
  - discriminate.
  - destruct (session_num_body_spec x) as [[Hin E] | [_ E]]; rewrite E in H.
    + inversion H; subst. exists [], x. auto.
    + destruct (input_loop AskSessionNum session_num_body tt i)
        as [evs1 i1 r1] eqn:El.
      inversion H; subst.
      destruct (IH _ _ eq_refl) as (pre & a & -> & Hn & Hin).
      exists (Input AskSessionNum x :: Print BadSessionNum :: pre), a.
      auto.
Qed.

(** C6. [get_session_info] returns a [session_date] only if it is a
    well-formed MMDD date (four digits, month 01-12, day 01-31); an entry
    that is one is accepted at once; an entry that is not is answered by a
    complaint, never returned, and the prompt is repeated on the rest of
    the input. *)
Theorem get_session_info_date_validation (stdin : list pstr) (x : pstr) :
  (forall evs rest' sd rid,
      get_session_info U stdin = Run evs rest' (Ret (sd, rid)) ->
      valid_mmdd U sd) /\
  (valid_mmdd U (strip x) ->
   (exists evs',
       out (get_session_info U (x :: stdin))
       = [Print (Heading (u "SESSION INFORMATION")); Input AskDate x;
          Print (SessionMenu (strip x))] ++ evs') /\
   (forall sd rid,
       res (get_session_info U (x :: stdin)) = Ret (sd, rid) ->
       sd = strip x)) /\
  (~ valid_mmdd U (strip x) ->
   exists t, In t [BadFormat; BadMonth; BadDay] /\
     get_session_info U (x :: stdin)
     = Run (Print (Heading (u "SESSION INFORMATION"))
              :: Input AskDate x :: Print t
              :: tl (out (get_session_info U stdin)))
         (rest (get_session_info U stdin))
         (res (get_session_info U stdin))).
Proof.
  split; [|split].
  - intros evs rest' sd rid H. rewrite get_session_info_eq in H.
    destruct (input_loop AskDate (session_date_body U) tt stdin)
      as [e1 i1 [sd'|ex]] eqn:E1; [|discriminate].
    destruct (input_loop AskSessionNum session_num_body tt i1)
      as [e2 i2 [num|ex]]; [|discriminate].
    inversion H; subst. eapply session_date_loop_ret; exact E1.
  - intros V. rewrite get_session_info_eq. simpl input_loop.
    destruct (session_date_body_spec x) as [[_ E] | [NV _]];
      [|contradiction].
    rewrite E.
    destruct (input_loop AskSessionNum session_num_body tt stdin)
      as [e2 i2 [num|ex]]; simpl; split;
      try (eexists; reflexivity);
      intros sd rid H; inversion H; reflexivity.
  - intros NV. rewrite !get_session_info_eq. simpl input_loop.
    destruct (session_date_body_spec x) as [[V _] | [_ (t & Ht & E)]];
      [contradiction|].
    exists t; split; [exact Ht|]. rewrite E.
    destruct (input_loop AskDate (session_date_body U) tt stdin)
      as [e1 i1 [sd'|ex]]; [|reflexivity].
    destruct (input_loop AskSessionNum session_num_body tt i1)
      as [e2 i2 [num|ex]]; reflexivity.
Qed.

(** C10. The returned [report_id] is the [session_date] exactly when
    session number 1 was chosen, and the [session_date] followed by the
    chosen number (2 or 3) otherwise; so it begins with the four characters
    of the [session_date] and has length 4 or 5. *)
Theorem get_session_info_report_id (stdin : list pstr) evs rest' sd rid :
  get_session_info U stdin = Run evs rest' (Ret (sd, rid)) ->
  exists pre answer,
    evs = pre ++ [Input AskSessionNum answer; Print (SessionSummary sd rid)] /\
    let num := chosen_session_num answer in
    In num [u "1"; u "2"; u "3"] /\
    (num = u "1" -> rid = sd) /\
    (num <> u "1" -> rid = sd ++ num) /\
    (rid = sd <-> num = u "1") /\
    length sd = 4 /\ firstn 4 rid = sd /\
    (length rid = 4 \/ length rid = 5).
Proof.
  intros H. rewrite get_session_info_eq in H.
  destruct (input_loop AskDate (session_date_body U) tt stdin)
    as [e1 i1 [sd'|ex]] eqn:E1; [|discriminate].
  destruct (input_loop AskSessionNum session_num_body tt i1)
    as [e2 i2 [num|ex]] eqn:E2; [|discriminate].
  cbv zeta in H. inversion H; subst sd' i2 rid evs; clear H.
  apply session_date_loop_accepts, accepts_DATE_RE_length in E1.
  apply session_num_loop_ret in E2.
  destruct E2 as (pre & answer & -> & Hnum & Hin).
  exists (Print (Heading (u "SESSION INFORMATION"))
            :: e1 ++ Print (SessionMenu sd) :: pre), answer.
  split.
  { simpl. rewrite <- !app_assoc. reflexivity. }
  cbv zeta. rewrite <- Hnum.
  assert (Hlen : length num = 1).
  { simpl in Hin. destruct Hin as [<-|[<-|[<-|[]]]]; reflexivity. }
  split; [exact Hin|].
  destruct (pstr_eqb num (u "1")) eqn:Eq.
  - apply pstr_eqb_eq in Eq.
    repeat split; auto; try congruence.
    rewrite <- E1. apply firstn_all.
  - apply pstr_eqb_neq in Eq.
    repeat split; auto; try congruence.
    + intros Hs. apply (f_equal (@length _)) in Hs.
      rewrite length_app in Hs. lia.
    + rewrite <- E1. rewrite firstn_app, firstn_all, Nat.sub_diag.
      simpl. apply app_nil_r.
    + right. rewrite length_app. lia.
Qed.

End SessionInfo.

(** ** Messages *)

Section Messages.

(** White space around a text that neither starts nor ends with white
    space is what [strip] removes. *)
Lemma strip_padded (ws1 ws2 p p1 p2 : pstr) (c d : codepoint) :
  forallb isspace ws1 = true -> forallb isspace ws2 = true ->
  p = c :: p1 -> isspace c = false ->
  p = p2 ++ [d] -> isspace d = false ->
  strip (ws1 ++ p ++ ws2) = p.
Proof.
  intros H1 H2 Hc Ec Hd Ed. unfold strip.
  rewrite (lstrip_app_space ws1) by exact H1.
  assert (L : lstrip (p ++ ws2) = p ++ ws2).
  { rewrite Hc. rewrite <- app_comm_cons. apply lstrip_fixed. exact Ec. }
  rewrite L, rstrip_app_space by exact H2.
  rewrite Hd. apply rstrip_snoc_fixed. exact Ed.
Qed.

(** [.strip()] removes the first line break and the last line break and
    indentation of the f-string, and nothing else. *)
Lemma strip_text_content (first : pstr) :
  strip (text_content first) = plain_text first.
Proof.
  pose (T := skipn 4 (plain_text [])).
  assert (Hp : plain_text first = u "Hey " ++ first ++ T) by reflexivity.
  assert (HT : T = removelast T ++ [115%N]) by (vm_compute; reflexivity).
  assert (Ht : text_content first = nl ++ plain_text first ++ nl ++ u "    ").
  { unfold text_content, plain_text. repeat rewrite <- app_assoc.
    reflexivity. }
  rewrite Ht.
  apply strip_padded
    with (p1 := u "ey " ++ first ++ T) (c := 72%N)
         (p2 := u "Hey " ++ first ++ removelast T) (d := 115%N);
    try reflexivity.
  rewrite Hp. rewrite HT at 1. rewrite <- !app_assoc. reflexivity.
Qed.

Lemma first_name_ok (r : recipient) :
  has_first_name r = true -> first_name r = retW (first_name_of r).
Proof.
  unfold has_first_name, first_name, first_name_of, index.
  destruct (split_ws (name r)); simpl; [discriminate | reflexivity].
Qed.

Lemma first_name_fail (r : recipient) :
  has_first_name r = false -> first_name r = raiseW IndexError.
Proof.
  unfold has_first_name, first_name, index.
  destruct (split_ws (name r)); simpl; [reflexivity | discriminate].
Qed.

Lemma personalize_email_ok (template : pstr) (r : recipient) sd rid :
  has_first_name r = true ->
  personalize_email template r sd rid = ([], Ret (html_for template sd rid r)).
Proof.
  intros H. unfold personalize_email.
  rewrite (first_name_ok r H), bindW_ret_l. reflexivity.
Qed.

Lemma personalize_email_fail (template : pstr) (r : recipient) sd rid :
  has_first_name r = false ->
  personalize_email template r sd rid = ([], Raise IndexError).
Proof.
  intros H. unfold personalize_email.
  rewrite (first_name_fail r H). reflexivity.
Qed.

Lemma create_email_message_ok (r : recipient) (html_content : pstr) :
  has_first_name r = true ->
  create_email_message r html_content = ([], Ret (message_with r html_content)).
Proof.
  intros H. unfold create_email_message.
  rewrite (first_name_ok r H), bindW_ret_l. reflexivity.
Qed.

(** The first token of [split_ws] is the first maximal run of characters
    that are not white space. *)
Lemma split_ws_from_token (s : pstr) : forall cur first others,
  cur <> [] ->
  split_ws_from cur s = first :: others ->
  exists tok post,
    s = tok ++ post /\ first = rev cur ++ tok /\
    forallb (fun c => negb (isspace c)) tok = true /\
    (post = [] \/ exists c p, post = c :: p /\ isspace c = true).
Proof.
  induction s as [|c s IH]; intros cur first others Hc H;
    cbn [split_ws_from] in H.
  - destruct cur as [|c0 cur]; [congruence|]. inversion H; subst.
    exists [], []. rewrite !app_nil_r. repeat split; auto.
  - destruct (isspace c) eqn:Ec.
    + destruct cur as [|c0 cur]; [congruence|]. inversion H; subst.
      exists [], (c :: s). rewrite !app_nil_r. repeat split; eauto.
    + apply IH in H; [|discriminate].
      destruct H as (tok & post & -> & -> & Ht & Hp).
      exists (c :: tok), post. cbn [forallb rev app]. rewrite Ec, Ht.
      rewrite <- app_assoc. repeat split; auto.
Qed.

Lemma split_ws_first_token (s first : pstr) (others : list pstr) :
  split_ws s = first :: others ->
  exists ws post,
    s = ws ++ first ++ post /\
    forallb isspace ws = true /\
    first <> [] /\
    forallb (fun c => negb (isspace c)) first = true /\
    (post = [] \/ exists c p, post = c :: p /\ isspace c = true).
Proof.
  unfold split_ws. revert first others.
  induction s as [|c s IH]; intros first others H; simpl in H.
  - discriminate.
  - destruct (isspace c) eqn:Ec.
    + apply IH in H. destruct H as (ws & post & -> & Hws & Hne & Hf & Hp).
      exists (c :: ws), post. simpl. rewrite Ec, Hws. auto.
    + apply split_ws_from_token in H; [|discriminate].
      destruct H as (tok & post & -> & -> & Ht & Hp).
      exists [], post. simpl. rewrite Ec, Ht. repeat split; auto.
      discriminate.
Qed.

(** C7. For a recipient whose name has a first white-space-separated
    token, the message created is multipart/alternative with a plain-text
    part followed by an HTML part; the HTML part is the template with
    [{{PLAYER_NAME}}] replaced by that token, then [{{CASE_FILE_URL}}] by
    CASE_FILE_BASE + 'report' + report_id + '.html', then
    [{{FEEDBACK_FORM_URL}}] by FEEDBACK_BASE + '?date=' + session_date. *)
Theorem personalized_message (template : pstr) (r : recipient)
    (session_date report_id first : pstr) (others : list pstr) :
  split_ws (name r) = first :: others ->
  exists html msg,
    personalize_email template r session_date report_id = ([], Ret html) /\
    create_email_message r html = ([], Ret msg) /\
    html
    = replace (u "{{FEEDBACK_FORM_URL}}")
        (FEEDBACK_BASE ++ u "?date=" ++ session_date)
        (replace (u "{{CASE_FILE_URL}}")
           (CASE_FILE_BASE ++ u "report" ++ report_id ++ u ".html")
           (replace (u "{{PLAYER_NAME}}") first template)) /\
    multipart_subtype msg = u "alternative" /\
    parts msg
    = [ {| content_subtype := u "plain"; charset := u "utf-8";
           payload := plain_text first |};
        {| content_subtype := u "html"; charset := u "utf-8";
           payload := html |} ] /\
    (exists ws post,
        name r = ws ++ first ++ post /\
        forallb isspace ws = true /\
        first <> [] /\
        forallb (fun c => negb (isspace c)) first = true /\
        (post = [] \/ exists c p, post = c :: p /\ isspace c = true)).
Proof.
  intros Hsplit.
  assert (Hf : has_first_name r = true).
  { unfold has_first_name. rewrite Hsplit. reflexivity. }
  assert (Hn : first_name_of r = first).
  { unfold first_name_of. rewrite Hsplit. reflexivity. }
  exists (html_for template session_date report_id r).
  exists (message_for template session_date report_id r).
  split; [apply personalize_email_ok; exact Hf|].
  split; [apply create_email_message_ok; exact Hf|].
  split; [unfold html_for; rewrite Hn; reflexivity|].
  split; [reflexivity|].
  split.
  - unfold message_for, message_with. cbn [parts].
    rewrite strip_text_content, Hn. reflexivity.
  - apply split_ws_first_token with (others := others). exact Hsplit.
Qed.

End Messages.

(** ** The building blocks of [main] *)

Section Blocks.

Variable U : unicode_db.

Lemma input_loop_Forall {St A} (P : event -> Prop) (p : prompt)
    (body : St -> pstr -> W (St + A)) :
  (forall x, P (Input p x)) -> P (InputEOF p) ->
  (forall st x, Forall P (fst (body st x))) ->
  forall i st, Forall P (out (input_loop p body st i)).
Proof.
  intros Hin Heof Hbody. induction i as [|x i IH]; intros st; simpl.
  - auto.
  - specialize (Hbody st x).
    destruct (body st x) as [evs [[st'|a]|ex]]; simpl in *.
    + specialize (IH st').
      destruct (input_loop p body st' i) as [evs' i'' r]; simpl in *.
      constructor; [apply Hin|]. apply Forall_app; auto.
    + constructor; auto.
    + constructor; auto.
Qed.

Lemma session_date_body_events (answer : pstr) :
  Forall (fun e => is_session_event e = true)
    (fst (session_date_body U tt answer)).
Proof.
  unfold session_date_body.
  destruct (negb (re_match_anchored (DATE_RE U) (strip answer))).
  { cbn; repeat constructor. }
  unfold py_int.
  destruct (strip (firstn 2 (strip answer))) as [|c1 t1]; [cbn; repeat constructor|].
  destruct (digits_value U 0 (c1 :: t1)) as [v1|]; [|cbn; repeat constructor].
  rewrite bindW_ret_l.
  destruct ((Z.of_N v1 <? 1)%Z || (Z.of_N v1 >? 12)%Z).
  { cbn; repeat constructor. }
  destruct (strip (skipn 2 (strip answer))) as [|c2 t2]; [cbn; repeat constructor|].
  destruct (digits_value U 0 (c2 :: t2)) as [v2|]; [|cbn; repeat constructor].
  rewrite bindW_ret_l.
  destruct ((Z.of_N v2 <? 1)%Z || (Z.of_N v2 >? 31)%Z).
  { cbn; repeat constructor. }
  cbn; repeat constructor.
Qed.

Lemma session_num_body_events (answer : pstr) :
  Forall (fun e => is_session_event e = true)
    (fst (session_num_body tt answer)).
Proof.
  unfold session_num_body.
  destruct (existsb _ _); cbn; repeat constructor.
Qed.

Lemma get_session_info_events (i : list pstr) :
  Forall (fun e => is_session_event e = true) (out (get_session_info U i)).
Proof.
  rewrite get_session_info_eq.
  pose proof (input_loop_Forall (fun e => is_session_event e = true) AskDate
                (session_date_body U) (fun _ => eq_refl) eq_refl
                (fun st x => match st with tt => session_date_body_events x end)
                i tt) as H1.
  destruct (input_loop AskDate (session_date_body U) tt i)
    as [e1 i1 [sd|ex]]; simpl in H1.
  2:{ simpl. constructor; auto. }
  pose proof (input_loop_Forall (fun e => is_session_event e = true)
                AskSessionNum session_num_body (fun _ => eq_refl) eq_refl
                (fun st x => match st with tt => session_num_body_events x end)
                i1 tt) as H2.
  destruct (input_loop AskSessionNum session_num_body tt i1)
    as [e2 i2 [num|ex]]; simpl in H2; simpl.
  - constructor; [reflexivity|]. apply Forall_app; split; [exact H1|].
    constructor; [reflexivity|]. apply Forall_app; split; [exact H2|].
    constructor; [reflexivity|constructor].
  - constructor; [reflexivity|]. apply Forall_app; split; [exact H1|].
    constructor; [reflexivity|exact H2].
Qed.

(** *** [get_booking_data] *)

Lemma parse_booking_data_cases (raw_text : pstr) :
  (exists n,
      length (booking_lines raw_text) = 2 * n /\
      parse_booking_data U raw_text
      = (flat_map (warning_of_pair (booking_lines raw_text)) (seq 0 n),
         Ret (List.map (recipient_of_pair U (booking_lines raw_text))
                (seq 0 n)))) \/
  parse_booking_data U raw_text
  = ([], Raise (ValueError (OddLineCount (length (booking_lines raw_text))))).
Proof.
  destruct (Nat.eqb (Nat.modulo (length (booking_lines raw_text)) 2) 0) eqn:E.
  - left. apply Nat.eqb_eq in E. apply Nat.Div0.div_exact in E.
    eexists; split; [exact E|]. apply parse_booking_data_even. exact E.
  - right. unfold parse_booking_data. rewrite E. reflexivity.
Qed.

Lemma warning_of_pair_events (lines : list pstr) (l : list nat) :
  Forall (fun e => is_paste_event e = true)
    (flat_map (warning_of_pair lines) l).
Proof.
  induction l as [|i l IH]; simpl; [constructor|].
  apply Forall_app; split; [|exact IH].
  unfold warning_of_pair. destruct (email_looks_valid _); auto.
Qed.

Lemma get_booking_data_eq (i : list pstr) :
  get_booking_data U i =
    match input_loop PasteLine paste_body [] i with
    | Run e1 i1 (Raise ex) => Run (Print PasteInstructions :: e1) i1 (Raise ex)
    | Run e1 i1 (Ret lines) =>
        match parse_booking_data U (join [newline] lines) with
        | (evs, Ret rs) =>
            Run (Print PasteInstructions
                   :: e1 ++ evs ++ [Print (Parsed (length rs))]) i1 (Ret rs)
        | (evs, Raise (ValueError v)) =>
            Run (Print PasteInstructions :: e1 ++ evs ++ [Print (ParseError v)])
              i1 (Ret [])
        | (evs, Raise ex) => Run (Print PasteInstructions :: e1 ++ evs) i1 (Raise ex)
        end
    end.
Proof.
  unfold get_booking_data, bindM, lift, say, emit. cbn [fst snd].
  destruct (input_loop PasteLine paste_body [] i) as [e1 i1 [lines|ex]];
    [|reflexivity].
  destruct (parse_booking_data U (join [newline] lines)) as [evs [rs|ex]].
  - cbn. reflexivity.
  - destruct ex; cbn; reflexivity.
Qed.

Lemma paste_body_events (lines : list pstr) (line : pstr) :
  fst (paste_body lines line) = [].
Proof.
  unfold paste_body.
  destruct (is_empty (strip line) && negb (is_empty lines));
    [reflexivity|].
  destruct (negb (is_empty (strip line))); reflexivity.
Qed.

Lemma paste_loop_events (i : list pstr) :
  Forall (fun e => is_paste_input e = true)
    (out (input_loop PasteLine paste_body [] i)).
Proof.
  apply input_loop_Forall; try reflexivity.
  intros st x. rewrite paste_body_events. constructor.
Qed.

Lemma paste_input_paste_event (l : list event) :
  Forall (fun e => is_paste_input e = true) l ->
  Forall (fun e => is_paste_event e = true) l.
Proof.
  apply Forall_impl. intros [ | [] | [] | | | | | | | | ]; simpl; congruence.
Qed.

(** What [get_booking_data] does is decided by the parse of the pasted
    lines: recipients, or the diagnostic of the odd line count as the last
    event and an empty list. *)
Lemma get_booking_data_cases (i : list pstr) :
  let r := get_booking_data U i in
  Forall (fun e => is_paste_event e = true) (out r) /\
  ((forall v, ~ In (Print (ParseError v)) (out r)) \/
   (exists pre v,
       out r = pre ++ [Print (ParseError v)] /\ res r = Ret [] /\
       forall v', ~ In (Print (ParseError v')) pre)).
Proof.
  cbv zeta. rewrite get_booking_data_eq.
  pose proof (paste_loop_events i) as H1.
  destruct (input_loop PasteLine paste_body [] i) as [e1 i1 [lines|ex]];
    simpl in H1.
  2:{ simpl. split.
      - constructor; [reflexivity|]. apply paste_input_paste_event, H1.
      - left. intros v [H|H]; [discriminate|].
        rewrite Forall_forall in H1. apply H1 in H. discriminate. }
  assert (N1 : forall v, ~ In (Print (ParseError v)) e1).
  { intros v H. rewrite Forall_forall in H1. apply H1 in H. discriminate. }
  apply paste_input_paste_event in H1.
  destruct (parse_booking_data_cases (join [newline] lines))
    as [(n & _ & E) | E]; rewrite E; simpl.
  - assert (N2 : forall v,
               ~ In (Print (ParseError v))
                   (flat_map
                      (warning_of_pair (booking_lines (join [newline] lines)))
                      (seq 0 n))).
    { intros v H. apply in_flat_map in H. destruct H as (k & _ & H).
      unfold warning_of_pair in H. destruct (email_looks_valid _) in H;
        simpl in H; [contradiction|]. destruct H as [H|[]]. discriminate. }
    split.
    + constructor; [reflexivity|]. apply Forall_app; split; [exact H1|].
      apply Forall_app; split; [apply warning_of_pair_events|].
      constructor; [reflexivity|constructor].
    + left. intros v [H|H]; [discriminate|].
      rewrite !in_app_iff in H. destruct H as [H|[H|[H|[]]]].
      * exact (N1 v H).
      * exact (N2 v H).
      * discriminate.
  - split.
    + constructor; [reflexivity|]. apply Forall_app; split; [exact H1|].
      constructor; [reflexivity|constructor].
    + right. exists (Print PasteInstructions :: e1).
      eexists. split; [reflexivity|]. split; [reflexivity|].
      intros v' [H|H]; [discriminate | exact (N1 v' H)].
Qed.

End Blocks.

(** ** The dry run and the real send *)

Section Passes.

Lemma send_email_dry (r : recipient) (msg : message)
    (server : option (message -> option pstr)) :
  send_email r msg server true = ([dry_line r], Ret true).
Proof. reflexivity. Qed.

(** [send_email] never raises: a failing [send_message] is reported on
    the console and answered by [False]. *)
Lemma send_email_real (r : recipient) (msg : message)
    (send_message : message -> option pstr) :
  send_email r msg (Some send_message) false
  = match send_message msg with
    | None => ([SmtpSend msg true; Print (SentLine (name r) (email r))],
               Ret true)
    | Some e => ([SmtpSend msg false; Print (FailedLine (email r) e)],
                 Ret false)
    end.
Proof.
  unfold send_email. destruct (send_message msg); reflexivity.
Qed.

Lemma dry_run_body_ok (template sd rid : pstr) (r : recipient) :
  has_first_name r = true ->
  (personalized <- personalize_email template r sd rid ;;
   msg <- create_email_message r personalized ;;
   _ <- send_email r msg None true ;;
   retW tt)%W
  = ([dry_line r], Ret tt).
Proof.
  intros H.
  rewrite (personalize_email_ok template r sd rid H), bindW_nil_Ret.
  rewrite (create_email_message_ok r _ H), bindW_nil_Ret.
  reflexivity.
Qed.

Lemma dry_run_body_fail (template sd rid : pstr) (r : recipient) :
  has_first_name r = false ->
  (personalized <- personalize_email template r sd rid ;;
   msg <- create_email_message r personalized ;;
   _ <- send_email r msg None true ;;
   retW tt)%W
  = ([], Raise IndexError).
Proof.
  intros H. rewrite (personalize_email_fail template r sd rid H).
  reflexivity.
Qed.

(** The dry run prints one line per recipient, in order, and completes
    exactly when every name has a first token; otherwise it stops with
    IndexError at the first name that has none. *)
Lemma dry_run_pass_spec (template sd rid : pstr) (rs : list recipient) :
  (forallb has_first_name rs = true /\
   dry_run_pass template rs sd rid = (List.map dry_line rs, Ret tt)) \/
  (forallb has_first_name rs = false /\
   exists k,
     dry_run_pass template rs sd rid
     = (List.map dry_line (firstn k rs), Raise IndexError)).
Proof.
  unfold dry_run_pass. induction rs as [|r rs IH].
  - left; split; reflexivity.
  - cbn [for_each forallb]. cbn beta.
    destruct (has_first_name r) eqn:Hr.
    + rewrite (dry_run_body_ok template sd rid r Hr), bindW_Ret.
      destruct IH as [[Hall E] | [Hall (k & E)]]; rewrite E.
      * left; split; [exact Hall | reflexivity].
      * right; split; [exact Hall|]. exists (S k). reflexivity.
    + rewrite (dry_run_body_fail template sd rid r Hr).
      right; split; [reflexivity|]. exists 0. reflexivity.
Qed.

Lemma send_body_ok (w : world) (template sd rid : pstr) (total acc i : nat)
    (r : recipient) :
  has_first_name r = true ->
  send_body w template sd rid total acc (i, r)
  = (send_events w template sd rid total (i, r),
     Ret (if send_succeeds w template sd rid (i, r) then acc + 1 else acc)).
Proof.
  intros H. unfold send_body, send_events, send_succeeds.
  rewrite bindW_say.
  rewrite (personalize_email_ok template r sd rid H), bindW_nil_Ret.
  rewrite (create_email_message_ok r _ H), bindW_nil_Ret.
  rewrite send_email_real. fold (message_for template sd rid r).
  cbn [fst snd].
  destruct (w_send w i (message_for template sd rid r));
    destruct (Nat.ltb i total); reflexivity.
Qed.

(** The loop of the real send goes through every recipient, whatever the
    outcome of the sends before, and counts the successful ones. *)
Lemma send_loop_spec (w : world) (template sd rid : pstr) (total : nat)
    (l : list (nat * recipient)) : forall acc,
  forallb has_first_name (List.map snd l) = true ->
  for_each_keep (send_body w template sd rid total) l acc
  = (flat_map (send_events w template sd rid total) l,
     acc + length (filter (send_succeeds w template sd rid) l),
     Ret tt).
Proof.
  induction l as [|[i r] l IH]; intros acc H.
  - cbn. rewrite Nat.add_0_r. reflexivity.
  - cbn [List.map forallb snd] in H.
    apply andb_true_iff in H. destruct H as [Hr Hl].
    cbn [for_each_keep flat_map filter].
    rewrite (send_body_ok w template sd rid total acc i r Hr).
    rewrite (IH _ Hl).
    destruct (send_succeeds w template sd rid (i, r)); cbn [length];
      [|reflexivity].
    do 2 f_equal. lia.
Qed.

Lemma map_snd_combine {X Y} (l1 : list X) (l2 : list Y) :
  length l1 = length l2 -> List.map snd (combine l1 l2) = l2.
Proof.
  revert l2; induction l1 as [|x l1 IH]; intros [|y l2] H; simpl in *;
    try discriminate; auto.
  f_equal. apply IH. lia.
Qed.

Lemma map_snd_enumerate1 {X} (l : list X) : List.map snd (enumerate1 l) = l.
Proof. apply map_snd_combine. apply length_seq. Qed.

Lemma length_enumerate1 {X} (l : list X) : length (enumerate1 l) = length l.
Proof.
  unfold enumerate1. rewrite length_combine, length_seq. apply Nat.min_id.
Qed.

(** With the session set up and every name having a first token, the real
    send attempts one send per recipient and ends with the summary. *)
Lemma real_send_pass_ok (w : world) (template sd rid : pstr)
    (rs : list recipient) :
  w_smtp w = SessionOk ->
  forallb has_first_name rs = true ->
  real_send_pass w template rs sd rid
  = ([SmtpConnect; SmtpStartTls; Print Authenticating; SmtpLogin;
      Print Connected]
     ++ flat_map (send_events w template sd rid (length rs)) (enumerate1 rs)
     ++ [SmtpQuit;
         Print (Summary
                  (length (filter (send_succeeds w template sd rid)
                             (enumerate1 rs)))
                  (length rs))],
     Ret tt).
Proof.
  intros Hs Hn. unfold real_send_pass. rewrite Hs.
  rewrite send_loop_spec by (rewrite map_snd_enumerate1; exact Hn).
  cbn [Nat.add]. rewrite <- !app_assoc. reflexivity.
Qed.

(** When the session cannot be set up nothing is sent; the failure is
    reported and [main] goes on to its end. *)
Lemma real_send_pass_no_session (w : world) (template sd rid : pstr)
    (rs : list recipient) :
  w_smtp w <> SessionOk ->
  Forall (fun e => is_setup_event e = true)
    (fst (real_send_pass w template rs sd rid)) /\
  snd (real_send_pass w template rs sd rid) = Ret tt.
Proof.
  intros H. unfold real_send_pass.
  destruct (w_smtp w); try congruence; cbn; split;
    try reflexivity; repeat constructor.
Qed.

End Passes.

(** ** [main] *)

Section Main.

Variable U : unicode_db.

Lemma real_send_pass_returns (w : world) (template sd rid : pstr)
    (rs : list recipient) :
  snd (real_send_pass w template rs sd rid) = Ret tt.
Proof.
  unfold real_send_pass.
  destruct (w_smtp w); try reflexivity.
  destruct (for_each_keep _ _ _) as [[evs k] [[]|ex]]; [reflexivity|].
  destruct ex; reflexivity.
Qed.

Ltac red_main :=
  cbn [fst snd app input out res rest negb is_empty retM].

Ltac red_leaf :=
  cbn [fst snd app say emit bindW retW preview_recipients out res rest].

Lemma prepare_block (w : world) (sd rid : pstr) (rs : list recipient) :
  ((if SAVE_CSV
    then save_to_csv w rs sd rid (csv_filename sd rid)
    else retW tt) ;;
   say (Heading (u "PREPARING EMAILS")))%W
  = match w_csv_error w with
    | Some e => ([], Raise (OSError e))
    | None =>
        ([CsvWritten (csv_filename sd rid)
            [u "name"; u "email"; u "session_date"; u "report_id"]
            (List.map (fun r => [name r; email r; sd; rid]) rs);
          Print (SavedTo (csv_filename sd rid));
          Print (Heading (u "PREPARING EMAILS"))], Ret tt)
    end.
Proof.
  unfold save_to_csv. destruct (w_csv_error w); reflexivity.
Qed.

Lemma dry_run_block (t sd rid : pstr) (rs : list recipient) :
  (forallb has_first_name rs = true /\
   (say TemplateLoaded ;; say DryRunHeading ;;
    dry_run_pass t rs sd rid ;;
    say Rule ;; say (ReadyToSend (length rs)))%W
   = (Print TemplateLoaded :: Print DryRunHeading
        :: List.map dry_line rs
        ++ [Print Rule; Print (ReadyToSend (length rs))], Ret tt)) \/
  (forallb has_first_name rs = false /\
   exists k,
     (say TemplateLoaded ;; say DryRunHeading ;;
      dry_run_pass t rs sd rid ;;
      say Rule ;; say (ReadyToSend (length rs)))%W
     = (Print TemplateLoaded :: Print DryRunHeading
          :: List.map dry_line (firstn k rs), Raise IndexError)).
Proof.
  destruct (dry_run_pass_spec t sd rid rs) as [[H E] | [H (k & E)]].
  - left; split; [exact H|]. rewrite E. reflexivity.
  - right; split; [exact H|]. exists k. rewrite E. reflexivity.
Qed.

Lemma send_block (w : world) (t sd rid : pstr) (rs : list recipient) :
  (say SendingHeading ;; real_send_pass w t rs sd rid)%W
  = (Print SendingHeading :: fst (real_send_pass w t rs sd rid), Ret tt).
Proof.
  rewrite bindW_say, real_send_pass_returns. reflexivity.
Qed.

(** Every run of [main] follows one of the paths of [main_path]. *)
Lemma main_paths (w : world) (stdin : list pstr) :
  main_path U w stdin (out (main U w stdin)) (res (main U w stdin)).
Proof.
  unfold main, bindM, lift, path_exists_template.
  red_main.
  destruct (w_template w) as [t|] eqn:Et; red_main.
  2:{ red_leaf. apply path_no_template. exact Et. }
  destruct (get_session_info U stdin) as [e1 i1 [[sd rid]|ex]] eqn:E1.
  2:{ red_leaf. eapply path_session_raises; eauto. }
  destruct (get_booking_data U i1) as [e2 i2 [rs|ex]] eqn:E2.
  2:{ red_leaf. eapply path_booking_raises; eauto. }
  destruct rs as [|r0 rs0] eqn:Ers.
  { red_main. red_leaf. rewrite app_nil_r.
    eapply path_no_recipients; eauto. }
  rewrite <- Ers in *.
  assert (R : reached_preview U w stdin t e1 e2 sd rid rs i2).
  { exists i1. repeat split; auto. rewrite Ers; discriminate. }
  replace (is_empty rs) with false by (rewrite Ers; reflexivity).
  clear Ers r0 rs0 E1 E2.
  red_main.
  destruct i2 as [|a1 i3]; red_main.
  { red_leaf. eapply path_eof_at_preview; eauto. }
  destruct (answered_yes U a1) eqn:Y1; red_main.
  2:{ red_leaf. eapply path_declined_preview; eauto. }
  rewrite prepare_block.
  destruct (w_csv_error w) as [e|] eqn:Ecsv; red_main.
  { red_leaf. eapply path_csv_fails; eauto. }
  unfold load_template. rewrite Et.
  change (snd (emit TemplateRead ;; retW t)%W) with (Ret t).
  red_main.
  destruct (dry_run_block t sd rid rs) as [[Hn E] | [Hn (k & E)]];
    rewrite E; red_main.
  2:{ red_leaf. rewrite <- (app_nil_r (List.map dry_line (firstn k rs))).
      eapply path_dry_run_raises; eauto. }
  destruct i3 as [|a2 i4]; red_main.
  { red_leaf. rewrite <- app_assoc. eapply path_eof_at_send; eauto. }
  destruct (answered_yes U a2) eqn:Y2; red_main.
  2:{ red_leaf. rewrite <- app_assoc. eapply path_declined_send; eauto. }
  rewrite send_block. red_leaf.
  rewrite <- app_assoc. eapply path_real_send; eauto.
Qed.

(** *** Classes of events along the paths *)

Lemma Forall_In_class (P : event -> bool) (l : list event) (x : event) :
  Forall (fun e => P e = true) l -> In x l -> P x = true.
Proof. intros H Hx. rewrite Forall_forall in H. exact (H x Hx). Qed.

Lemma reached_preview_events (w : world) (stdin : list pstr) t e1 e2 sd rid
    rs i2 :
  reached_preview U w stdin t e1 e2 sd rid rs i2 ->
  Forall (fun e => is_session_event e = true) e1 /\
  Forall (fun e => is_paste_event e = true) e2 /\
  (forall v, ~ In (Print (ParseError v)) e2).
Proof.
  intros (i1 & _ & E1 & E2 & Hrs).
  pose proof (get_session_info_events U stdin) as H1. rewrite E1 in H1.
  destruct (get_booking_data_cases U i1) as [H2 H3].
  rewrite E2 in H2, H3. simpl in H1, H2, H3.
  repeat split; auto.
  destruct H3 as [H3 | (pre & v & _ & Hres & _)]; [exact H3|].
  inversion Hres; congruence.
Qed.

Lemma send_events_class (w : world) (t sd rid : pstr) (n : nat)
    (l : list (nat * recipient)) :
  Forall (fun e => is_send_pass_event e = true)
    (flat_map (send_events w t sd rid n) l).
Proof.
  induction l as [|[i r] l IH]; [constructor|].
  cbn [flat_map]. apply Forall_app; split; [|exact IH].
  unfold send_events.
  destruct (w_send w i (message_for t sd rid r)); destruct (Nat.ltb i n);
    repeat constructor.
Qed.

Lemma setup_event_send_pass_event (l : list event) :
  Forall (fun e => is_setup_event e = true) l ->
  Forall (fun e => is_send_pass_event e = true) l.
Proof.
  apply Forall_impl. intros [[]| | | | | | | | | | ]; simpl; congruence.
Qed.

Lemma smtp_setup_dec (s : smtp_setup) : s = SessionOk \/ s <> SessionOk.
Proof. destruct s; auto; right; discriminate. Qed.

Lemma real_send_pass_events (w : world) (t sd rid : pstr)
    (rs : list recipient) :
  forallb has_first_name rs = true ->
  Forall (fun e => is_send_pass_event e = true)
    (fst (real_send_pass w t rs sd rid)).
Proof.
  intros Hn. destruct (smtp_setup_dec (w_smtp w)) as [Hs|Hs].
  - rewrite (real_send_pass_ok w t sd rid rs Hs Hn). cbn [fst].
    apply Forall_app; split; [repeat constructor|].
    apply Forall_app; split; [apply send_events_class|].
    repeat constructor.
  - apply setup_event_send_pass_event.
    apply real_send_pass_no_session. exact Hs.
Qed.

End Main.

(** Right-nested normal form of lists built with [::] and [++]. *)
Ltac list_norm :=
  repeat (rewrite <- app_assoc || rewrite <- app_comm_cons); cbn [app].

(** Splitting [In x trace] along the segments of a trace. *)
Ltac in_atoms H :=
  repeat match type of H with
  | In _ (trace_to_preview _ _ _ _ _ _) => unfold trace_to_preview in H
  | In _ (trace_of_preparation _ _ _ _ _) => unfold trace_of_preparation in H
  | In _ (_ :: _) => destruct H as [H|H]
  | In _ (_ ++ _) => apply in_app_or in H; destruct H as [H|H]
  | In _ [] => destruct H
  end.

(** An event cannot be in a segment whose class excludes it. *)
Ltac absurd_event H :=
  exfalso;
  first
    [ discriminate H
    | match type of H with
      | In _ (List.map dry_line _) =>
          let r := fresh "r" in
          let E := fresh "E" in
          apply in_map_iff in H; destruct H as (r & E & _);
          unfold dry_line in E; discriminate E
      | In ?x ?l =>
          match goal with
          | F : Forall (fun e => ?P e = true) l |- _ =>
              let C := fresh "C" in
              pose proof (Forall_In_class P l x F H) as C;
              simpl in C; discriminate C
          end
      end ].

(** ** Properties of the runs of [main] *)

Section MainProperties.

Variable U : unicode_db.

Lemma session_event_not_send (e : event) :
  is_session_event e = true -> is_send e = false.
Proof. destruct e; simpl; congruence. Qed.

Lemma paste_event_not_send (e : event) :
  is_paste_event e = true -> is_send e = false.
Proof. destruct e; simpl; congruence. Qed.

Lemma session_event_not_effect (e : event) :
  is_session_event e = true -> is_effect e = false.
Proof. destruct e as [[]| | | | | | | | | | ]; simpl; congruence. Qed.

Lemma paste_event_not_effect (e : event) :
  is_paste_event e = true -> is_effect e = false.
Proof. destruct e as [[]| | | | | | | | | | ]; simpl; congruence. Qed.

(** The sends of the real pass are the messages of the recipients. *)
Lemma real_send_pass_sends (w : world) (t sd rid : pstr)
    (rs : list recipient) (m : message) (ok : bool) :
  forallb has_first_name rs = true ->
  In (SmtpSend m ok) (fst (real_send_pass w t rs sd rid)) ->
  exists r, In r rs /\ m = message_for t sd rid r.
Proof.
  intros Hn H. destruct (smtp_setup_dec (w_smtp w)) as [Hs|Hs].
  - rewrite (real_send_pass_ok w t sd rid rs Hs Hn) in H. cbn [fst] in H.
    apply in_app_or in H. destruct H as [H|H].
    { in_atoms H; discriminate H. }
    apply in_app_or in H. destruct H as [H|H].
    2:{ in_atoms H; discriminate H. }
    apply in_flat_map in H. destruct H as ([i r] & Hir & H).
    exists r. split.
    + unfold enumerate1 in Hir. eapply in_combine_r; exact Hir.
    + unfold send_events in H.
      destruct (w_send w i (message_for t sd rid r));
        destruct (Nat.ltb i (length rs));
        in_atoms H; try discriminate H; inversion H; reflexivity.
  - destruct (real_send_pass_no_session w t sd rid rs Hs) as [F _].
    absurd_event H.
Qed.

Lemma filter_none (Q : event -> bool) (l : list event) :
  (forall e, In e l -> Q e = false) -> filter Q l = [].
Proof.
  induction l as [|x l IH]; intros H; simpl; [reflexivity|].
  rewrite (H x (or_introl eq_refl)). apply IH.
  intros e He. apply H. right; exact He.
Qed.

Lemma successful_send_is_send (e : event) :
  is_send e = false -> is_successful_send e = false.
Proof. destruct e; simpl; congruence. Qed.

Lemma before_sends_quiet (e1 e2 : list event) sd rid rs a1 a2 (e : event) :
  Forall (fun e => is_session_event e = true) e1 ->
  Forall (fun e => is_paste_event e = true) e2 ->
  In e (trace_before_sends e1 e2 sd rid rs a1 a2) ->
  is_send e = false /\ is_sleep e = false.
Proof.
  intros F1 F2 H. unfold trace_before_sends in H.
  in_atoms H; try (subst e; split; reflexivity).
  - pose proof (Forall_In_class _ _ _ F1 H) as C.
    destruct e as [[]| | | | | | | | | | ]; simpl in *; split; congruence.
  - pose proof (Forall_In_class _ _ _ F2 H) as C.
    destruct e as [[]| | | | | | | | | | ]; simpl in *; split; congruence.
  - apply in_map_iff in H. destruct H as (r0 & <- & _). split; reflexivity.
Qed.

(** A run that prints "Connected" went through both confirmations and
    the whole loop of the real send. *)
Lemma connected_run (w : world) (stdin : list pstr) :
  In (Print Connected) (out (main U w stdin)) ->
  exists t e1 e2 sd rid rs a1 a2,
    Forall (fun e => is_session_event e = true) e1 /\
    Forall (fun e => is_paste_event e = true) e2 /\
    rs <> [] /\
    out (main U w stdin)
    = trace_before_sends e1 e2 sd rid rs a1 a2
        ++ flat_map (send_events w t sd rid (length rs)) (enumerate1 rs)
        ++ [SmtpQuit;
            Print (Summary
                     (length (filter (send_succeeds w t sd rid)
                                (enumerate1 rs)))
                     (length rs))] /\
    res (main U w stdin) = Ret tt.
Proof.
  pose proof (main_paths U w stdin) as P. revert P.
  generalize (out (main U w stdin)) (res (main U w stdin)).
  intros tr r P H.
  destruct P as
    [ Et
    | t e1 i1 ex Et E1
    | t e1 i1 sd rid e2 i2 ex Et E1 E2
    | t e1 i1 sd rid e2 i2 Et E1 E2
    | t e1 e2 sd rid rs R
    | t e1 e2 sd rid rs a1 i3 R Y1
    | t e1 e2 sd rid rs a1 i3 e R Y1 Ecsv
    | t e1 e2 sd rid rs a1 i3 k R Y1 Ecsv Hn
    | t e1 e2 sd rid rs a1 R Y1 Ecsv Hn
    | t e1 e2 sd rid rs a1 a2 i4 R Y1 Ecsv Hn Y2
    | t e1 e2 sd rid rs a1 a2 i4 R Y1 Ecsv Hn Y2 ];
    try (pose proof (get_session_info_events U stdin) as F1;
         rewrite E1 in F1; simpl in F1);
    try (pose proof (proj1 (get_booking_data_cases U i1)) as F2;
         rewrite E2 in F2; simpl in F2);
    try (destruct (reached_preview_events U w stdin t e1 e2 sd rid rs _ R)
           as (F1 & F2 & _)).
  11:{ destruct (smtp_setup_dec (w_smtp w)) as [Hs|Hs].
       - exists t, e1, e2, sd, rid, rs, a1, a2.
         split; [exact F1|]. split; [exact F2|].
         split; [destruct R as (i1 & _ & _ & _ & Hrs); exact Hrs|].
         split; [|reflexivity].
         rewrite (real_send_pass_ok w t sd rid rs Hs Hn). cbn [fst].
         unfold trace_before_sends, trace_to_preview, trace_of_preparation.
         list_norm. reflexivity.
       - destruct (real_send_pass_no_session w t sd rid rs Hs) as [F3 _].
         in_atoms H; absurd_event H. }
  all: in_atoms H; absurd_event H.
Qed.

Lemma send_events_sends (w : world) (t sd rid : pstr) (n : nat)
    (l : list (nat * recipient)) :
  filter is_send (flat_map (send_events w t sd rid n) l)
  = List.map
      (fun ir =>
         SmtpSend (message_for t sd rid (snd ir))
           (send_succeeds w t sd rid ir)) l.
Proof.
  induction l as [|[i r] l IH]; [reflexivity|].
  cbn [flat_map List.map]. rewrite filter_app, IH. f_equal.
  unfold send_events, send_succeeds. cbn [fst snd].
  destruct (w_send w i (message_for t sd rid r)); destruct (Nat.ltb i n);
    reflexivity.
Qed.

Lemma send_events_successes (w : world) (t sd rid : pstr) (n : nat)
    (l : list (nat * recipient)) :
  length (filter is_successful_send (flat_map (send_events w t sd rid n) l))
  = length (filter (send_succeeds w t sd rid) l).
Proof.
  induction l as [|[i r] l IH]; [reflexivity|].
  cbn [flat_map filter]. rewrite filter_app, length_app, IH.
  unfold send_events, send_succeeds. cbn [fst snd].
  destruct (w_send w i (message_for t sd rid r)); destruct (Nat.ltb i n);
    reflexivity.
Qed.

(** C5. A failing [send_message] is caught in [send_email], which prints
    a diagnostic naming the recipient and returns False; the loop of the
    real send goes on: there is one send per recipient, in order, whatever
    the outcome of the others, and the count of the summary is the number
    of successful sends. *)
Theorem real_send_continues_after_failures (w : world) (stdin : list pstr) :
  (forall r msg send_message e,
      send_message msg = Some e ->
      send_email r msg (Some send_message) false
      = ([SmtpSend msg false; Print (FailedLine (email r) e)], Ret false)) /\
  (In (Print Connected) (out (main U w stdin)) ->
   exists t sd rid rs pre,
     let tr := out (main U w stdin) in
     tr = pre
            ++ flat_map (send_events w t sd rid (length rs)) (enumerate1 rs)
            ++ [SmtpQuit;
                Print (Summary (length (filter is_successful_send tr))
                         (length rs))] /\
     In (Print (Preview sd rid rs)) pre /\
     filter is_send tr
     = List.map
         (fun ir =>
            SmtpSend (message_for t sd rid (snd ir))
              (send_succeeds w t sd rid ir))
         (enumerate1 rs) /\
     (forall i r e,
         In (i, r) (enumerate1 rs) ->
         w_send w i (message_for t sd rid r) = Some e ->
         In (Print (FailedLine (email r) e)) tr) /\
     res (main U w stdin) = Ret tt).
Proof.
  split.
  { intros r msg send_message e H. rewrite send_email_real, H.
    reflexivity. }
  intros H. destruct (connected_run w stdin H)
    as (t & e1 & e2 & sd & rid & rs & a1 & a2 & F1 & F2 & Hrs & E & Er).
  exists t, sd, rid, rs, (trace_before_sends e1 e2 sd rid rs a1 a2).
  cbv zeta.
  assert (Q : forall e, In e (trace_before_sends e1 e2 sd rid rs a1 a2) ->
                is_send e = false).
  { intros e He. eapply before_sends_quiet; eauto. }
  assert (Q' : forall e, In e (trace_before_sends e1 e2 sd rid rs a1 a2) ->
                 is_successful_send e = false).
  { intros e He. apply successful_send_is_send, Q, He. }
  split; [|split; [|split; [|split]]].
  - rewrite E at 2. rewrite !filter_app, (filter_none _ _ Q').
    cbn [app filter is_successful_send]. rewrite app_nil_r.
    rewrite send_events_successes. exact E.
  - unfold trace_before_sends, trace_to_preview.
    right. rewrite !in_app_iff. right; right. left; reflexivity.
  - rewrite E, !filter_app, (filter_none _ _ Q).
    cbn [app filter is_send]. rewrite app_nil_r.
    apply send_events_sends.
  - intros i r e Hir He. rewrite E. apply in_or_app; right.
    apply in_or_app; left. apply in_flat_map. exists (i, r).
    split; [exact Hir|]. unfold send_events. rewrite He.
    right; right; left; reflexivity.
  - exact Er.
Qed.

(** C3. A real send occurs in a run of [main] only after the whole dry
    run (one line per recipient of the preview) and after the answer
    'yes' (stripped, lower-cased) to both confirmations; any other answer
    at either confirmation makes [main] return with no send at all. *)
Theorem main_sends_only_when_confirmed (w : world) (stdin : list pstr) :
  let tr := out (main U w stdin) in
  (forall m ok, In (SmtpSend m ok) tr ->
     exists sd rid rs pre mid1 mid2 post a1 a2,
       tr = pre ++ Input AskLooksCorrect a1 :: mid1
              ++ List.map dry_line rs
              ++ mid2 ++ Input AskSendForReal a2 :: post /\
       answered_yes U a1 = true /\ answered_yes U a2 = true /\
       In (Print (Preview sd rid rs)) pre /\
       (forall e,
           In e (pre ++ Input AskLooksCorrect a1 :: mid1
                   ++ List.map dry_line rs ++ mid2) ->
           is_send e = false) /\
       (forall m' ok', In (SmtpSend m' ok') post ->
           exists r, In r rs /\ In (u "To", email r) (headers m'))) /\
  (forall a, In (Input AskLooksCorrect a) tr -> answered_yes U a = false ->
     res (main U w stdin) = Ret tt /\
     forall m ok, ~ In (SmtpSend m ok) tr) /\
  (forall a, In (Input AskSendForReal a) tr -> answered_yes U a = false ->
     res (main U w stdin) = Ret tt /\
     forall m ok, ~ In (SmtpSend m ok) tr).
Proof.
  cbv zeta. pose proof (main_paths U w stdin) as P. revert P.
  generalize (out (main U w stdin)) (res (main U w stdin)).
  intros tr r P.
  destruct P as
    [ Et
    | t e1 i1 ex Et E1
    | t e1 i1 sd rid e2 i2 ex Et E1 E2
    | t e1 i1 sd rid e2 i2 Et E1 E2
    | t e1 e2 sd rid rs R
    | t e1 e2 sd rid rs a1 i3 R Y1
    | t e1 e2 sd rid rs a1 i3 e R Y1 Ecsv
    | t e1 e2 sd rid rs a1 i3 k R Y1 Ecsv Hn
    | t e1 e2 sd rid rs a1 R Y1 Ecsv Hn
    | t e1 e2 sd rid rs a1 a2 i4 R Y1 Ecsv Hn Y2
    | t e1 e2 sd rid rs a1 a2 i4 R Y1 Ecsv Hn Y2 ];
    try (pose proof (get_session_info_events U stdin) as F1;
         rewrite E1 in F1; simpl in F1);
    try (pose proof (proj1 (get_booking_data_cases U i1)) as F2;
         rewrite E2 in F2; simpl in F2);
    try (destruct (reached_preview_events U w stdin t e1 e2 sd rid rs _ R)
           as (F1 & F2 & _)).
  11:{ pose proof (real_send_pass_events w t sd rid rs Hn) as F3.
       split; [|split].
       - intros m ok _.
         exists sd, rid, rs.
         exists (MAIN_HEADING :: e1 ++ e2
                   ++ [Print (Preview sd rid rs); Print Rule]).
         exists [CsvWritten (csv_filename sd rid)
                   [u "name"; u "email"; u "session_date"; u "report_id"]
                   (List.map (fun r => [name r; email r; sd; rid]) rs);
                 Print (SavedTo (csv_filename sd rid));
                 Print (Heading (u "PREPARING EMAILS"));
                 TemplateRead; Print TemplateLoaded; Print DryRunHeading].
         exists [Print Rule; Print (ReadyToSend (length rs))].
         exists (Print SendingHeading :: fst (real_send_pass w t rs sd rid)).
         exists a1, a2.
         split.
         { unfold trace_to_preview, trace_of_preparation.
           cbn [app]. rewrite <- !app_assoc. reflexivity. }
         split; [exact Y1|]. split; [exact Y2|]. split.
         { right. rewrite !in_app_iff. right; right. left; reflexivity. }
         split.
         + intros e H. in_atoms H; try (subst e; reflexivity).
           * apply session_event_not_send.
             exact (Forall_In_class _ _ _ F1 H).
           * apply paste_event_not_send.
             exact (Forall_In_class _ _ _ F2 H).
           * apply in_map_iff in H. destruct H as (r0 & <- & _).
             reflexivity.
         + intros m' ok' H. destruct H as [H|H]; [discriminate H|].
           destruct (real_send_pass_sends w t sd rid rs m' ok' Hn H)
             as (r0 & Hr & ->).
           exists r0. split; [exact Hr|]. right; left; reflexivity.
       - intros a H Hno. in_atoms H; try (absurd_event H).
         inversion H; congruence.
       - intros a H Hno. in_atoms H; try (absurd_event H).
         inversion H; congruence. }
  all: split; [|split].
  all: try (intros m ok H; in_atoms H; absurd_event H).
  all: intros a H Hno; in_atoms H; try (absurd_event H).
  all: try (inversion H; congruence).
  all: split; [reflexivity|];
       intros m ok H'; in_atoms H'; absurd_event H'.
Qed.

Lemma send_events_sleeps (w : world) (t sd rid : pstr) (n : nat)
    (rs : list recipient) : forall k,
  k + length rs = S n ->
  length (filter is_sleep
            (flat_map (send_events w t sd rid n)
               (combine (seq k (length rs)) rs)))
  = length rs - 1.
Proof.
  induction rs as [|r rs IH]; intros k Hk; [reflexivity|].
  cbn [length seq combine flat_map] in *.
  rewrite filter_app, length_app, (IH (S k)) by lia.
  unfold send_events.
  destruct (w_send w k (message_for t sd rid r));
    destruct (Nat.ltb_spec k n); cbn; lia.
Qed.

Lemma nth_error_combine_seq {X} (l : list X) : forall k i x,
  nth_error l i = Some x ->
  nth_error (combine (seq k (length l)) l) i = Some (k + i, x).
Proof.
  induction l as [|y l IH]; intros k [|i] x H; simpl in *;
    try discriminate.
  - inversion H; subst. rewrite Nat.add_0_r. reflexivity.
  - rewrite (IH (S k) i x H). f_equal. f_equal. lia.
Qed.

(** C4 (amended). The real send sleeps for the fixed delay after each
    send except the last one: its trace is one segment per recipient, a
    progress mark, the send and its report, followed by a sleep of
    DELAY_BETWEEN_EMAILS exactly when the recipient is not the last; n
    recipients give n - 1 sleeps. *)
Theorem real_send_sleeps_between_sends (w : world) (stdin : list pstr) :
  In (Print Connected) (out (main U w stdin)) ->
  exists pre segments post,
    let n := length segments in
    out (main U w stdin) = pre ++ concat segments ++ post /\
    0 < n /\
    (forall e, In e (pre ++ post) -> is_send e = false /\ is_sleep e = false) /\
    (forall i, i < n ->
       exists m ok line,
         nth_error segments i
         = Some ([Print (Progress (i + 1) n); SmtpSend m ok; Print line]
                 ++ (if Nat.ltb (i + 1) n
                     then [Sleep DELAY_BETWEEN_EMAILS] else []))) /\
    length (filter is_sleep (out (main U w stdin))) = n - 1.
Proof.
  intros H. destruct (connected_run w stdin H)
    as (t & e1 & e2 & sd & rid & rs & a1 & a2 & F1 & F2 & Hrs & E & Er).
  exists (trace_before_sends e1 e2 sd rid rs a1 a2).
  exists (List.map (send_events w t sd rid (length rs)) (enumerate1 rs)).
  exists [SmtpQuit;
          Print (Summary
                   (length (filter (send_succeeds w t sd rid)
                              (enumerate1 rs)))
                   (length rs))].
  cbv zeta. rewrite length_map, length_enumerate1.
  assert (Q : forall e, In e (trace_before_sends e1 e2 sd rid rs a1 a2) ->
                is_send e = false /\ is_sleep e = false).
  { intros e He. eapply before_sends_quiet; eauto. }
  split; [|split; [|split; [|split]]].
  - rewrite <- flat_map_concat_map. exact E.
  - destruct rs; [congruence | simpl; lia].
  - intros e He. apply in_app_or in He. destruct He as [He|He].
    + apply Q, He.
    + in_atoms He; subst e; split; reflexivity.
  - intros i Hi.
    destruct (nth_error rs i) as [r|] eqn:Hr.
    2:{ apply nth_error_None in Hr. lia. }
    rewrite nth_error_map. unfold enumerate1.
    rewrite (nth_error_combine_seq rs 1 i r Hr). cbn [option_map].
    unfold send_events.
    replace (1 + i) with (i + 1) by lia.
    destruct (w_send w (i + 1) (message_for t sd rid r));
      do 3 eexists; reflexivity.
  - rewrite E, !filter_app, !length_app.
    rewrite (filter_none is_sleep _ (fun e He => proj2 (Q e He))).
    unfold enumerate1. rewrite send_events_sleeps by lia.
    cbn. lia.
Qed.

(** C8. When the pasted lines do not parse (odd count), [get_booking_data]
    prints the diagnostic and returns the empty list; in a run of [main]
    the diagnostic is then the last event: [main] returns at once, having
    written no CSV file, read no template and attempted no email, dry-run
    or real. *)
Theorem parse_error_stops_main (w : world) (stdin : list pstr) :
  (forall i lines e1 i1 v,
      input_loop PasteLine paste_body [] i = Run e1 i1 (Ret lines) ->
      snd (parse_booking_data U (join [newline] lines))
      = Raise (ValueError v) ->
      get_booking_data U i
      = Run (Print PasteInstructions :: e1 ++ [Print (ParseError v)]) i1
          (Ret [])) /\
  (forall v,
      In (Print (ParseError v)) (out (main U w stdin)) ->
      res (main U w stdin) = Ret tt /\
      (exists pre, out (main U w stdin) = pre ++ [Print (ParseError v)]) /\
      (forall e, In e (out (main U w stdin)) -> is_effect e = false)).
Proof.
  split.
  { intros i lines e1 i1 v Hl Hp. rewrite get_booking_data_eq, Hl.
    destruct (parse_booking_data_cases U (join [newline] lines))
      as [(n & _ & E) | E]; rewrite E in Hp |- *; simpl in Hp.
    - discriminate.
    - inversion Hp; subst. reflexivity. }
  intros v. pose proof (main_paths U w stdin) as P. revert P.
  generalize (out (main U w stdin)) (res (main U w stdin)).
  intros tr r P H.
  destruct P as
    [ Et
    | t e1 i1 ex Et E1
    | t e1 i1 sd rid e2 i2 ex Et E1 E2
    | t e1 i1 sd rid e2 i2 Et E1 E2
    | t e1 e2 sd rid rs R
    | t e1 e2 sd rid rs a1 i3 R Y1
    | t e1 e2 sd rid rs a1 i3 e R Y1 Ecsv
    | t e1 e2 sd rid rs a1 i3 k R Y1 Ecsv Hn
    | t e1 e2 sd rid rs a1 R Y1 Ecsv Hn
    | t e1 e2 sd rid rs a1 a2 i4 R Y1 Ecsv Hn Y2
    | t e1 e2 sd rid rs a1 a2 i4 R Y1 Ecsv Hn Y2 ];
    try (pose proof (get_session_info_events U stdin) as F1;
         rewrite E1 in F1; simpl in F1);
    try (destruct (get_booking_data_cases U i1) as [F2 C2];
         rewrite E2 in F2, C2; simpl in F2, C2);
    try (destruct (reached_preview_events U w stdin t e1 e2 sd rid rs _ R)
           as (F1 & F2 & N2));
    try (pose proof (real_send_pass_events w t sd rid rs Hn) as F3).
  4:{ (* no recipients: the diagnostic is the last event of the paste *)
      destruct H as [H|H]; [discriminate H|].
      apply in_app_or in H. destruct H as [H|H]; [absurd_event H|].
      destruct C2 as [C2 | (pre & v0 & Eo & _ & Npre)].
      { exfalso. exact (C2 v H). }
      assert (v0 = v) as ->.
      { rewrite Eo in H. apply in_app_or in H. destruct H as [H|H].
        - exfalso. exact (Npre v H).
        - destruct H as [H|[]]. inversion H; reflexivity. }
      split; [reflexivity|]. split.
      - exists (MAIN_HEADING :: e1 ++ pre). rewrite Eo.
        list_norm. reflexivity.
      - intros e0 He. in_atoms He.
        + subst e0; reflexivity.
        + apply session_event_not_effect.
          exact (Forall_In_class _ _ _ F1 He).
        + apply paste_event_not_effect.
          exact (Forall_In_class _ _ _ F2 He). }
  3:{ (* the paste raised: no diagnostic of the parse *)
      exfalso. destruct H as [H|H]; [discriminate H|].
      apply in_app_or in H. destruct H as [H|H]; [absurd_event H|].
      destruct C2 as [C2 | (pre & v0 & _ & Er & _)];
        [exact (C2 v H) | discriminate Er]. }
  all: in_atoms H; try (absurd_event H).
  all: exfalso; exact (N2 v H).
Qed.

End MainProperties.

(* ===================================================================== *)
(** * Part III: the properties on sample runs                             *)
(* ===================================================================== *)

Lemma ascii_db_decimal_not_space (c : codepoint) (d : N) :
  decimal_value ascii_db c = Some d -> isspace c = false.
Proof.
  simpl. unfold ascii_digit, in_range. destruct (N.leb_spec 48 c);
    destruct (N.leb_spec c 57); simpl; try discriminate.
  intros _. unfold isspace, in_range.
  repeat match goal with
         | |- context [N.leb ?a ?b] => destruct (N.leb_spec a b); try lia
         | |- context [N.eqb ?a ?b] => destruct (N.eqb_spec a b); try lia
         end; reflexivity.
Qed.

(** *** The string functions on samples *)

Example strip_sample : strip (u "  brian benson  ") = u "brian benson".
Proof. reflexivity. Qed.

Example split_ws_sample :
  split_ws (u "  Brian   Benson ") = [u "Brian"; u "Benson"].
Proof. reflexivity. Qed.

Example replace_sample :
  replace (u "{{X}}") (u "yo") (u "a{{X}}b{{X}}{{X}}c{{X")
  = u "ayobyoyoc{{X".
Proof. reflexivity. Qed.

Example replace_overlap_sample : replace (u "aa") (u "b") (u "aaaaa") = u "bba".
Proof. reflexivity. Qed.

Example email_regex_samples :
  List.map (fun s => email_looks_valid (u s))
    ["a@b.cd"; "a@b.c"; "a.b+c@x-y.z.com"; "@b.cd"; "a@b.cd1";
     "a@@b.cd"]%string
  = [true; false; true; false; false; false].
Proof. reflexivity. Qed.

Example title_lower_sample :
  str_title ascii_db (u "brian benson") = u "Brian Benson" /\
  str_lower ascii_db (u "Brian@X.com") = u "brian@x.com".
Proof. split; reflexivity. Qed.

Example lines_sample :
  nonempty_stripped_lines raw_two
  = [u "ann lee"; u "Ann@Example.org"; u "bob"; u "bob@example"].
Proof. reflexivity. Qed.

(** Membership of an event in the trace of a sample run. *)
Ltac in_concrete := vm_compute; repeat (first [left; reflexivity | right]).

(** *** The theorems on the sample runs *)

Lemma parse_booking_data_pairs_witness :
  length (nonempty_stripped_lines raw_two) = 2 * 2 /\
  exists recipients,
    snd (parse_booking_data ascii_db raw_two) = Ret recipients /\
    length recipients = 2 /\
    nth_error recipients 1
    = Some {| name := u "Bob"; email := u "bob@example" |}.
Proof.
  split; [reflexivity|].
  destruct (parse_booking_data_pairs ascii_db raw_two 2)
    as (recipients & E & L & N); [reflexivity|].
  exists recipients. split; [exact E|]. split; [exact L|].
  apply (N 1). lia.
Defined.

Lemma parse_booking_data_odd_witness :
  length (nonempty_stripped_lines raw_odd) = 2 * 1 + 1 /\
  parse_booking_data ascii_db raw_odd
  = ([], Raise (ValueError (OddLineCount 3))).
Proof.
  split; [reflexivity|].
  apply (parse_booking_data_odd ascii_db raw_odd 1). reflexivity.
Defined.

Lemma parse_booking_data_never_rejects_email_witness :
  length (nonempty_stripped_lines raw_two) = 2 * 2 /\
  email_looks_valid (u "bob@example") = false /\
  exists recipients,
    parse_booking_data ascii_db raw_two
    = ([Print (WarnEmail (u "bob@example"))], Ret recipients) /\
    length recipients = 2.
Proof.
  split; [reflexivity|]. split; [reflexivity|].
  destruct (parse_booking_data_never_rejects_email ascii_db raw_two 2)
    as (recipients & E & L & _); [reflexivity|].
  exists recipients. split; [exact E | exact L].
Defined.

Lemma get_session_info_date_validation_witness :
  valid_mmdd ascii_db (strip (u "1204")) /\
  exists evs',
    out (get_session_info ascii_db [u "1204"; u "2"])
    = [Print (Heading (u "SESSION INFORMATION")); Input AskDate (u "1204");
       Print (SessionMenu (strip (u "1204")))] ++ evs'.
Proof.
  assert (V : valid_mmdd ascii_db (strip (u "1204"))).
  { exists 49%N, 50%N, 48%N, 52%N, 1%N, 2%N, 0%N, 4%N.
    repeat split; try reflexivity; lia. }
  split; [exact V|].
  apply (get_session_info_date_validation ascii_db
           ascii_db_decimal_not_space [u "2"] (u "1204")).
  exact V.
Defined.

Lemma get_session_info_report_id_witness :
  get_session_info ascii_db [u "1204"; u "2"]
  = Run (out (get_session_info ascii_db [u "1204"; u "2"])) []
      (Ret (u "1204", u "12042")) /\
  exists pre answer,
    out (get_session_info ascii_db [u "1204"; u "2"])
    = pre ++ [Input AskSessionNum answer;
              Print (SessionSummary (u "1204") (u "12042"))] /\
    firstn 4 (u "12042") = u "1204".
Proof.
  split; [reflexivity|].
  destruct (get_session_info_report_id ascii_db [u "1204"; u "2"]
              (out (get_session_info ascii_db [u "1204"; u "2"])) []
              (u "1204") (u "12042"))
    as (pre & answer & E & _ & _ & _ & _ & _ & F & _); [reflexivity|].
  exists pre, answer. split; [exact E | exact F].
Defined.

Lemma personalized_message_witness :
  split_ws (u "Ann Lee") = [u "Ann"; u "Lee"] /\
  exists html msg,
    personalize_email demo_template
      {| name := u "Ann Lee"; email := u "ann@example.org" |}
      (u "1204") (u "12042") = ([], Ret html) /\
    create_email_message
      {| name := u "Ann Lee"; email := u "ann@example.org" |} html
    = ([], Ret msg) /\
    html = u "Hi Ann: https://aboutlastnightgame.com/reports/report12042.html https://aboutlastnightgame.com/feedback.html?date=1204" /\
    multipart_subtype msg = u "alternative".
Proof.
  split; [reflexivity|].
  destruct (personalized_message demo_template
              {| name := u "Ann Lee"; email := u "ann@example.org" |}
              (u "1204") (u "12042") (u "Ann") [u "Lee"])
    as (html & msg & P & C & H & M & _); [reflexivity|].
  exists html, msg. split; [exact P|]. split; [exact C|].
  split; [rewrite H; reflexivity | exact M].
Defined.

Lemma main_sends_only_when_confirmed_witness :
  (In (SmtpSend
         (message_for demo_template (u "1204") (u "1204")
            {| name := u "Ann Lee"; email := u "ann@example.org" |})
         true)
      (out (main ascii_db (demo_world send_ok) stdin_one)) /\
   exists rs pre mid1 mid2 post a1 a2,
     out (main ascii_db (demo_world send_ok) stdin_one)
     = pre ++ Input AskLooksCorrect a1 :: mid1
         ++ List.map dry_line rs
         ++ mid2 ++ Input AskSendForReal a2 :: post /\
     answered_yes ascii_db a1 = true /\ answered_yes ascii_db a2 = true) /\
  (In (Input AskSendForReal (u "no"))
     (out (main ascii_db (demo_world send_ok) stdin_declined)) /\
   answered_yes ascii_db (u "no") = false /\
   res (main ascii_db (demo_world send_ok) stdin_declined) = Ret tt /\
   forall m ok,
     ~ In (SmtpSend m ok)
         (out (main ascii_db (demo_world send_ok) stdin_declined))).
Proof.
  split.
  - assert (I : In (SmtpSend
                      (message_for demo_template (u "1204") (u "1204")
                         {| name := u "Ann Lee";
                            email := u "ann@example.org" |})
                      true)
                  (out (main ascii_db (demo_world send_ok) stdin_one))).
    { in_concrete. }
    split; [exact I|].
    destruct (main_sends_only_when_confirmed ascii_db (demo_world send_ok)
                stdin_one) as (S & _ & _).
    destruct (S _ _ I)
      as (sd & rid & rs & pre & mid1 & mid2 & post & a1 & a2
          & E & Y1 & Y2 & _).
    exists rs, pre, mid1, mid2, post, a1, a2. auto.
  - assert (I : In (Input AskSendForReal (u "no"))
                  (out (main ascii_db (demo_world send_ok) stdin_declined))).
    { in_concrete. }
    split; [exact I|]. split; [reflexivity|].
    destruct (main_sends_only_when_confirmed ascii_db (demo_world send_ok)
                stdin_declined) as (_ & _ & D).
    apply (D (u "no") I). reflexivity.
Defined.

Lemma real_send_continues_after_failures_witness :
  In (Print Connected)
    (out (main ascii_db (demo_world send_first_fails) stdin_two)) /\
  length (filter is_send
            (out (main ascii_db (demo_world send_first_fails) stdin_two)))
  = 2 /\
  In (Print (Summary 1 2))
    (out (main ascii_db (demo_world send_first_fails) stdin_two)) /\
  exists t sd rid rs,
    filter is_send
      (out (main ascii_db (demo_world send_first_fails) stdin_two))
    = List.map
        (fun ir =>
           SmtpSend (message_for t sd rid (snd ir))
             (send_succeeds (demo_world send_first_fails) t sd rid ir))
        (enumerate1 rs).
Proof.
  assert (I : In (Print Connected)
                (out (main ascii_db (demo_world send_first_fails) stdin_two))).
  { in_concrete. }
  split; [exact I|]. split; [reflexivity|]. split; [in_concrete|].
  destruct (real_send_continues_after_failures ascii_db
              (demo_world send_first_fails) stdin_two) as (_ & L).
  destruct (L I) as (t & sd & rid & rs & pre & _ & _ & F & _).
  exists t, sd, rid, rs. exact F.
Defined.

Lemma real_send_sleeps_between_sends_witness :
  In (Print Connected)
    (out (main ascii_db (demo_world send_first_fails) stdin_two)) /\
  length (filter is_sleep
            (out (main ascii_db (demo_world send_first_fails) stdin_two)))
  = 1 /\
  exists pre segments post,
    out (main ascii_db (demo_world send_first_fails) stdin_two)
    = pre ++ concat segments ++ post /\
    length (filter is_sleep
              (out (main ascii_db (demo_world send_first_fails) stdin_two)))
    = length segments - 1.
Proof.
  assert (I : In (Print Connected)
                (out (main ascii_db (demo_world send_first_fails) stdin_two))).
  { in_concrete. }
  split; [exact I|]. split; [reflexivity|].
  destruct (real_send_sleeps_between_sends ascii_db
              (demo_world send_first_fails) stdin_two I)
    as (pre & segments & post & E & _ & _ & _ & S).
  exists pre, segments, post. split; [exact E | exact S].
Defined.

(** C4 (counterexample). With one recipient there is a send and no sleep
    at all: the claim that a sleep follows each send fails. *)
Lemma one_recipient_no_sleep :
  ~ sleeps_after_each_send (out (main ascii_db (demo_world send_ok) stdin_one)).
Proof.
  intros H.
  destruct (H (firstn 31 (out (main ascii_db (demo_world send_ok) stdin_one)))
              (message_for demo_template (u "1204") (u "1204")
                 {| name := u "Ann Lee"; email := u "ann@example.org" |})
              true
              (skipn 32 (out (main ascii_db (demo_world send_ok) stdin_one))))
    as (mid & post' & E).
  { vm_compute. reflexivity. }
  vm_compute in E.
  destruct mid as [|x1 [|x2 [|x3 [|x4 mid]]]]; simpl in E; discriminate E.
Qed.

Lemma parse_error_stops_main_witness :
  In (Print (ParseError (OddLineCount 3)))
    (out (main ascii_db (demo_world send_ok) stdin_odd)) /\
  res (main ascii_db (demo_world send_ok) stdin_odd) = Ret tt /\
  forall e,
    In e (out (main ascii_db (demo_world send_ok) stdin_odd)) ->
    is_effect e = false.
Proof.
  assert (I : In (Print (ParseError (OddLineCount 3)))
                (out (main ascii_db (demo_world send_ok) stdin_odd))).
  { in_concrete. }
  split; [exact I|].
  destruct (parse_error_stops_main ascii_db (demo_world send_ok) stdin_odd)
    as (_ & L).
  destruct (L (OddLineCount 3) I) as (R & _ & Q).
  split; [exact R | exact Q].
Defined.

(* ===================================================================== *)
(** * Part IV: further properties of the script                           *)
(* ===================================================================== *)

(** ** The paste loop of [get_booking_data] *)

Section Paste.

Variable U : unicode_db.

Lemma paste_body_blank_first (line : pstr) :
  is_blank line = true -> paste_body [] line = retW (inl []).
Proof.
  unfold is_blank, paste_body. intros H. rewrite H. reflexivity.
Qed.

Lemma paste_body_content (acc : list pstr) (line : pstr) :
  is_blank line = false -> paste_body acc line = retW (inl (acc ++ [line])).
Proof.
  unfold is_blank, paste_body. intros H. rewrite H. reflexivity.
Qed.

Lemma paste_body_blank_after (acc : list pstr) (line : pstr) :
  is_blank line = true -> acc <> [] -> paste_body acc line = retW (inr acc).
Proof.
  unfold is_blank, paste_body. intros H Ha. rewrite H.
  destruct acc; [congruence | reflexivity].
Qed.

Lemma paste_loop_skip (blanks : list pstr) (i : list pstr) :
  forallb is_blank blanks = true ->
  input_loop PasteLine paste_body [] (blanks ++ i)
  = Run (inputs PasteLine blanks
           ++ out (input_loop PasteLine paste_body [] i))
      (rest (input_loop PasteLine paste_body [] i))
      (res (input_loop PasteLine paste_body [] i)).
Proof.
  induction blanks as [|b blanks IH]; intros H.
  - cbn [app]. destruct (input_loop PasteLine paste_body [] i); reflexivity.
  - cbn [forallb] in H. apply andb_true_iff in H. destruct H as [Hb Hbs].
    cbn [app input_loop]. rewrite (paste_body_blank_first b Hb).
    cbn [retW]. rewrite (IH Hbs). reflexivity.
Qed.

Lemma paste_loop_collect (content : list pstr) : forall acc x i,
  forallb (fun l => negb (is_blank l)) content = true ->
  is_blank x = true ->
  acc ++ content <> [] ->
  input_loop PasteLine paste_body acc (content ++ x :: i)
  = Run (inputs PasteLine (content ++ [x])) i (Ret (acc ++ content)).
Proof.
  induction content as [|c content IH]; intros acc x i H Hx Hne.
  - rewrite app_nil_r in *. cbn [app input_loop].
    rewrite (paste_body_blank_after acc x Hx Hne). reflexivity.
  - cbn [forallb] in H. apply andb_true_iff in H. destruct H as [Hc Hcs].
    apply negb_true_iff in Hc.
    cbn [app input_loop]. rewrite (paste_body_content acc c Hc).
    cbn [retW].
    rewrite (IH (acc ++ [c]) x i Hcs Hx).
    + rewrite <- app_assoc. reflexivity.
    + rewrite <- app_assoc. exact Hne.
Qed.

Lemma paste_loop_eof (content : list pstr) : forall acc,
  forallb (fun l => negb (is_blank l)) content = true ->
  input_loop PasteLine paste_body acc content
  = Run (inputs PasteLine content ++ [InputEOF PasteLine]) []
      (Raise EOFError).
Proof.
  induction content as [|c content IH]; intros acc H; [reflexivity|].
  cbn [forallb] in H. apply andb_true_iff in H. destruct H as [Hc Hcs].
  apply negb_true_iff in Hc.
  cbn [input_loop]. rewrite (paste_body_content acc c Hc). cbn [retW].
  rewrite (IH _ Hcs). reflexivity.
Qed.

Lemma paste_loop_run (blanks content : list pstr) (x : pstr) (i : list pstr) :
  forallb is_blank blanks = true ->
  forallb (fun l => negb (is_blank l)) content = true ->
  content <> [] ->
  is_blank x = true ->
  input_loop PasteLine paste_body [] (blanks ++ content ++ x :: i)
  = Run (inputs PasteLine (blanks ++ content ++ [x])) i (Ret content).
Proof.
  intros Hb Hc Hne Hx.
  rewrite (paste_loop_skip blanks _ Hb).
  rewrite (paste_loop_collect content [] x i Hc Hx Hne).
  cbn [out rest res app]. unfold inputs. rewrite !map_app. reflexivity.
Qed.

(** X1. The paste loop skips the blank lines before the data, collects
    the lines up to the first blank line after them, unchanged and in
    order, and leaves the rest of the input unread. *)
Theorem paste_loop_stops_at_first_blank
    (blanks content : list pstr) (x : pstr) (i : list pstr) :
  forallb is_blank blanks = true ->
  forallb (fun l => negb (is_blank l)) content = true ->
  content <> [] ->
  is_blank x = true ->
  input_loop PasteLine paste_body [] (blanks ++ content ++ x :: i)
  = Run (inputs PasteLine (blanks ++ content ++ [x])) i (Ret content).
Proof. exact (paste_loop_run blanks content x i). Qed.

(** X2. If the input ends before a blank line follows the pasted data,
    [get_booking_data] raises EOFError after reading everything: the
    pasted lines are neither parsed nor returned. *)
Theorem get_booking_data_needs_final_blank (blanks content : list pstr) :
  forallb is_blank blanks = true ->
  forallb (fun l => negb (is_blank l)) content = true ->
  get_booking_data U (blanks ++ content)
  = Run (Print PasteInstructions
           :: inputs PasteLine (blanks ++ content) ++ [InputEOF PasteLine])
      [] (Raise EOFError).
Proof.
  intros Hb Hc. rewrite get_booking_data_eq.
  rewrite (paste_loop_skip blanks _ Hb), (paste_loop_eof content [] Hc).
  cbn [out rest res]. unfold inputs. rewrite map_app, <- app_assoc.
  reflexivity.
Qed.

(** *** Joining the pasted lines and splitting them again *)

Lemma split_on_no_newline (p : pstr) :
  has_no_newline p = true -> split_on newline p = [p].
Proof.
  induction p as [|c p IH]; intros H; [reflexivity|].
  cbn [has_no_newline forallb] in H. apply andb_true_iff in H.
  destruct H as [Hc Hp]. apply negb_true_iff in Hc.
  cbn [split_on]. rewrite Hc, (IH Hp). reflexivity.
Qed.

Lemma split_on_app_newline (p s : pstr) :
  has_no_newline p = true ->
  split_on newline (p ++ newline :: s) = p :: split_on newline s.
Proof.
  induction p as [|c p IH]; intros H; [reflexivity|].
  cbn [has_no_newline forallb] in H. apply andb_true_iff in H.
  destruct H as [Hc Hp]. apply negb_true_iff in Hc.
  cbn [app split_on]. rewrite Hc, (IH Hp). reflexivity.
Qed.

Lemma split_on_join (lines : list pstr) :
  lines <> [] ->
  forallb has_no_newline lines = true ->
  split_on newline (join [newline] lines) = lines.
Proof.
  induction lines as [|l lines IH]; intros Hne H; [congruence|].
  cbn [forallb] in H. apply andb_true_iff in H. destruct H as [Hl Hls].
  destruct lines as [|l' lines].
  - cbn [join]. apply split_on_no_newline. exact Hl.
  - change (join [newline] (l :: l' :: lines))
      with (l ++ newline :: join [newline] (l' :: lines)).
    rewrite (split_on_app_newline _ _ Hl), IH; [reflexivity | discriminate
                                                | exact Hls].
Qed.

Lemma filter_nonblank_strip (lines : list pstr) :
  forallb (fun l => negb (is_blank l)) lines = true ->
  filter (fun line => negb (is_empty line)) (List.map strip lines)
  = List.map strip lines.
Proof.
  induction lines as [|l lines IH]; intros H; [reflexivity|].
  cbn [forallb] in H. apply andb_true_iff in H. destruct H as [Hl Hls].
  cbn [List.map filter]. unfold is_blank in Hl. rewrite Hl, (IH Hls).
  reflexivity.
Qed.

(** The lines the paste loop joins are found again by the parser. *)
Lemma nonempty_stripped_lines_join (lines : list pstr) :
  forallb has_no_newline lines = true ->
  forallb (fun l => negb (is_blank l)) lines = true ->
  nonempty_stripped_lines (join [newline] lines) = List.map strip lines.
Proof.
  intros Hn Hb. destruct lines as [|l lines]; [reflexivity|].
  unfold nonempty_stripped_lines.
  rewrite split_on_join by (discriminate || exact Hn).
  apply filter_nonblank_strip. exact Hb.
Qed.

(** X3. A well-formed paste: after any blank lines, 2n > 0 non-blank
    lines and a blank line.  [get_booking_data] reads up to that blank
    line, leaves the rest of the input, and returns the n recipients built
    from the consecutive pairs of the stripped pasted lines, with one
    warning per email that does not look valid. *)
Theorem get_booking_data_well_formed_paste
    (blanks content : list pstr) (x : pstr) (i : list pstr) (n : nat) :
  forallb is_blank blanks = true ->
  forallb (fun l => negb (is_blank l)) content = true ->
  forallb has_no_newline content = true ->
  length content = 2 * n ->
  0 < n ->
  is_blank x = true ->
  get_booking_data U (blanks ++ content ++ x :: i)
  = Run (Print PasteInstructions
           :: inputs PasteLine (blanks ++ content ++ [x])
           ++ flat_map (warning_of_pair (List.map strip content)) (seq 0 n)
           ++ [Print (Parsed n)])
      i
      (Ret (List.map (recipient_of_pair U (List.map strip content))
              (seq 0 n))).
Proof.
  intros Hb Hc Hnl Hlen Hn Hx.
  assert (Hne : content <> []) by (destruct content; simpl in *; [lia|discriminate]).
  rewrite get_booking_data_eq.
  rewrite (paste_loop_run blanks content x i Hb Hc Hne Hx).
  assert (E : booking_lines (join [newline] content) = List.map strip content).
  { rewrite booking_lines_spec.
    apply nonempty_stripped_lines_join; assumption. }
  rewrite (parse_booking_data_even U (join [newline] content) n)
    by (rewrite E, length_map; exact Hlen).
  rewrite E, length_map, length_seq. reflexivity.
Qed.

(** *** An empty list of recipients *)

Lemma nonblank_has_nonspace (l : pstr) :
  is_blank l = false -> existsb (fun c => negb (isspace c)) l = true.
Proof.
  unfold is_blank. induction l as [|c l IH]; intros H.
  - discriminate.
  - cbn [existsb]. destruct (isspace c) eqn:Ec; [|reflexivity].
    rewrite (strip_cons_space l c Ec) in H. apply IH. exact H.
Qed.

Lemma strip_cons_nonspace (c : codepoint) (w : pstr) :
  isspace c = false -> strip (c :: w) <> [].
Proof.
  intros Hc E. unfold strip in E. rewrite (lstrip_fixed c w Hc) in E.
  destruct (rstrip_decomp (c :: w)) as (ws & Hws & D).
  rewrite E in D. cbn [app] in D. subst ws.
  cbn [forallb] in Hws. rewrite Hc in Hws. discriminate.
Qed.

Lemma nonempty_stripped_lines_nonempty (s : pstr) :
  existsb (fun c => negb (isspace c)) s = true ->
  nonempty_stripped_lines s <> [].
Proof.
  induction s as [|c s IH]; intros H; [discriminate|].
  cbn [existsb] in H. destruct (isspace c) eqn:Ec.
  - rewrite (nonempty_stripped_lines_cons_space c s Ec). apply IH.
    exact H.
  - unfold nonempty_stripped_lines. cbn [split_on].
    assert (Hn : N.eqb c newline = false).
    { destruct (N.eqb_spec c newline) as [->|]; [|reflexivity].
      rewrite newline_isspace in Ec. discriminate. }
    rewrite Hn.
    pose proof (strip_cons_nonspace c) as S.
    destruct (split_on newline s) as [|w ws]; cbn [List.map filter].
    + specialize (S [] Ec). destruct (strip [c]); [congruence|].
      discriminate.
    + specialize (S w Ec). destruct (strip (c :: w)); [congruence|].
      discriminate.
Qed.

Lemma join_has_nonspace (l : pstr) (ls : list pstr) :
  existsb (fun c => negb (isspace c)) l = true ->
  existsb (fun c => negb (isspace c)) (join [newline] (l :: ls)) = true.
Proof.
  intros H. destruct ls as [|l' ls]; [exact H|].
  change (join [newline] (l :: l' :: ls))
    with (l ++ [newline] ++ join [newline] (l' :: ls)).
  rewrite existsb_app, H. reflexivity.
Qed.

(** The paste loop returns at least one line, and only non-blank lines. *)
Lemma paste_loop_ret (i : list pstr) : forall acc evs i' lines,
  forallb (fun l => negb (is_blank l)) acc = true ->
  input_loop PasteLine paste_body acc i = Run evs i' (Ret lines) ->
  lines <> [] /\ forallb (fun l => negb (is_blank l)) lines = true.
Proof.
  induction i as [|x i IH]; intros acc evs i' lines Ha H;
    cbn [input_loop] in H; [discriminate|].
  destruct (is_blank x) eqn:Ex.
  - destruct acc as [|a acc].
    + rewrite (paste_body_blank_first x Ex) in H. cbn [retW] in H.
      destruct (input_loop PasteLine paste_body [] i) as [e1 i1 r1] eqn:El.
      inversion H; subst. eapply IH; [|exact El]. reflexivity.
    + rewrite (paste_body_blank_after (a :: acc) x Ex) in H by discriminate.
      cbn [retW] in H. inversion H; subst. split; [discriminate|exact Ha].
  - rewrite (paste_body_content acc x Ex) in H. cbn [retW] in H.
    destruct (input_loop PasteLine paste_body (acc ++ [x]) i)
      as [e1 i1 r1] eqn:El.
    inversion H; subst. eapply IH; [|exact El].
    rewrite forallb_app, Ha. cbn [forallb]. rewrite Ex. reflexivity.
Qed.

Lemma parse_booking_data_raises_odd (raw_text : pstr) evs (n : nat) :
  parse_booking_data U raw_text = (evs, Raise (ValueError (OddLineCount n))) ->
  n = length (nonempty_stripped_lines raw_text) /\ Nat.odd n = true.
Proof.
  intros H. rewrite <- booking_lines_spec.
  destruct (Nat.eqb (Nat.modulo (length (booking_lines raw_text)) 2) 0)
    eqn:Em.
  - apply Nat.eqb_eq, Nat.Div0.div_exact in Em.
    rewrite (parse_booking_data_even U _ _ Em) in H. discriminate.
  - unfold parse_booking_data in H. rewrite Em in H. cbn [negb] in H.
    inversion H; subst. split; [reflexivity|].
    apply Nat.odd_spec. apply Nat.eqb_neq in Em.
    exists (Nat.div (length (booking_lines raw_text)) 2).
    pose proof (Nat.mod_upper_bound (length (booking_lines raw_text)) 2).
    pose proof (Nat.div_mod_eq (length (booking_lines raw_text)) 2).
    lia.
Qed.

Lemma get_booking_data_empty_inv
    (i : list pstr) evs i' :
  get_booking_data U i = Run evs i' (Ret []) ->
  exists pre n, evs = pre ++ [Print (ParseError (OddLineCount n))] /\
                Nat.odd n = true.
Proof.
  rewrite get_booking_data_eq.
  destruct (input_loop PasteLine paste_body [] i) as [e1 i1 [lines|ex]] eqn:El;
    [|discriminate].
  destruct (paste_loop_ret i [] e1 i1 lines eq_refl El) as [Hne Hnb].
  destruct (parse_booking_data_cases U (join [newline] lines))
    as [(n & Hlen & E) | E].
  - rewrite E. intros H. inversion H as [[He Hi Hr]]. exfalso.
    destruct n as [|n]; [|discriminate Hr].
    rewrite booking_lines_spec in Hlen.
    destruct lines as [|l ls]; [congruence|].
    cbn [forallb] in Hnb. apply andb_true_iff in Hnb.
    destruct Hnb as [Hl _]. apply negb_true_iff in Hl.
    apply (nonempty_stripped_lines_nonempty (join [newline] (l :: ls))).
    + apply join_has_nonspace, nonblank_has_nonspace, Hl.
    + apply length_zero_iff_nil. exact Hlen.
  - destruct (parse_booking_data_raises_odd _ _ _ E) as [_ Hodd].
    rewrite E. intros H. inversion H; subst.
    exists (Print PasteInstructions :: e1).
    exists (length (booking_lines (join [newline] lines))).
    split; [reflexivity | exact Hodd].
Qed.

(** X4. [get_booking_data] returns an empty list only after the
    diagnostic of the parse: whenever it returns no recipient, its last
    print is the error of an odd line count. *)
Theorem get_booking_data_empty_only_on_error
    (i : list pstr) evs i' :
  get_booking_data U i = Run evs i' (Ret []) ->
  exists pre n, evs = pre ++ [Print (ParseError (OddLineCount n))] /\
                Nat.odd n = true.
Proof. exact (get_booking_data_empty_inv i evs i'). Qed.

(** X5. A pasted text with nothing but white space has no line to pair:
    [parse_booking_data] returns the empty list and prints nothing. *)
Theorem parse_booking_data_white_space (raw_text : pstr) :
  forallb isspace raw_text = true ->
  parse_booking_data U raw_text = ([], Ret []).
Proof.
  intros H.
  assert (E : length (booking_lines raw_text) = 2 * 0).
  { rewrite booking_lines_spec.
    rewrite <- (app_nil_r raw_text).
    rewrite (nonempty_stripped_lines_prefix raw_text [] H). reflexivity. }
  rewrite (parse_booking_data_even U raw_text 0 E). reflexivity.
Qed.

End Paste.

(** ** The two loops of [get_session_info] *)

Section SessionLoops.

Variable U : unicode_db.

Hypothesis decimal_not_space :
  forall c d, decimal_value U c = Some d -> isspace c = false.

Lemma session_date_loop_skip (bad : list pstr) (i : list pstr) :
  Forall (fun x => ~ valid_mmdd U (strip x)) bad ->
  exists complaints,
    length complaints = length bad /\
    Forall (fun t => In t [BadFormat; BadMonth; BadDay]) complaints /\
    input_loop AskDate (session_date_body U) tt (bad ++ i)
    = Run (rejections AskDate (combine bad complaints)
             ++ out (input_loop AskDate (session_date_body U) tt i))
        (rest (input_loop AskDate (session_date_body U) tt i))
        (res (input_loop AskDate (session_date_body U) tt i)).
Proof.
  induction 1 as [|x bad Hx Hbad (complaints & Hl & Hc & E)].
  - exists []. repeat split; auto. cbn [app].
    destruct (input_loop AskDate (session_date_body U) tt i); reflexivity.
  - destruct (session_date_body_spec U decimal_not_space x)
      as [[V _] | [_ (t & Ht & Eb)]]; [contradiction|].
    exists (t :: complaints). split; [simpl; lia|].
    split; [constructor; assumption|].
    cbn [app input_loop]. rewrite Eb, E. reflexivity.
Qed.

Lemma session_num_loop_skip (bad : list pstr) (i : list pstr) :
  Forall (fun x => ~ In (chosen_session_num x) [u "1"; u "2"; u "3"]) bad ->
  input_loop AskSessionNum session_num_body tt (bad ++ i)
  = Run (rejections AskSessionNum
           (List.map (fun x => (x, BadSessionNum)) bad)
           ++ out (input_loop AskSessionNum session_num_body tt i))
      (rest (input_loop AskSessionNum session_num_body tt i))
      (res (input_loop AskSessionNum session_num_body tt i)).
Proof.
  induction 1 as [|x bad Hx Hbad IH].
  - cbn [app]. destruct (input_loop AskSessionNum session_num_body tt i);
      reflexivity.
  - destruct (session_num_body_spec x) as [[Hin _] | [_ Eb]];
      [contradiction|].
    cbn [app input_loop]. rewrite Eb, IH. reflexivity.
Qed.

(** X6. [get_session_info] on its input: the entries that are not
    well-formed dates are each answered by one complaint, the first
    well-formed date is taken; then the answers that choose no session
    number are each answered by the complaint, the first that chooses one
    is taken.  The rest of the input is left unread. *)
Theorem get_session_info_takes_first_valid
    (bad_dates : list pstr) (good : pstr) (bad_nums : list pstr) (num : pstr)
    (i : list pstr) :
  Forall (fun x => ~ valid_mmdd U (strip x)) bad_dates ->
  valid_mmdd U (strip good) ->
  Forall (fun x => ~ In (chosen_session_num x) [u "1"; u "2"; u "3"])
    bad_nums ->
  In (chosen_session_num num) [u "1"; u "2"; u "3"] ->
  let sd := strip good in
  let rid := report_id_of sd (chosen_session_num num) in
  exists complaints,
    length complaints = length bad_dates /\
    Forall (fun t => In t [BadFormat; BadMonth; BadDay]) complaints /\
    get_session_info U (bad_dates ++ good :: bad_nums ++ num :: i)
    = Run (Print (Heading (u "SESSION INFORMATION"))
             :: rejections AskDate (combine bad_dates complaints)
             ++ Input AskDate good :: Print (SessionMenu sd)
             :: rejections AskSessionNum
                  (List.map (fun x => (x, BadSessionNum)) bad_nums)
             ++ [Input AskSessionNum num; Print (SessionSummary sd rid)])
        i (Ret (sd, rid)).
Proof.
  intros Hbd Hgood Hbn Hnum sd rid.
  destruct (session_date_loop_skip bad_dates (good :: bad_nums ++ num :: i) Hbd)
    as (complaints & Hl & Hc & E).
  exists complaints. split; [exact Hl|]. split; [exact Hc|].
  rewrite get_session_info_eq, E. cbn [input_loop].
  destruct (session_date_body_spec U decimal_not_space good)
    as [[_ Eg] | [NV _]]; [|contradiction].
  rewrite Eg. cbn [out rest res].
  rewrite (session_num_loop_skip bad_nums (num :: i) Hbn). cbn [input_loop].
  destruct (session_num_body_spec num) as [[_ En] | [NI _]];
    [|contradiction].
  rewrite En. cbn [out rest res]. cbv zeta.
  fold (report_id_of (strip good) (chosen_session_num num)).
  fold sd. fold rid. list_norm. reflexivity.
Qed.

Lemma input_loop_raises {St A} (p : prompt) (body : St -> pstr -> W (St + A)) :
  (forall st x, exists evs r, body st x = (evs, Ret r)) ->
  forall i st evs i' ex,
    input_loop p body st i = Run evs i' (Raise ex) ->
    ex = EOFError /\ i' = [] /\ exists pre, evs = pre ++ [InputEOF p].
Proof.
  intros Hbody. induction i as [|x i IH]; intros st evs i' ex H;
    cbn [input_loop] in H.
  - inversion H; subst. repeat split. exists []. reflexivity.
  - destruct (Hbody st x) as (e0 & r0 & Eb). rewrite Eb in H.
    destruct r0 as [st'|a]; [|discriminate].
    destruct (input_loop p body st' i) as [e1 i1 r1] eqn:El.
    inversion H; subst.
    destruct (IH st' e1 i' ex El) as (-> & -> & pre & ->).
    repeat split. exists (Input p x :: e0 ++ pre).
    cbn [app]. rewrite <- app_assoc. reflexivity.
Qed.

Lemma get_session_info_raise_inv (stdin : list pstr) evs i' ex :
  get_session_info U stdin = Run evs i' (Raise ex) ->
  ex = EOFError /\ i' = [] /\
  exists pre p, evs = pre ++ [InputEOF p] /\
                (p = AskDate \/ p = AskSessionNum).
Proof.
  rewrite get_session_info_eq.
  destruct (input_loop AskDate (session_date_body U) tt stdin)
    as [e1 i1 [sd|ex1]] eqn:E1.
  - destruct (input_loop AskSessionNum session_num_body tt i1)
      as [e2 i2 [num|ex2]] eqn:E2; [discriminate|].
    intros H. inversion H; subst.
    destruct (input_loop_raises AskSessionNum session_num_body) with
      (i := i1) (st := tt) (evs := e2) (i' := i') (ex := ex)
      as (-> & -> & pre & ->); [|exact E2|].
    { intros [] x. destruct (session_num_body_spec x) as [[_ E] | [_ E]];
        rewrite E; eauto. }
    repeat split.
    exists (Print (Heading (u "SESSION INFORMATION"))
              :: e1 ++ Print (SessionMenu sd) :: pre), AskSessionNum.
    split; [list_norm; reflexivity | auto].
  - intros H. inversion H; subst.
    destruct (input_loop_raises AskDate (session_date_body U)) with
      (i := stdin) (st := tt) (evs := e1) (i' := i') (ex := ex)
      as (-> & -> & pre & ->); [|exact E1|].
    { intros [] x.
      destruct (session_date_body_spec U decimal_not_space x)
        as [[_ E] | [_ (t & _ & E)]]; rewrite E; eauto. }
    repeat split.
    exists (Print (Heading (u "SESSION INFORMATION")) :: pre), AskDate.
    split; [reflexivity | auto].
Qed.

(** X7. [get_session_info] raises nothing but EOFError, and only when the
    input is exhausted at one of its prompts: [int] is applied to digits
    only, so it never raises. *)
Theorem get_session_info_raises_only_eof (stdin : list pstr) evs i' ex :
  get_session_info U stdin = Run evs i' (Raise ex) ->
  ex = EOFError /\ i' = [] /\
  exists pre p, evs = pre ++ [InputEOF p] /\
                (p = AskDate \/ p = AskSessionNum).
Proof. exact (get_session_info_raise_inv stdin evs i' ex). Qed.

End SessionLoops.

(** ** The validation regex of [parse_booking_data] *)

Section EmailRegex.

Lemma lang_seq_iff (r1 r2 : regex) (s : pstr) :
  lang (Seq r1 r2) s <->
  exists s1 s2, s = s1 ++ s2 /\ lang r1 s1 /\ lang r2 s2.
Proof.
  split.
  - intros H; inversion H; subst. eauto.
  - intros (s1 & s2 & -> & H1 & H2). constructor; assumption.
Qed.

Lemma lang_star_class (p : codepoint -> bool) (s : pstr) :
  lang (Star (Class p)) s <-> forallb p s = true.
Proof.
  split.
  - intros H. remember (Star (Class p)) as r eqn:Er.
    induction H as [| | | | | |r0 s1 s2 H1 _ H2 IH2]; try discriminate.
    + reflexivity.
    + inversion Er; subst r0. apply lang_class_inv in H1.
      destruct H1 as (c & -> & Hc). cbn [app forallb].
      rewrite Hc. apply IH2. reflexivity.
  - induction s as [|c s IH]; intros H.
    + constructor.
    + cbn [forallb] in H. apply andb_true_iff in H. destruct H as [Hc Hs].
      change (c :: s) with ([c] ++ s).
      constructor; [constructor; exact Hc | apply IH; exact Hs].
Qed.

Lemma lang_plus_class (p : codepoint -> bool) (s : pstr) :
  lang (Plus (Class p)) s <-> s <> [] /\ forallb p s = true.
Proof.
  unfold Plus. rewrite lang_seq_iff. split.
  - intros (s1 & s2 & -> & H1 & H2).
    apply lang_class_inv in H1. destruct H1 as (c & -> & Hc).
    apply lang_star_class in H2. cbn [app forallb]. rewrite Hc, H2.
    split; [discriminate | reflexivity].
  - intros [Hne H]. destruct s as [|c s]; [congruence|].
    cbn [forallb] in H. apply andb_true_iff in H. destruct H as [Hc Hs].
    exists [c], s. repeat split.
    + constructor; exact Hc.
    + apply lang_star_class; exact Hs.
Qed.

Lemma lang_atleast2_class (p : codepoint -> bool) (s : pstr) :
  lang (AtLeast2 (Class p)) s <-> 2 <= length s /\ forallb p s = true.
Proof.
  unfold AtLeast2. rewrite lang_seq_iff. split.
  - intros (s1 & s2 & -> & H1 & H2).
    apply lang_seq_iff in H2. destruct H2 as (s3 & s4 & -> & H3 & H4).
    apply lang_class_inv in H1, H3.
    destruct H1 as (c1 & -> & Hc1), H3 as (c2 & -> & Hc2).
    apply lang_star_class in H4. cbn [app forallb length].
    rewrite Hc1, Hc2, H4. split; [lia | reflexivity].
  - intros [Hlen H]. destruct s as [|c1 [|c2 s]]; cbn [length] in Hlen;
      try lia.
    cbn [forallb] in H. apply andb_true_iff in H. destruct H as [Hc1 H].
    apply andb_true_iff in H. destruct H as [Hc2 Hs].
    exists [c1], (c2 :: s). repeat split; [constructor; exact Hc1|].
    apply lang_seq_iff. exists [c2], s.
    repeat split; [constructor; exact Hc2 | apply lang_star_class; exact Hs].
Qed.

Lemma lang_is_char (a : string) (x : codepoint) (s : pstr) :
  u a = [x] -> (lang (Class (is_char a)) s <-> s = [x]).
Proof.
  intros Ha. split.
  - intros H. apply lang_class_inv in H. destruct H as (c & -> & Hc).
    unfold is_char in Hc. rewrite Ha in Hc. apply N.eqb_eq in Hc.
    subst; reflexivity.
  - intros ->. constructor. unfold is_char. rewrite Ha. apply N.eqb_refl.
Qed.

(** X8. The emails that pass the validation regex without a warning are
    exactly those of the form local@domain.tld with a non-empty local part
    of letters, digits and [._%+-], a non-empty domain of letters, digits
    and [.-], and a last label of at least two letters. *)
Theorem email_looks_valid_spec (email : pstr) :
  ends_with_newline email = false ->
  (email_looks_valid email = true <->
   exists local domain tld,
     email = local ++ u "@" ++ domain ++ u "." ++ tld /\
     local <> [] /\ forallb local_class local = true /\
     domain <> [] /\ forallb domain_class domain = true /\
     2 <= length tld /\ forallb ascii_letter tld = true).
Proof.
  intros Hnl. unfold email_looks_valid, re_match_anchored.
  rewrite Hnl. cbn [andb]. rewrite orb_false_r, accepts_lang.
  unfold EMAIL_RE. split.
  - intros H.
    apply lang_seq_iff in H. destruct H as (local & s1 & -> & Hl & H).
    apply lang_seq_iff in H. destruct H as (at_ & s2 & -> & Ha & H).
    apply lang_seq_iff in H. destruct H as (domain & s3 & -> & Hd & H).
    apply lang_seq_iff in H. destruct H as (dot & tld & -> & Hdot & Ht).
    apply lang_plus_class in Hl, Hd. apply lang_atleast2_class in Ht.
    apply (lang_is_char "@" 64%N) in Ha; [|reflexivity].
    apply (lang_is_char "." 46%N) in Hdot; [|reflexivity].
    subst at_ dot. exists local, domain, tld.
    destruct Hl, Hd, Ht. repeat split; assumption.
  - intros (local & domain & tld & -> & Hl1 & Hl2 & Hd1 & Hd2 & Ht1 & Ht2).
    apply lang_seq_iff. exists local, (u "@" ++ domain ++ u "." ++ tld).
    repeat split; [apply lang_plus_class; auto|].
    apply lang_seq_iff. exists (u "@"), (domain ++ u "." ++ tld).
    repeat split; [apply (lang_is_char "@" 64%N); reflexivity|].
    apply lang_seq_iff. exists domain, (u "." ++ tld).
    repeat split; [apply lang_plus_class; auto|].
    apply lang_seq_iff. exists (u "."), tld.
    repeat split; [apply (lang_is_char "." 46%N); reflexivity|].
    apply lang_atleast2_class; auto.
Qed.

End EmailRegex.

(** ** [personalize_email] fills the placeholders *)

Section Placeholders.

Lemma is_prefix_app_refl (p t : pstr) : is_prefix p (p ++ t) = true.
Proof.
  induction p as [|c p IH]; [reflexivity|].
  cbn [app is_prefix]. rewrite N.eqb_refl. exact IH.
Qed.

Lemma replace_from_skip (old new m t : pstr) :
  replace_from old new (length m) (m ++ t) = replace_from old new 0 t.
Proof.
  induction m as [|c m IH]; [|exact IH].
  cbn [length app]. destruct t; reflexivity.
Qed.

(** At an occurrence of [old] the replacement is inserted and the scan
    goes on after the occurrence. *)
Lemma replace_from_hit (c : codepoint) (old new t : pstr) :
  replace_from (c :: old) new 0 ((c :: old) ++ t)
  = new ++ replace_from (c :: old) new 0 t.
Proof.
  cbn [app replace_from].
  change (is_prefix (c :: old) (c :: old ++ t))
    with (is_prefix (c :: old) ((c :: old) ++ t)).
  rewrite is_prefix_app_refl. cbn [length pred].
  rewrite replace_from_skip. reflexivity.
Qed.

(** A text without [{{] that does not end with [{] is copied. *)
Lemma replace_from_lit (old new s t : pstr) :
  lit_ok s = true ->
  replace_from (brace :: brace :: old) new 0 (s ++ t)
  = s ++ replace_from (brace :: brace :: old) new 0 t.
Proof.
  induction s as [|c s IH]; intros H; [reflexivity|].
  cbn [lit_ok] in H. apply andb_true_iff in H. destruct H as [Hc Hs].
  cbn [app replace_from].
  assert (P : is_prefix (brace :: brace :: old) (c :: s ++ t) = false).
  { cbn [is_prefix]. rewrite N.eqb_sym.
    destruct (N.eqb c brace); [|reflexivity].
    destruct s as [|c' s]; [discriminate|].
    cbn [app is_prefix]. rewrite N.eqb_sym.
    apply negb_true_iff in Hc. rewrite Hc. reflexivity. }
  rewrite P, (IH Hs). reflexivity.
Qed.

Lemma placeholder_text_braces (k : placeholder) :
  exists old, placeholder_text k = brace :: brace :: old.
Proof. destruct k; eexists; reflexivity. Qed.

(** Another placeholder is copied. *)
Lemma replace_from_other (k k' : placeholder) (new t : pstr) :
  placeholder_eqb k k' = false ->
  replace_from (placeholder_text k) new 0 (placeholder_text k' ++ t)
  = placeholder_text k' ++ replace_from (placeholder_text k) new 0 t.
Proof.
  destruct k, k'; intros H; try discriminate H; reflexivity.
Qed.

Lemma replace_placeholder (k : placeholder) (new s : pstr) :
  replace (placeholder_text k) new s
  = replace_from (placeholder_text k) new 0 s.
Proof. destruct k; reflexivity. Qed.

Lemma placeholder_eqb_eq (k k' : placeholder) :
  placeholder_eqb k k' = true -> k = k'.
Proof. destruct k, k'; simpl; congruence. Qed.

(** One call of [replace] fills one placeholder, wherever it occurs, and
    changes nothing else. *)
Lemma replace_fills (k : placeholder) (v : pstr) (pieces : list piece) :
  lits_ok pieces = true ->
  replace (placeholder_text k) v (render pieces) = render (fill k v pieces).
Proof.
  rewrite replace_placeholder. unfold render.
  induction pieces as [|pc pieces IH]; intros H; [reflexivity|].
  cbn [lits_ok forallb] in H. apply andb_true_iff in H.
  destruct H as [Hpc Hps]. specialize (IH Hps).
  cbn [fill List.map concat]. fold (fill k v pieces).
  destruct pc as [s|k'].
  - cbn [piece_text].
    destruct (placeholder_text_braces k) as (old & Eo).
    rewrite Eo in *.
    rewrite (replace_from_lit old v s _ Hpc), IH. reflexivity.
  - cbn [piece_text]. destruct (placeholder_eqb k k') eqn:Ek.
    + apply placeholder_eqb_eq in Ek. subst k'. cbn [piece_text].
      destruct (placeholder_text_braces k) as (old & Eo).
      rewrite Eo in *. rewrite replace_from_hit, IH. reflexivity.
    + cbn [piece_text]. rewrite (replace_from_other k k' v _ Ek), IH.
      reflexivity.
Qed.

Lemma lits_ok_fill (k : placeholder) (v : pstr) (pieces : list piece) :
  lit_ok v = true -> lits_ok pieces = true ->
  lits_ok (fill k v pieces) = true.
Proof.
  intros Hv. induction pieces as [|pc pieces IH]; intros H; [reflexivity|].
  cbn [lits_ok forallb] in H. apply andb_true_iff in H.
  destruct H as [Hpc Hps].
  cbn [fill List.map lits_ok forallb]. fold (fill k v pieces).
  fold (lits_ok (fill k v pieces)). rewrite (IH Hps), andb_true_r.
  destruct pc as [s|k']; [exact Hpc|].
  destruct (placeholder_eqb k k'); [exact Hv | reflexivity].
Qed.

Lemma render_fill_three (v1 v2 v3 : pstr) (pieces : list piece) :
  render (fill FEEDBACK_FORM_URL v3
            (fill CASE_FILE_URL v2 (fill PLAYER_NAME v1 pieces)))
  = fill_all v1 v2 v3 pieces.
Proof.
  unfold render, fill_all, fill. rewrite !map_map. f_equal.
  apply map_ext. intros [s|[]]; reflexivity.
Qed.

Lemma lit_ok_app (a b : pstr) :
  lit_ok a = true -> lit_ok b = true -> lit_ok (a ++ b) = true.
Proof.
  induction a as [|c a IH]; intros Ha Hb; [exact Hb|].
  cbn [lit_ok] in Ha. apply andb_true_iff in Ha. destruct Ha as [Hc Ha].
  cbn [app lit_ok]. rewrite (IH Ha Hb), andb_true_r.
  destruct (N.eqb c brace); [|reflexivity].
  destruct a as [|c' a]; [discriminate | exact Hc].
Qed.

(** X9. [personalize_email] on a template made of literal text and
    placeholders: every occurrence of each of the three placeholders is
    replaced by its value (the first name, the case-file URL, the feedback
    URL) and the literal text is unchanged, provided no literal and no
    value has [{{] or ends with [{]. *)
Theorem personalize_email_fills_placeholders
    (pieces : list piece) (r : recipient) (session_date report_id : pstr)
    (first : pstr) (others : list pstr) :
  lits_ok pieces = true ->
  split_ws (name r) = first :: others ->
  lit_ok first = true ->
  lit_ok session_date = true ->
  lit_ok report_id = true ->
  personalize_email (render pieces) r session_date report_id
  = ([], Ret (fill_all first
                (CASE_FILE_BASE ++ u "report" ++ report_id ++ u ".html")
                (FEEDBACK_BASE ++ u "?date=" ++ session_date)
                pieces)).
Proof.
  intros Hp Hsplit Hf Hsd Hrid.
  assert (Hn : has_first_name r = true).
  { unfold has_first_name. rewrite Hsplit. reflexivity. }
  rewrite (personalize_email_ok (render pieces) r session_date report_id Hn).
  unfold html_for, first_name_of. rewrite Hsplit. cbn [hd].
  assert (Hc : lit_ok (case_file_url report_id) = true).
  { unfold case_file_url. repeat apply lit_ok_app; try reflexivity.
    exact Hrid. }
  change (u "{{PLAYER_NAME}}") with (placeholder_text PLAYER_NAME).
  change (u "{{CASE_FILE_URL}}") with (placeholder_text CASE_FILE_URL).
  change (u "{{FEEDBACK_FORM_URL}}") with (placeholder_text FEEDBACK_FORM_URL).
  rewrite (replace_fills PLAYER_NAME first pieces Hp).
  rewrite (replace_fills CASE_FILE_URL (case_file_url report_id))
    by (apply lits_ok_fill; assumption).
  rewrite (replace_fills FEEDBACK_FORM_URL (feedback_url session_date))
    by (repeat apply lits_ok_fill; assumption).
  rewrite render_fill_three. reflexivity.
Qed.

End Placeholders.

(** ** More on the runs of [main] *)

(** The paths of a run, with the classes of the events of its parts. *)
Ltac main_cases U w stdin :=
  let P := fresh "P" in
  pose proof (main_paths U w stdin) as P; revert P;
  generalize (out (main U w stdin)) (res (main U w stdin));
  let tr := fresh "tr" in
  let r := fresh "r" in
  intros tr r P;
  destruct P as
    [ Et
    | t e1 i1 ex Et E1
    | t e1 i1 sd rid e2 i2 ex Et E1 E2
    | t e1 i1 sd rid e2 i2 Et E1 E2
    | t e1 e2 sd rid rs R
    | t e1 e2 sd rid rs a1 i3 R Y1
    | t e1 e2 sd rid rs a1 i3 e R Y1 Ecsv
    | t e1 e2 sd rid rs a1 i3 k R Y1 Ecsv Hn
    | t e1 e2 sd rid rs a1 R Y1 Ecsv Hn
    | t e1 e2 sd rid rs a1 a2 i4 R Y1 Ecsv Hn Y2
    | t e1 e2 sd rid rs a1 a2 i4 R Y1 Ecsv Hn Y2 ];
  try (pose proof (get_session_info_events U stdin) as F1;
       rewrite E1 in F1; cbn [out] in F1);
  try (pose proof (proj1 (get_booking_data_cases U i1)) as F2;
       rewrite E2 in F2; cbn [out] in F2);
  try (destruct (reached_preview_events U w stdin t e1 e2 sd rid rs _ R)
         as (F1 & F2 & N2));
  try (pose proof (real_send_pass_events w t sd rid rs Hn) as F3).

(** An event of a part of the trace is not in a class the part's own
    class excludes. *)
Ltac quiet_atom H :=
  first
    [ subst; reflexivity
    | match type of H with
      | In _ (List.map dry_line _) =>
          apply in_map_iff in H; destruct H as (? & <- & _); reflexivity
      | In ?x ?l =>
          match goal with
          | F : Forall (fun e => ?P e = true) l |- _ =>
              let C := fresh "C" in
              pose proof (Forall_In_class P l x F H) as C;
              destruct x as [[]| | | | | | | | | | ];
              simpl in C |- *; congruence
          end
      end ].

Section MainMore.

Variable U : unicode_db.

Lemma preview_prefix_app (h a b : event) (e1 e2 tail : list event) :
  (h :: e1 ++ e2 ++ [a; b]) ++ tail = h :: e1 ++ e2 ++ a :: b :: tail.
Proof. list_norm. reflexivity. Qed.

(** X10. The CSV file is written at most once in a run, right after the
    answer yes to the first confirmation; it is named after the session
    date and the report identifier and has one row per previewed
    recipient, in order: name, email, session date, report identifier. *)
Theorem csv_records_previewed_recipients (w : world) (stdin : list pstr)
    (filename : pstr) (header : list pstr) (rows : list (list pstr)) :
  In (CsvWritten filename header rows) (out (main U w stdin)) ->
  exists sd rid rs pre post a1,
    out (main U w stdin)
    = pre ++ Input AskLooksCorrect a1
          :: CsvWritten filename header rows :: post /\
    answered_yes U a1 = true /\
    In (Print (Preview sd rid rs)) pre /\
    filename = u "recipients_" ++ sd ++ u "_" ++ rid ++ u ".csv" /\
    header = [u "name"; u "email"; u "session_date"; u "report_id"] /\
    rows = List.map (fun r => [name r; email r; sd; rid]) rs /\
    (forall e, In e (pre ++ post) -> is_csv e = false).
Proof.
  main_cases U w stdin. all: intros H.
  all: in_atoms H; try (absurd_event H).
  all: inversion H; subst; clear H.
  all: exists sd, rid, rs.
  all: exists (MAIN_HEADING :: e1 ++ e2
                 ++ [Print (Preview sd rid rs); Print Rule]).
  all: eexists; exists a1.
  all: split;
    [ unfold trace_to_preview, trace_of_preparation; symmetry;
      apply preview_prefix_app |].
  all: split; [exact Y1|].
  all: split;
    [ right; rewrite !in_app_iff; right; right; left; reflexivity |].
  all: split; [reflexivity|]. all: split; [reflexivity|].
  all: split; [reflexivity|].
  all: intros e0 He; apply in_app_or in He; destruct He as [He|He];
    in_atoms He; quiet_atom He.
Qed.

(** *** How a run ends *)









Lemma send_events_smtp (w : world) (t sd rid : pstr) (n : nat)
    (l : list (nat * recipient)) :
  filter is_smtp (flat_map (send_events w t sd rid n) l)
  = filter is_send (flat_map (send_events w t sd rid n) l).
Proof.
  induction l as [|[i r] l IH]; [reflexivity|].
  cbn [flat_map]. rewrite !filter_app, IH. f_equal.
  unfold send_events.
  destruct (w_send w i (message_for t sd rid r)); destruct (Nat.ltb i n);
    reflexivity.
Qed.

Lemma filter_all (Q : event -> bool) (l : list event) :
  Forall (fun e => Q e = true) (filter Q l).
Proof.
  apply Forall_forall. intros x Hx. apply filter_In in Hx. apply Hx.
Qed.

Lemma real_send_pass_smtp (w : world) (t sd rid : pstr) (rs : list recipient) :
  forallb has_first_name rs = true ->
  filter is_smtp (fst (real_send_pass w t rs sd rid))
  = match w_smtp w with
    | ConnectError _ => []
    | StartTlsError _ => [SmtpConnect; SmtpQuit]
    | LoginRefused | LoginError _ => [SmtpConnect; SmtpStartTls; SmtpQuit]
    | SessionOk =>
        SmtpConnect :: SmtpStartTls :: SmtpLogin
          :: filter is_send
               (flat_map (send_events w t sd rid (length rs)) (enumerate1 rs))
          ++ [SmtpQuit]
    end.
Proof.
  intros Hn. destruct (w_smtp w) eqn:Hs.
  5:{ rewrite (real_send_pass_ok w t sd rid rs Hs Hn). cbn [fst].
      rewrite !filter_app, send_events_smtp. reflexivity. }
  all: unfold real_send_pass; rewrite Hs; reflexivity.
Qed.

Lemma confirmed_trace_split (e1 e2 : list event) (sd rid : pstr)
    (rs : list recipient) (a1 a2 : pstr) (tail : list event) :
  trace_to_preview e1 e2 sd rid rs
    (Input AskLooksCorrect a1
       :: trace_of_preparation sd rid rs (List.map dry_line rs)
            (Print Rule :: Print (ReadyToSend (length rs))
               :: Input AskSendForReal a2 :: Print SendingHeading :: tail))
  = trace_to_preview e1 e2 sd rid rs
      (Input AskLooksCorrect a1
         :: trace_of_preparation sd rid rs (List.map dry_line rs)
              [Print Rule; Print (ReadyToSend (length rs));
               Input AskSendForReal a2; Print SendingHeading])
    ++ tail.
Proof.
  unfold trace_to_preview, trace_of_preparation. list_norm. reflexivity.
Qed.

(** X12. The calls on the SMTP connection in a run of [main]: none at
    all, or one session that is opened first and closed last, whatever
    happens in between; the sends occur only in a session whose set-up
    (connect, starttls, login) succeeded, between the login and the
    quit. *)
Theorem smtp_calls_form_one_session (w : world) (stdin : list pstr) :
  let calls := filter is_smtp (out (main U w stdin)) in
  calls = [] \/
  calls = [SmtpConnect; SmtpQuit] \/
  calls = [SmtpConnect; SmtpStartTls; SmtpQuit] \/
  exists sends,
    calls = SmtpConnect :: SmtpStartTls :: SmtpLogin :: sends ++ [SmtpQuit] /\
    Forall (fun e => is_send e = true) sends /\
    w_smtp w = SessionOk.
Proof.
  cbv zeta. main_cases U w stdin.
  11:{ rewrite confirmed_trace_split, filter_app.
       rewrite (filter_none is_smtp
                  (trace_to_preview e1 e2 sd rid rs
                     (Input AskLooksCorrect a1
                        :: trace_of_preparation sd rid rs
                             (List.map dry_line rs)
                             [Print Rule; Print (ReadyToSend (length rs));
                              Input AskSendForReal a2;
                              Print SendingHeading]))).
       2:{ intros e0 He. in_atoms He; quiet_atom He. }
       cbn [app]. rewrite (real_send_pass_smtp w t sd rid rs Hn).
       destruct (w_smtp w); auto.
       right; right; right. eexists. split; [reflexivity|].
       split; [apply filter_all | reflexivity]. }
  all: left; apply filter_none; intros e0 He; in_atoms He; quiet_atom He.
Qed.



End MainMore.

(** ** The exceptions that escape [main] *)

Section MainRaises.

Variable U : unicode_db.

Hypothesis decimal_not_space :
  forall c d, decimal_value U c = Some d -> isspace c = false.







End MainRaises.

(* ===================================================================== *)
(** * Part V: the further properties on sample runs                       *)
(* ===================================================================== *)

Lemma paste_loop_stops_at_first_blank_witness :
  forallb is_blank [u ""; u "  "] = true /\
  input_loop PasteLine paste_body []
    ([u ""; u "  "] ++ pasted_pair ++ u " " :: [u "yes"])
  = Run (inputs PasteLine ([u ""; u "  "] ++ pasted_pair ++ [u " "]))
      [u "yes"] (Ret pasted_pair).
Proof.
  split; [reflexivity|].
  apply (paste_loop_stops_at_first_blank [u ""; u "  "] pasted_pair (u " ")
           [u "yes"]); try reflexivity.
  discriminate.
Defined.

Lemma get_booking_data_needs_final_blank_witness :
  get_booking_data ascii_db ([u ""] ++ pasted_pair)
  = Run (Print PasteInstructions
           :: inputs PasteLine ([u ""] ++ pasted_pair) ++ [InputEOF PasteLine])
      [] (Raise EOFError).
Proof.
  apply (get_booking_data_needs_final_blank ascii_db [u ""] pasted_pair);
    reflexivity.
Defined.

Lemma get_booking_data_well_formed_paste_witness :
  length pasted_pair = 2 * 1 /\
  get_booking_data ascii_db ([u ""] ++ pasted_pair ++ u "" :: [u "yes"])
  = Run (Print PasteInstructions
           :: inputs PasteLine ([u ""] ++ pasted_pair ++ [u ""])
           ++ flat_map (warning_of_pair (List.map strip pasted_pair)) (seq 0 1)
           ++ [Print (Parsed 1)])
      [u "yes"]
      (Ret (List.map (recipient_of_pair ascii_db (List.map strip pasted_pair))
              (seq 0 1))).
Proof.
  split; [reflexivity|].
  apply (get_booking_data_well_formed_paste ascii_db [u ""] pasted_pair (u "")
           [u "yes"] 1); try reflexivity.
  lia.
Defined.

Lemma get_booking_data_empty_only_on_error_witness :
  res (get_booking_data ascii_db [u "ann lee"; u "ann@example.org"; u "bob"; u ""])
  = Ret [] /\
  exists pre n,
    out (get_booking_data ascii_db
           [u "ann lee"; u "ann@example.org"; u "bob"; u ""])
    = pre ++ [Print (ParseError (OddLineCount n))] /\
    Nat.odd n = true.
Proof.
  split; [reflexivity|].
  apply (get_booking_data_empty_only_on_error ascii_db
           [u "ann lee"; u "ann@example.org"; u "bob"; u ""]
           (out (get_booking_data ascii_db
                   [u "ann lee"; u "ann@example.org"; u "bob"; u ""]))
           []).
  reflexivity.
Defined.

Lemma parse_booking_data_white_space_witness :
  forallb isspace (u "  " ++ [newline] ++ u " ") = true /\
  parse_booking_data ascii_db (u "  " ++ [newline] ++ u " ") = ([], Ret []).
Proof.
  split; [reflexivity|].
  apply (parse_booking_data_white_space ascii_db). reflexivity.
Defined.

Lemma get_session_info_takes_first_valid_witness :
  exists complaints,
    length complaints = 2 /\
    get_session_info ascii_db
      ([u "1304"; u "12a4"] ++ u " 1204 " :: [u "4"] ++ u "2" :: [u "yes"])
    = Run (Print (Heading (u "SESSION INFORMATION"))
             :: rejections AskDate (combine [u "1304"; u "12a4"] complaints)
             ++ Input AskDate (u " 1204 ") :: Print (SessionMenu (u "1204"))
             :: rejections AskSessionNum [(u "4", BadSessionNum)]
             ++ [Input AskSessionNum (u "2");
                 Print (SessionSummary (u "1204") (u "12042"))])
        [u "yes"] (Ret (u "1204", u "12042")).
Proof.
  destruct (get_session_info_takes_first_valid ascii_db
              ascii_db_decimal_not_space
              [u "1304"; u "12a4"] (u " 1204 ") [u "4"] (u "2") [u "yes"])
    as (complaints & L & _ & E).
  - repeat constructor.
    + intros (c1 & c2 & c3 & c4 & d1 & d2 & d3 & d4
              & E & D1 & D2 & D3 & D4 & M & D).
      vm_compute in E. inversion E; subst.
      vm_compute in D1, D2. inversion D1; inversion D2; subst. lia.
    + intros (c1 & c2 & c3 & c4 & d1 & d2 & d3 & d4
              & E & D1 & D2 & D3 & D4 & M & D).
      vm_compute in E. inversion E; subst.
      vm_compute in D3. discriminate D3.
  - exists 49%N, 50%N, 48%N, 52%N, 1%N, 2%N, 0%N, 4%N.
    repeat split; try reflexivity; lia.
  - repeat constructor. vm_compute.
    intros [H|[H|[H|[]]]]; discriminate H.
  - right; left; reflexivity.
  - exists complaints. split; [exact L | exact E].
Defined.

Lemma get_session_info_raises_only_eof_witness :
  res (get_session_info ascii_db [u "1304"; u "1204"]) = Raise EOFError /\
  exists pre p,
    out (get_session_info ascii_db [u "1304"; u "1204"])
    = pre ++ [InputEOF p].
Proof.
  split; [reflexivity|].
  destruct (get_session_info_raises_only_eof ascii_db
              ascii_db_decimal_not_space [u "1304"; u "1204"]
              (out (get_session_info ascii_db [u "1304"; u "1204"])) []
              EOFError)
    as (_ & _ & pre & p & E & _); [reflexivity|].
  exists pre, p. exact E.
Defined.

Lemma email_looks_valid_spec_witness :
  email_looks_valid (u "a.b+c@x-y.z.com") = true /\
  email_looks_valid (u "bob@example") = false /\
  exists local domain tld,
    u "a.b+c@x-y.z.com" = local ++ u "@" ++ domain ++ u "." ++ tld /\
    2 <= length tld.
Proof.
  split; [reflexivity|]. split; [reflexivity|].
  destruct (email_looks_valid_spec (u "a.b+c@x-y.z.com")) as [H _];
    [reflexivity|].
  destruct H as (local & domain & tld & E & _ & _ & _ & _ & L & _);
    [reflexivity|].
  exists local, domain, tld. split; [exact E | exact L].
Defined.

Lemma personalize_email_fills_placeholders_witness :
  render demo_pieces = demo_template /\
  personalize_email demo_template
    {| name := u "Ann Lee"; email := u "ann@example.org" |}
    (u "1204") (u "12042")
  = ([], Ret (u "Hi Ann: https://aboutlastnightgame.com/reports/report12042.html https://aboutlastnightgame.com/feedback.html?date=1204")).
Proof.
  split; [reflexivity|].
  change demo_template with (render demo_pieces).
  rewrite (personalize_email_fills_placeholders demo_pieces
             {| name := u "Ann Lee"; email := u "ann@example.org" |}
             (u "1204") (u "12042") (u "Ann") [u "Lee"]); reflexivity.
Defined.

Lemma csv_records_previewed_recipients_witness :
  In (CsvWritten (u "recipients_1204_1204.csv")
        [u "name"; u "email"; u "session_date"; u "report_id"]
        [[u "Ann Lee"; u "ann@example.org"; u "1204"; u "1204"]])
    (out (main ascii_db (demo_world send_ok) stdin_one)) /\
  exists sd rid rs,
    In (Print (Preview sd rid rs))
      (out (main ascii_db (demo_world send_ok) stdin_one)) /\
    [[u "Ann Lee"; u "ann@example.org"; u "1204"; u "1204"]]
    = List.map (fun r => [name r; email r; sd; rid]) rs.
Proof.
  assert (I : In (CsvWritten (u "recipients_1204_1204.csv")
                    [u "name"; u "email"; u "session_date"; u "report_id"]
                    [[u "Ann Lee"; u "ann@example.org"; u "1204"; u "1204"]])
                (out (main ascii_db (demo_world send_ok) stdin_one))).
  { in_concrete. }
  split; [exact I|].
  destruct (csv_records_previewed_recipients ascii_db (demo_world send_ok)
              stdin_one _ _ _ I)
    as (sd & rid & rs & pre & post & a1 & E & _ & P & _ & _ & R & _).
  exists sd, rid, rs. split; [|exact R].
  rewrite E. apply in_or_app. left. exact P.
Defined.


